(** * MeshCore node synchronisation: canonical model and reconciliation

    A shallow embedding of [src/MeshCore/nodes/sync_data.py]: the canonical
    [Node] model, the two source normalisers, the fingerprint ([Node.hash]),
    the three-way reconciliation [_filter_diff_nodes] and the snapshot store
    policy of [sync_repeaters] / [sync_companions].

    Conventions.
    - Python [str] is [string]; the model covers ASCII text, on which
      [str.upper] maps [a-z] to [A-Z] and leaves every other character alone.
    - Python [int] is [Z]; an exception is a value of [exception] carried by
      [result].
    - A [dict] is a [gmap], a [set] is a [gset]; the iteration order of a
      Python set is unspecified, so statements about the produced lists are
      made up to permutation.
    - The file system is passed in and out of the functions that read or
      write a file; what the program prints is left out.
    - What the program takes from libraries or from its environment (the
      [float] type and its [repr], the interpreter's string [hash], the local
      time zone, [urllib.parse.quote], [json.dumps], [json.load] with the
      pydantic validation of [Node]) is a variable of the section, and the
      answers of the two HTTP providers are arguments of the functions that
      fetch them in the source.
    - The normalisers and the synchronisation are given twice: on the
      validated LetsMesh nodes, and from the items of the answer, whose
      device role is still an integer and is validated against the members of
      [LetsMeshNodeRole], with [int] raising past the interpreter's limit on
      the length of a number ([sys.int_max_str_digits]). *)

From Stdlib Require Import ZArith String Ascii List Lia.
From stdpp Require Import base option list gmap strings pretty sets fin_maps.

Local Open Scope Z_scope.

(** ** Exceptions *)

Inductive exception : Type :=
  | ValueError_unknown_device_role (role : Z)
  | KeyError (key : Z)
  | DecodeError
  | ValidationError_device_role (value : Z)
  | ValueError_int_max_str_digits (digits : nat).

Inductive result (A : Type) : Type :=
  | Ok (a : A)
  | Raise (e : exception).
Arguments Ok {A} a.
Arguments Raise {A} e.

#[global] Instance result_ret : MRet result := λ A a, Ok a.

#[global] Instance result_bind : MBind result := λ A B k r,
  match r with
  | Ok a => k a
  | Raise e => Raise e
  end.

(** ** Python string operations *)

Module Str.

(** [c.upper()] on an ASCII character. *)
Definition upper_char (c : ascii) : ascii :=
  let n := nat_of_ascii c in
  if ((97 <=? n) && (n <=? 122))%nat then ascii_of_nat (n - 32) else c.

(** [s.upper()] *)
Fixpoint upper (s : string) : string :=
  match s with
  | EmptyString => EmptyString
  | String c s' => String (upper_char c) (upper s')
  end.

(** [s[:n]] *)
Fixpoint take (n : nat) (s : string) : string :=
  match n, s with
  | S n', String c s' => String c (take n' s')
  | _, _ => EmptyString
  end.

(** [bool(s)]: a string is truthy when it is not empty. *)
Definition truthy (s : string) : bool :=
  match s with
  | EmptyString => false
  | String _ _ => true
  end.

Definition is_digit (c : ascii) : bool :=
  let n := nat_of_ascii c in ((48 <=? n) && (n <=? 57))%nat.

Definition digit_value (c : ascii) : Z :=
  Z.of_nat (nat_of_ascii c) - 48.

Fixpoint all_digits (s : string) : bool :=
  match s with
  | EmptyString => true
  | String c s' => is_digit c && all_digits s'
  end.

(** [s.isdigit()]: at least one character and only digits. *)
Definition isdigit (s : string) : bool := truthy s && all_digits s.

Fixpoint int_acc (acc : Z) (s : string) : Z :=
  match s with
  | EmptyString => acc
  | String c s' => int_acc (10 * acc + digit_value c) s'
  end.

(** The number that a string of digits spells: [int(s)] wherever the
    interpreter converts the string.  [int_limited] below has the limit past
    which it raises instead. *)
Definition int (s : string) : Z := int_acc 0 s.

(** The interpreter refuses to convert a string of more than
    [sys.int_max_str_digits] characters (4300 unless it is configured
    otherwise; 0 for no limit), but never one of 640 characters or fewer. *)
Definition exceeds_limit (max_str_digits : nat) (s : string) : bool :=
  ((640 <? String.length s) && (0 <? max_str_digits)
   && (max_str_digits <? String.length s))%nat.

(** [int(s)] on a string of digits: [ValueError] past the limit. *)
Definition int_limited (max_str_digits : nat) (s : string) : result Z :=
  if exceeds_limit max_str_digits s
  then Raise (ValueError_int_max_str_digits (String.length s))
  else Ok (int s).

(** The text holds ASCII characters only. *)
Fixpoint is_ascii (s : string) : bool :=
  match s with
  | EmptyString => true
  | String c s' => (nat_of_ascii c <? 128)%nat && is_ascii s'
  end.

(** [x in xs] for a list of strings. *)
Definition mem (x : string) (xs : list string) : bool :=
  existsb (String.eqb x) xs.

(** [str(b)] for a [bool]. *)
Definition of_bool (b : bool) : string := if b then "True" else "False".

(** [str(n)] for an [int]. *)
Definition of_int (n : Z) : string := pretty n.

End Str.

(** ** Generic models *)

Module NodeType.

Inductive t : Type := REPEATER | ROOM_SERVER | COMPANION.

Definition value (self : t) : Z :=
  match self with
  | REPEATER => 1
  | ROOM_SERVER => 2
  | COMPANION => 3
  end.

Definition from_int (role : Z) : result t :=
  if role =? 1 then Ok REPEATER
  else if role =? 2 then Ok ROOM_SERVER
  else if role =? 3 then Ok COMPANION
  else Raise (ValueError_unknown_device_role role).

#[global] Instance eq_dec : EqDecision t.
Proof. solve_decision. Defined.

End NodeType.

Module LetsMeshNodeRole.

Inductive t : Type := COMPANION | REPEATER | ROOM.

Definition value (self : t) : Z :=
  match self with
  | COMPANION => 1
  | REPEATER => 2
  | ROOM => 3
  end.

#[global] Instance eq_dec : EqDecision t.
Proof. solve_decision. Defined.

Definition from_int (role : Z) : result t :=
  if role =? 1 then Ok COMPANION
  else if role =? 2 then Ok REPEATER
  else if role =? 3 then Ok ROOM
  else Raise (ValueError_unknown_device_role role).

(** The members, in the order of their definition. *)
Definition members : list t := [COMPANION; REPEATER; ROOM].

(** [LetsMeshNodeRole(v)], the lookup of a member by its value: [None] is
    the [ValueError] of a value that no member has. *)
Definition by_value (v : Z) : option t :=
  find (λ member, value member =? v) members.

Definition to_node_type (self : t) : result NodeType.t :=
  if decide (self = COMPANION) then Ok NodeType.COMPANION
  else if decide (self = REPEATER) then Ok NodeType.REPEATER
  else if decide (self = ROOM) then Ok NodeType.ROOM_SERVER
  else Raise (ValueError_unknown_device_role (value self)).

End LetsMeshNodeRole.

(** ** The [time] module, as far as [_iso8601_to_unix_timestamp] uses it *)

Module Time.

(** The fields of a [struct_time] that [mktime] reads.  [strptime] leaves
    [tm_isdst] at [-1]: the C library picks the offset of the local zone. *)
Record struct_time : Type := {
  tm_year : Z; tm_mon : Z; tm_mday : Z;
  tm_hour : Z; tm_min : Z; tm_sec : Z
}.

(** A format is a sequence of literal characters and [%x] directives. *)
Inductive item : Type := Lit (c : ascii) | Dir (d : ascii).

Fixpoint parse_format (fmt : string) : list item :=
  match fmt with
  | EmptyString => []
  | String "%" (String d fmt') => Dir d :: parse_format fmt'
  | String c fmt' => Lit c :: parse_format fmt'
  end.

(** The longest prefix of digits, and what follows it. *)
Fixpoint span_digits (s : string) : string * string :=
  match s with
  | String c s' =>
      if Str.is_digit c
      then let '(ds, rest) := span_digits s' in (String c ds, rest)
      else (EmptyString, s)
  | EmptyString => (EmptyString, EmptyString)
  end.

(** The groups of the regular expression that [_strptime] builds:
    [%Y] is [\d\d\d\d], [%m] is [1[0-2]|0[1-9]|[1-9]], [%d] is
    [3[0-1]|[1-2]\d|0[1-9]|[1-9]| [1-9]], [%H] is [2[0-3]|[0-1]\d|\d],
    [%M] is [[0-5]\d|\d], [%S] is [6[0-1]|[0-5]\d|\d] and [%f] is
    [[0-9]{1,6}].  Each group is described by the lengths and the values of
    the digit strings it accepts. *)
Record group : Type := {
  min_len : nat; max_len : nat; min_val : Z; max_val : Z
}.

Definition Group (lo hi : nat) (least greatest : Z) : group :=
  {| min_len := lo; max_len := hi; min_val := least; max_val := greatest |}.

Definition group_of (d : ascii) : option group :=
  if Ascii.eqb d "Y" then Some (Group 4 4 0 9999)
  else if Ascii.eqb d "m" then Some (Group 1 2 1 12)
  else if Ascii.eqb d "d" then Some (Group 1 2 1 31)
  else if Ascii.eqb d "H" then Some (Group 1 2 0 23)
  else if Ascii.eqb d "M" then Some (Group 1 2 0 59)
  else if Ascii.eqb d "S" then Some (Group 1 2 0 61)
  else if Ascii.eqb d "f" then Some (Group 1 6 0 999999)
  else None.

Definition in_group (g : group) (ds : string) : bool :=
  ((min_len g <=? String.length ds)%nat && (String.length ds <=? max_len g)%nat)
  && ((min_val g <=? Str.int ds) && (Str.int ds <=? max_val g)).

(** One numeric group in front of [s].  The format of this program puts a
    literal that is not a digit after every directive, so a match of the
    regular expression gives the group the whole run of digits; [%d] also
    accepts a space and one digit from 1 to 9. *)
Definition match_group (d : ascii) (s : string) : option (Z * string) :=
  g ← group_of d;
  let plain :=
    let '(ds, rest) := span_digits s in
    if in_group g ds then Some (Str.int ds, rest) else None in
  match s with
  | String " " s' =>
      if Ascii.eqb d "d" then
        let '(ds, rest) := span_digits s' in
        if (String.length ds =? 1)%nat && (1 <=? Str.int ds)
        then Some (Str.int ds, rest) else None
      else plain
  | _ => plain
  end.

Definition set_field (d : ascii) (v : Z) (t : struct_time) : struct_time :=
  let pick (c : ascii) (old : Z) : Z := if Ascii.eqb d c then v else old in
  {| tm_year := pick "Y"%char (tm_year t);
     tm_mon := pick "m"%char (tm_mon t);
     tm_mday := pick "d"%char (tm_mday t);
     tm_hour := pick "H"%char (tm_hour t);
     tm_min := pick "M"%char (tm_min t);
     tm_sec := pick "S"%char (tm_sec t) |}.

(** Matching is anchored at the start, ignores case in literals, and must
    use up the whole string ("unconverted data remains" otherwise). *)
Fixpoint match_items (items : list item) (s : string) (t : struct_time)
  : option struct_time :=
  match items with
  | [] => match s with EmptyString => Some t | _ => None end
  | Lit c :: items' =>
      match s with
      | String c' s' =>
          if Ascii.eqb (Str.upper_char c) (Str.upper_char c')
          then match_items items' s' t else None
      | EmptyString => None
      end
  | Dir d :: items' =>
      '(v, rest) ← match_group d s;
      match_items items' rest (set_field d v t)
  end.

Definition is_leap (y : Z) : bool :=
  ((y mod 4 =? 0) && negb (y mod 100 =? 0)) || (y mod 400 =? 0).

Definition days_in_month (y m : Z) : Z :=
  if m =? 2 then (if is_leap y then 29 else 28)
  else if (m =? 4) || (m =? 6) || (m =? 9) || (m =? 11) then 30
  else 31.

(** [time.strptime(data_string, format)]; [None] is the [ValueError] it
    raises.  Fields without a directive default to 1900-01-01 00:00:00, and
    the date must exist ([datetime.date] rejects year 0 and a day past the
    end of the month). *)
Definition strptime (data_string format : string) : option struct_time :=
  t ← match_items (parse_format format) data_string
        {| tm_year := 1900; tm_mon := 1; tm_mday := 1;
           tm_hour := 0; tm_min := 0; tm_sec := 0 |};
  if (1 <=? tm_year t) && (tm_mday t <=? days_in_month (tm_year t) (tm_mon t))
  then Some t else None.

(** Days from 1970-01-01 to the given date of the proleptic Gregorian
    calendar. *)
Definition days_from_civil (y m d : Z) : Z :=
  let y' := if m <=? 2 then y - 1 else y in
  let era := y' / 400 in
  let yoe := y' - era * 400 in
  let mp := if 2 <? m then m - 3 else m + 9 in
  let doy := (153 * mp + 2) / 5 + d - 1 in
  let doe := yoe * 365 + yoe / 4 - yoe / 100 + doy in
  era * 146097 + doe - 719468.

(** Seconds from the epoch to the broken-down time read as UTC
    ([calendar.timegm]). *)
Definition timegm (t : struct_time) : Z :=
  days_from_civil (tm_year t) (tm_mon t) (tm_mday t) * 86400
  + tm_hour t * 3600 + tm_min t * 60 + tm_sec t.

(** [int(time.mktime(t))]: the broken-down time is read as LOCAL time.
    [utcoffset w] is the offset of the local zone from UTC, in seconds east,
    that is in force at wall-clock time [w]. *)
Definition mktime (utcoffset : Z → Z) (t : struct_time) : Z :=
  timegm t - utcoffset (timegm t).

End Time.

(** ** The program *)

Section SyncData.

(** Python's [float] and the text that an f-string gives it ([repr]). *)
Variable float : Type.
Variable float_repr : float → string.

(** The built-in [hash] on [str]. *)
Variable str_hash : string → Z.

(** [urllib.parse.quote]. *)
Variable quote : string → string.

(** The offset from UTC of the zone the process runs in (see
    [Time.mktime]). *)
Variable local_utcoffset : Z → Z.

(** JSON documents, as far as [Node.to_json] produces them. *)
Inductive json_value : Type :=
  | JNull
  | JBool (b : bool)
  | JInt (n : Z)
  | JFloat (x : float)
  | JStr (s : string).

(** A Python [dict] with string keys, in insertion order. *)
Definition json_object : Type := list (string * json_value).

(** [json.dumps(objs, ensure_ascii=False, indent=2)] on a list of objects. *)
Variable json_dumps : list json_object → string.

(** [json.load(f)] on the text of a file. *)
Variable json_load : string → result (list json_object).

(** *** Generic models *)

Record Node : Type := {
  public_key : string;
  name : string;
  latitude : option float;
  longitude : option float;
  node_type : NodeType.t;
  is_observer : bool;
  contact : option string;
  created_at : Z;
  last_heard : Z
}.

(** The constructor [Node] applied to the keyword arguments of an item:
    the validation pydantic runs on them. *)
Variable Node_init : json_object → result Node.

Definition Node_public_key_id_4_char (self : Node) : string :=
  Str.upper (Str.take 4 (public_key self)).

Definition Node_public_key_id_2_char (self : Node) : string :=
  Str.upper (Str.take 2 (public_key self)).

Definition Node_public_key_id (self : Node) : string :=
  Node_public_key_id_4_char self.

(** [f"{x}"] for an [Optional[float]]. *)
Definition format_optional_float (x : option float) : string :=
  match x with
  | None => "None"
  | Some v => float_repr v
  end.

(** The string [_input] that [Node.hash] builds. *)
Definition Node_hash_input (self : Node) : string :=
  name self +:+ ":" +:+ Node_public_key_id self +:+ ":"
  +:+ Str.of_int (NodeType.value (node_type self)) +:+ ":"
  +:+ format_optional_float (latitude self) +:+ ":"
  +:+ format_optional_float (longitude self) +:+ ":"
  +:+ Str.of_bool (is_observer self).

Definition Node_hash (self : Node) : Z :=
  str_hash (Node_hash_input self).

Definition json_of_optional_float (x : option float) : json_value :=
  match x with
  | None => JNull
  | Some v => JFloat v
  end.

Definition json_of_optional_str (x : option string) : json_value :=
  match x with
  | None => JNull
  | Some s => JStr s
  end.

Definition Node_to_json (self : Node) : json_object :=
  [ ("public_key", JStr (public_key self));
    ("name", JStr (name self));
    ("latitude", json_of_optional_float (latitude self));
    ("longitude", json_of_optional_float (longitude self));
    ("node_type", JInt (NodeType.value (node_type self)));
    ("is_observer", JBool (is_observer self));
    ("contact", json_of_optional_str (contact self));
    ("created_at", JInt (created_at self));
    ("last_heard", JInt (last_heard self)) ].

(** *** MeshMapper-specific models *)

Record MeshMapperRepeater : Type := {
  mm_id : string;
  mm_hex_id : string;
  mm_name : string;
  mm_lat : float;
  mm_lon : float;
  mm_last_heard : Z;
  mm_created_at : string;
  mm_enabled : Z;
  mm_power : string;
  mm_iata : string
}.

(** *** LetsMesh-specific models *)

Record LetsMeshNodeLocation : Type := {
  loc_latitude : float;
  loc_longitude : float
}.

Record LetsMeshNode : Type := {
  lm_public_key : string;
  lm_name : string;
  lm_device_role : LetsMeshNodeRole.t;
  lm_regions : list string;
  lm_first_seen : string;
  lm_last_seen : string;
  lm_is_mqtt_connected : bool;
  lm_location : option LetsMeshNodeLocation
}.

(** *** Normalisation *)

(** The loop returns at the first LetsMesh node whose key matches. *)
Fixpoint _meshmapper_node_is_room
    (node : MeshMapperRepeater) (letsmesh_nodes : list LetsMeshNode) : bool :=
  match letsmesh_nodes with
  | [] => false
  | lm_node :: rest =>
      if String.eqb (Str.upper (lm_public_key lm_node)) (Str.upper (mm_hex_id node))
      then bool_decide (lm_device_role lm_node = LetsMeshNodeRole.ROOM)
      else _meshmapper_node_is_room node rest
  end.

Definition _build_contact_url (name public_key : string) : string :=
  "meshcore://contact/add?name=" +:+ quote name
  +:+ "&public_key=" +:+ Str.upper public_key +:+ "&type=2".

Definition _iso8601_to_unix_timestamp (iso_str : string) : Z :=
  if negb (Str.truthy iso_str) then 0
  else
    match Time.strptime iso_str "%Y-%m-%dT%H:%M:%S.%fZ" with
    | Some dt => Time.mktime local_utcoffset dt
    | None => 0
    end.

(** [bool(xs)] for a list. *)
Definition list_truthy {A} (xs : list A) : bool :=
  match xs with
  | [] => false
  | _ :: _ => true
  end.

(** The two lists are what [_get_meshmapper_repeaters] and
    [_get_letsmesh_nodes] fetched.  The list is the one the comprehension
    builds when [int] converts every creation time that is a text of digits;
    [get_den_repeaters_checked] below has the [ValueError] of a text that is
    too long. *)
Definition get_den_repeaters
    (meshmapper_repeaters : list MeshMapperRepeater)
    (letsmesh_nodes : list LetsMeshNode) : list Node :=
  (λ repeater,
    {| public_key := mm_hex_id repeater;
       name := mm_name repeater;
       latitude := Some (mm_lat repeater);
       longitude := Some (mm_lon repeater);
       node_type :=
         if _meshmapper_node_is_room repeater letsmesh_nodes
            && list_truthy letsmesh_nodes
         then NodeType.ROOM_SERVER else NodeType.REPEATER;
       is_observer := false;
       contact := Some (_build_contact_url (mm_name repeater) (mm_hex_id repeater));
       created_at :=
         if Str.isdigit (mm_created_at repeater)
         then Str.int (mm_created_at repeater) else 0;
       last_heard := mm_last_heard repeater |})
  <$> meshmapper_repeaters.

Definition get_den_companions (letsmesh_nodes : list LetsMeshNode)
  : result (list Node) :=
  mapM (λ node,
    ty ← LetsMeshNodeRole.to_node_type (lm_device_role node);
    Ok {| public_key := lm_public_key node;
          name := lm_name node;
          latitude := loc_latitude <$> lm_location node;
          longitude := loc_longitude <$> lm_location node;
          node_type := ty;
          is_observer := negb (lm_is_mqtt_connected node);
          contact := Some (_build_contact_url (lm_name node) (lm_public_key node));
          created_at := _iso8601_to_unix_timestamp (lm_first_seen node);
          last_heard := _iso8601_to_unix_timestamp (lm_last_seen node) |})
    (filter (λ node, lm_device_role node = LetsMeshNodeRole.COMPANION) letsmesh_nodes).

Definition is_reserved_public_key_id (public_key_id : string) : bool :=
  if Str.mem (Str.upper (Str.take 2 public_key_id)) ["00"; "FF"] then true
  else if Str.mem (Str.upper (Str.take 1 public_key_id)) ["A"] then true
  else false.

Definition are_same_node (node_1 node_2 : Node) : bool :=
  if String.eqb (Str.upper (public_key node_1)) (Str.upper (public_key node_2))
  then true else false.

(** *** Snapshot store *)

(** The file system is a [gmap string string]: the text of every file
    that exists, by path. *)

Definition _read_nodes_from_file (fs : gmap string string) (file_path : string)
  : result (list Node) :=
  match fs !! file_path with
  | None => Ok []
  | Some text =>
      _data ← json_load text;
      mapM Node_init _data
  end.

(** *** Reconciliation *)

(** The body shared by the two loops: record the hash of every node and
    store the node itself in the combined map. *)
Definition index_nodes
    (acc : gmap Z Z * gmap Z Node) (nodes : list Node) : gmap Z Z * gmap Z Node :=
  foldl (λ '(node_hash_map, all_nodes) node,
           let _hash := Node_hash node in
           (<[_hash := _hash]> node_hash_map, <[_hash := node]> all_nodes))
        acc nodes.

(** [all_nodes[_hash]], which raises [KeyError] on a key that is absent. *)
Definition getitem (all_nodes : gmap Z Node) (_hash : Z) : result Node :=
  match all_nodes !! _hash with
  | Some node => Ok node
  | None => Raise (KeyError _hash)
  end.

(** [list(all_nodes[_hash] for _hash, _ in s)] *)
Definition lookup_all (all_nodes : gmap Z Node) (s : gset (Z * Z))
  : result (list Node) :=
  mapM (λ '(_hash, _), getitem all_nodes _hash) (elements s).

Definition _filter_diff_nodes (existing_nodes new_nodes : list Node)
  : result (list Node * list Node * list Node) :=
  let '(existing_node_hash_map, all_nodes) := index_nodes (∅, ∅) existing_nodes in
  let '(new_node_hash_map, all_nodes) := index_nodes (∅, all_nodes) new_nodes in
  let existing_nodes_set : gset (Z * Z) := list_to_set (map_to_list existing_node_hash_map) in
  let new_nodes_set : gset (Z * Z) := list_to_set (map_to_list new_node_hash_map) in
  let true_new_nodes := new_nodes_set ∖ existing_nodes_set in
  let duplicate_nodes := new_nodes_set ∩ existing_nodes_set in
  let missing_nodes := existing_nodes_set ∖ new_nodes_set in
  new ← lookup_all all_nodes true_new_nodes;
  duplicate ← lookup_all all_nodes duplicate_nodes;
  missing ← lookup_all all_nodes missing_nodes;
  Ok (new, duplicate, missing).

(** *** Synchronisation *)

(** What both [sync_repeaters] and [sync_companions] do once the observed
    nodes are known. *)
Definition sync_nodes (storage_file_path : string) (nodes : list Node)
    (fs : gmap string string) : result (gmap string string) :=
  existing ← _read_nodes_from_file fs storage_file_path;
  '(new, duplicate, missing) ← _filter_diff_nodes existing nodes;
  if list_truthy new || list_truthy missing
  then Ok (<[storage_file_path := json_dumps (Node_to_json <$> nodes)]> fs)
  else Ok fs.

Definition sync_repeaters (storage_file_path : string)
    (meshmapper_repeaters : list MeshMapperRepeater)
    (letsmesh_nodes : list LetsMeshNode)
    (fs : gmap string string) : result (gmap string string) :=
  let repeaters := get_den_repeaters meshmapper_repeaters letsmesh_nodes in
  existing_repeaters ← _read_nodes_from_file fs storage_file_path;
  '(new, duplicate, missing) ← _filter_diff_nodes existing_repeaters repeaters;
  if list_truthy new || list_truthy missing
  then Ok (<[storage_file_path := json_dumps (Node_to_json <$> repeaters)]> fs)
  else Ok fs.

Definition sync_companions (storage_file_path : string)
    (letsmesh_nodes : list LetsMeshNode)
    (fs : gmap string string) : result (gmap string string) :=
  companions ← get_den_companions letsmesh_nodes;
  existing_companions ← _read_nodes_from_file fs storage_file_path;
  '(new, duplicate, missing) ← _filter_diff_nodes existing_companions companions;
  if list_truthy new || list_truthy missing
  then Ok (<[storage_file_path := json_dumps (Node_to_json <$> companions)]> fs)
  else Ok fs.

(** [main]: the repeaters first, then the companions.  The second fetch of
    the LetsMesh nodes is an input of its own. *)
Definition main (repeater_data_file companion_data_file : string)
    (meshmapper_repeaters : list MeshMapperRepeater)
    (letsmesh_nodes_1 letsmesh_nodes_2 : list LetsMeshNode)
    (fs : gmap string string) : result (gmap string string) :=
  fs ← sync_repeaters repeater_data_file meshmapper_repeaters letsmesh_nodes_1 fs;
  sync_companions companion_data_file letsmesh_nodes_2 fs.

End SyncData.

Arguments public_key {float} _.
Arguments name {float} _.
Arguments latitude {float} _.
Arguments longitude {float} _.
Arguments node_type {float} _.
Arguments is_observer {float} _.
Arguments contact {float} _.
Arguments created_at {float} _.
Arguments last_heard {float} _.
Arguments mm_hex_id {float} _.
Arguments mm_name {float} _.
Arguments mm_lat {float} _.
Arguments mm_lon {float} _.
Arguments mm_last_heard {float} _.
Arguments mm_created_at {float} _.
Arguments lm_public_key {float} _.
Arguments lm_name {float} _.
Arguments lm_device_role {float} _.
Arguments lm_regions {float} _.
Arguments lm_first_seen {float} _.
Arguments lm_last_seen {float} _.
Arguments lm_is_mqtt_connected {float} _.
Arguments lm_location {float} _.
Arguments JNull {float}.
Arguments JBool {float} b.
Arguments JInt {float} n.
Arguments JStr {float} s.
Arguments JFloat {float} x.
Arguments Node_public_key_id {float} self.
Arguments Node_public_key_id_4_char {float} self.
Arguments Node_public_key_id_2_char {float} self.
Arguments format_optional_float {float} float_repr x.
Arguments Node_hash_input {float} float_repr self.
Arguments Node_hash {float} float_repr str_hash self.
Arguments Node_to_json {float} self.
Arguments _meshmapper_node_is_room {float} node letsmesh_nodes.
Arguments get_den_repeaters {float} quote meshmapper_repeaters letsmesh_nodes.
Arguments get_den_companions {float} quote local_utcoffset letsmesh_nodes.
Arguments are_same_node {float} node_1 node_2.
Arguments _read_nodes_from_file {float} json_load Node_init fs file_path.
Arguments index_nodes {float} float_repr str_hash acc nodes.
Arguments getitem {float} all_nodes _hash.
Arguments lookup_all {float} all_nodes s.
Arguments _filter_diff_nodes {float} float_repr str_hash existing_nodes new_nodes.
Arguments sync_nodes {float} float_repr str_hash json_dumps json_load Node_init
  storage_file_path nodes fs.
Arguments sync_repeaters {float} float_repr str_hash quote json_dumps json_load Node_init
  storage_file_path meshmapper_repeaters letsmesh_nodes fs.
Arguments sync_companions {float} float_repr str_hash quote local_utcoffset
  json_dumps json_load Node_init storage_file_path letsmesh_nodes fs.
Arguments main {float} float_repr str_hash quote local_utcoffset
  json_dumps json_load Node_init repeater_data_file companion_data_file
  meshmapper_repeaters letsmesh_nodes_1 letsmesh_nodes_2 fs.

(** ** The program, from what the providers answer

    [_get_letsmesh_nodes] hands every item of the answer to the model
    [LetsMeshNode]; its field [device_role] is declared as a
    [LetsMeshNodeRole], so an item whose role is the value of no member is
    refused with a [ValidationError], which nothing in the program catches.
    The functions below run the normalisers and the synchronisation from
    the items as they arrive, with the roles still integers, and with
    [int] bounded as the interpreter bounds it. *)

Section Answers.

Context {float : Type} (float_repr : float → string) (str_hash : string → Z)
  (quote : string → string) (local_utcoffset : Z → Z)
  (json_dumps : list (json_object float) → string)
  (json_load : string → result (list (json_object float)))
  (Node_init : json_object float → result (Node float)).

(** [sys.get_int_max_str_digits()] *)
Variable int_max_str_digits : nat.

(** An item of the list ["nodes"] of the LetsMesh answer, before it is
    validated. *)
Record LetsMeshItem : Type := {
  item_public_key : string;
  item_name : string;
  item_device_role : Z;
  item_regions : list string;
  item_first_seen : string;
  item_last_seen : string;
  item_is_mqtt_connected : bool;
  item_location : option (LetsMeshNodeLocation float)
}.

(** The validation of one item against [LetsMeshNode]. *)
Definition LetsMeshNode_validate (item : LetsMeshItem) : result (LetsMeshNode float) :=
  match LetsMeshNodeRole.by_value (item_device_role item) with
  | Some role =>
      Ok {| lm_public_key := item_public_key item;
            lm_name := item_name item;
            lm_device_role := role;
            lm_regions := item_regions item;
            lm_first_seen := item_first_seen item;
            lm_last_seen := item_last_seen item;
            lm_is_mqtt_connected := item_is_mqtt_connected item;
            lm_location := item_location item |}
  | None => Raise (ValidationError_device_role (item_device_role item))
  end.

Definition _get_letsmesh_nodes (answer : list LetsMeshItem)
  : result (list (LetsMeshNode float)) :=
  mapM LetsMeshNode_validate answer.

(** The list comprehension of [get_den_repeaters], with the [ValueError]
    of [int] on a text that is too long. *)
Definition get_den_repeaters_checked
    (meshmapper_repeaters : list (MeshMapperRepeater float))
    (letsmesh_nodes : list (LetsMeshNode float)) : result (list (Node float)) :=
  mapM (λ repeater,
    _created_at ← (if Str.isdigit (mm_created_at repeater)
                   then Str.int_limited int_max_str_digits (mm_created_at repeater)
                   else Ok 0);
    Ok {| public_key := mm_hex_id repeater;
          name := mm_name repeater;
          latitude := Some (mm_lat repeater);
          longitude := Some (mm_lon repeater);
          node_type :=
            if _meshmapper_node_is_room repeater letsmesh_nodes
               && list_truthy letsmesh_nodes
            then NodeType.ROOM_SERVER else NodeType.REPEATER;
          is_observer := false;
          contact := Some (_build_contact_url quote (mm_name repeater) (mm_hex_id repeater));
          created_at := _created_at;
          last_heard := mm_last_heard repeater |})
    meshmapper_repeaters.

(** [get_den_repeaters()]: the LetsMesh nodes are fetched and validated
    before the list is built. *)
Definition get_den_repeaters_of_answers
    (meshmapper_repeaters : list (MeshMapperRepeater float))
    (letsmesh_answer : list LetsMeshItem) : result (list (Node float)) :=
  letsmesh_nodes ← _get_letsmesh_nodes letsmesh_answer;
  get_den_repeaters_checked meshmapper_repeaters letsmesh_nodes.

(** [get_den_companions()] *)
Definition get_den_companions_of_answer (letsmesh_answer : list LetsMeshItem)
  : result (list (Node float)) :=
  letsmesh_nodes ← _get_letsmesh_nodes letsmesh_answer;
  get_den_companions quote local_utcoffset letsmesh_nodes.

(** [sync_repeaters(storage_file_path)] *)
Definition sync_repeaters_of_answers (storage_file_path : string)
    (meshmapper_repeaters : list (MeshMapperRepeater float))
    (letsmesh_answer : list LetsMeshItem)
    (fs : gmap string string) : result (gmap string string) :=
  repeaters ← get_den_repeaters_of_answers meshmapper_repeaters letsmesh_answer;
  sync_nodes float_repr str_hash json_dumps json_load Node_init
    storage_file_path repeaters fs.

(** [sync_companions(storage_file_path)] *)
Definition sync_companions_of_answer (storage_file_path : string)
    (letsmesh_answer : list LetsMeshItem)
    (fs : gmap string string) : result (gmap string string) :=
  companions ← get_den_companions_of_answer letsmesh_answer;
  sync_nodes float_repr str_hash json_dumps json_load Node_init
    storage_file_path companions fs.

(** [main]: LetsMesh is asked twice, once by each synchronisation. *)
Definition main_of_answers (repeater_data_file companion_data_file : string)
    (meshmapper_repeaters : list (MeshMapperRepeater float))
    (letsmesh_answer_1 letsmesh_answer_2 : list LetsMeshItem)
    (fs : gmap string string) : result (gmap string string) :=
  fs ← sync_repeaters_of_answers repeater_data_file meshmapper_repeaters
         letsmesh_answer_1 fs;
  sync_companions_of_answer companion_data_file letsmesh_answer_2 fs.

End Answers.

Arguments LetsMeshItem float : clear implicits.

(** ** The GPX exporter

    [src/MeshCore/planning/export_meshmapper_to_gpx_for_google_earth.py]:
    the repeaters that [_download_repeaters] fetched are an argument, and
    the file name that [argparse] reads is one too. *)

Module Gpx.

Definition GPX_CREATOR_NAME : string := "MeshMapper GPX Exporter".
Definition GPX_NAME : string := "MeshMapper Repeaters".
Definition GPX_VERSION : string := "1.1".

(** The double quote character of the f-strings. *)
Definition dquote : string := String (ascii_of_nat 34) EmptyString.

Section Exporter.

Variable float : Type.
Variable float_repr : float → string.

Record Repeater : Type := {
  id : string;
  hex_id : string;
  name : string;
  lat : float;
  lon : float;
  last_heard : Z;
  created_at : string;
  enabled : Z;
  power : string;
  iata : string;
  can_reach : option string
}.

Definition _generate_gpx_entry (repeater : Repeater) : string :=
  "<wpt lat=" +:+ dquote +:+ float_repr (lat repeater) +:+ dquote
  +:+ " lon=" +:+ dquote +:+ float_repr (lon repeater) +:+ dquote
  +:+ "><name>" +:+ name repeater
  +:+ "</name><desc>Power: " +:+ power repeater
  +:+ ", Last Heard: " +:+ Str.of_int (last_heard repeater)
  +:+ "</desc></wpt>".

(** The value [gpx] starts with, before the loop. *)
Definition gpx_header : string :=
  "<?xml version=" +:+ dquote +:+ "1.0" +:+ dquote
  +:+ " encoding=" +:+ dquote +:+ "UTF-8" +:+ dquote
  +:+ " standalone=" +:+ dquote +:+ "no" +:+ dquote
  +:+ "?><gpx version=" +:+ dquote +:+ GPX_VERSION +:+ dquote
  +:+ " creator=" +:+ dquote +:+ GPX_CREATOR_NAME +:+ dquote
  +:+ "><metadata><name>" +:+ GPX_NAME +:+ "</name></metadata>".

Definition _export_to_gpx (repeaters : list Repeater) : string :=
  let gpx := gpx_header in
  let gpx := foldl (λ gpx repeater, gpx +:+ _generate_gpx_entry repeater)
                   gpx repeaters in
  let gpx := gpx +:+ "</gpx>" in
  gpx.

(** [main]: the file is opened for writing and receives the document. *)
Definition main (filename : string) (repeaters : list Repeater)
    (fs : gmap string string) : gmap string string :=
  let gpx_content := _export_to_gpx repeaters in
  <[filename := gpx_content]> fs.

End Exporter.

Arguments id {float} _.
Arguments hex_id {float} _.
Arguments name {float} _.
Arguments lat {float} _.
Arguments lon {float} _.
Arguments last_heard {float} _.
Arguments power {float} _.
Arguments _generate_gpx_entry {float} float_repr repeater.
Arguments _export_to_gpx {float} float_repr repeaters.
Arguments main {float} float_repr filename repeaters fs.

End Gpx.

(** ** Vocabulary of the specification *)

Section Vocabulary.

Context {float : Type} (float_repr : float → string) (str_hash : string → Z).

(** The fingerprints of a list of nodes. *)
Definition fingerprints (nodes : list (Node float)) : list Z :=
  Node_hash float_repr str_hash <$> nodes.

(** The node a dictionary keyed by fingerprint ends up with after the
    nodes were stored in order: the last one with that fingerprint. *)
Definition last_with_hash (h : Z) (nodes : list (Node float)) : option (Node float) :=
  last (filter (λ n, Node_hash float_repr str_hash n = h) nodes).

(** Public keys are compared in upper case. *)
Definition same_public_key (a b : string) : Prop :=
  Str.upper a = Str.upper b.

(** The attributes a fingerprint is computed from, apart from the key. *)
Definition same_content (a b : Node float) : Prop :=
  name a = name b ∧ latitude a = latitude b ∧ longitude a = longitude b
  ∧ node_type a = node_type b.

End Vocabulary.

(** The f-string of a fingerprint can be taken apart again when the text
    of a float holds no colon, is never the text of [None], and tells floats
    apart. *)
Record repr_well_behaved {float : Type} (float_repr : float → string) : Prop := {
  repr_inj : ∀ x y, float_repr x = float_repr y → x = y;
  repr_no_colon : ∀ x, ":"%char ∉ list_ascii_of_string (float_repr x);
  repr_not_None : ∀ x, float_repr x ≠ "None"
}.

(** [n] is the only node of [l], if any, whose fingerprint is [h]. *)
Definition only_among {float : Type} (float_repr : float → string) (str_hash : string → Z)
    (n : Node float) (h : Z) (l : list (Node float)) : Prop :=
  ∀ x, x ∈ l → Node_hash float_repr str_hash x = h → x = n.

(** What the three lists of a reconciliation are, in terms of the two
    inputs: which fingerprints each holds, each of them once, and which node
    stands for a fingerprint. *)
Record reconciled {float : Type} (float_repr : float → string) (str_hash : string → Z)
    (existing observed new duplicate missing : list (Node float)) : Prop := {
  new_NoDup : NoDup (fingerprints float_repr str_hash new);
  duplicate_NoDup : NoDup (fingerprints float_repr str_hash duplicate);
  missing_NoDup : NoDup (fingerprints float_repr str_hash missing);
  new_fingerprints : ∀ h,
    h ∈ fingerprints float_repr str_hash new ↔
    h ∈ fingerprints float_repr str_hash observed
    ∧ h ∉ fingerprints float_repr str_hash existing;
  duplicate_fingerprints : ∀ h,
    h ∈ fingerprints float_repr str_hash duplicate ↔
    h ∈ fingerprints float_repr str_hash observed
    ∧ h ∈ fingerprints float_repr str_hash existing;
  missing_fingerprints : ∀ h,
    h ∈ fingerprints float_repr str_hash missing ↔
    h ∈ fingerprints float_repr str_hash existing
    ∧ h ∉ fingerprints float_repr str_hash observed;
  new_resolved : ∀ n,
    n ∈ new →
    last_with_hash float_repr str_hash (Node_hash float_repr str_hash n) observed
    = Some n;
  duplicate_resolved : ∀ n,
    n ∈ duplicate →
    last_with_hash float_repr str_hash (Node_hash float_repr str_hash n) observed
    = Some n;
  missing_resolved : ∀ n,
    n ∈ missing →
    last_with_hash float_repr str_hash (Node_hash float_repr str_hash n) existing
    = Some n
}.

#[global] Instance same_public_key_dec a b : Decision (same_public_key a b).
Proof. unfold same_public_key. apply _. Defined.

(** The first LetsMesh node with the public key [key], compared in upper case. *)
Definition first_same_key {float : Type} (key : string)
    (letsmesh_nodes : list (LetsMeshNode float)) : option (LetsMeshNode float) :=
  head (filter (λ x, same_public_key (lm_public_key x) key) letsmesh_nodes).

(** The keys of a serialised node, in the order [to_json] writes them. *)
Definition node_json_keys : list string :=
  ["public_key"; "name"; "latitude"; "longitude"; "node_type";
   "is_observer"; "contact"; "created_at"; "last_heard"].

(** The creation time of the repeater is a text of digits that [int]
    refuses to convert. *)
Definition refused {float : Type} (int_max_str_digits : nat)
    (r : MeshMapperRepeater float) : bool :=
  Str.isdigit (mm_created_at r)
  && Str.exceeds_limit int_max_str_digits (mm_created_at r).

(** The text of a timestamp with the given fields, in the layout of the
    format [%Y-%m-%dT%H:%M:%S.%fZ]. *)
Definition iso_text (year month day hour minute second fraction : string) : string :=
  year +:+ "-" +:+ month +:+ "-" +:+ day +:+ "T" +:+ hour +:+ ":" +:+ minute
  +:+ ":" +:+ second +:+ "." +:+ fraction +:+ "Z".

(** One or two characters. *)
Definition one_or_two (field : string) : bool :=
  ((1 <=? String.length field) && (String.length field <=? 2))%nat.

(** The digit fields that name a time of the calendar: a year of four
    digits from 0001 on, a month from 1 to 12, a day that the month of that
    year has, an hour up to 23, a minute up to 59, a second up to 61 (each
    of one or two digits), and a fraction of one to six digits. *)
Definition calendar_fields (year month day hour minute second fraction : string) : bool :=
  (String.length year =? 4)%nat && (1 <=? Str.int year)
  && one_or_two month && (1 <=? Str.int month) && (Str.int month <=? 12)
  && one_or_two day && (1 <=? Str.int day)
  && (Str.int day <=? Time.days_in_month (Str.int year) (Str.int month))
  && one_or_two hour && (Str.int hour <=? 23)
  && one_or_two minute && (Str.int minute <=? 59)
  && one_or_two second && (Str.int second <=? 61)
  && ((1 <=? String.length fraction) && (String.length fraction <=? 6))%nat.

(** The ranges every directive keeps its field in. *)
Definition fields_in_range (t : Time.struct_time) : Prop :=
  0 ≤ Time.tm_year t ≤ 9999 ∧ 1 ≤ Time.tm_mon t ≤ 12 ∧ 1 ≤ Time.tm_mday t ≤ 31
  ∧ 0 ≤ Time.tm_hour t ≤ 23 ∧ 0 ≤ Time.tm_min t ≤ 59 ∧ 0 ≤ Time.tm_sec t ≤ 61.

(** ** A concrete environment

    One instance of what the program takes from outside, used to run the
    definitions on examples. *)

Module Sample.

(** Four coordinates, and the text Python prints for each. *)
Inductive float : Type := lat_denver | lon_denver | lat_boulder | lon_boulder.

Definition float_repr (x : float) : string :=
  match x with
  | lat_denver => "39.7392"
  | lon_denver => "-104.9903"
  | lat_boulder => "40.015"
  | lon_boulder => "-105.2705"
  end.

(** A string hash in the style of FNV-1a on 64 bits. *)
Fixpoint fnv (h : Z) (s : string) : Z :=
  match s with
  | EmptyString => h
  | String c s' =>
      fnv ((Z.lxor h (Z.of_nat (nat_of_ascii c)) * 1099511628211) mod 2 ^ 64) s'
  end.

Definition str_hash (s : string) : Z := fnv 14695981039346656037 s.

(** [quote] leaves letters, digits and [_.-~/] alone; the names used below
    hold nothing else. *)
Definition quote (s : string) : string := s.

(** A process in UTC, and one in Denver in winter (MST, seven hours west). *)
Definition utc : Z → Z := λ _, 0.
Definition mst : Z → Z := λ _, -25200.

Definition dquote : string := String (ascii_of_nat 34) EmptyString.

Definition render_value (v : json_value float) : string :=
  match v with
  | JNull => "null"
  | JBool b => if b then "true" else "false"
  | JInt n => pretty n
  | JFloat x => float_repr x
  | JStr s => dquote +:+ s +:+ dquote
  end.

Fixpoint render_object (o : json_object float) : string :=
  match o with
  | [] => ""
  | [(k, v)] => dquote +:+ k +:+ dquote +:+ ": " +:+ render_value v
  | (k, v) :: o' =>
      dquote +:+ k +:+ dquote +:+ ": " +:+ render_value v +:+ ", " +:+ render_object o'
  end.

Fixpoint render_objects (os : list (json_object float)) : string :=
  match os with
  | [] => ""
  | [o] => "{" +:+ render_object o +:+ "}"
  | o :: os' => "{" +:+ render_object o +:+ "}, " +:+ render_objects os'
  end.

(** A serialiser on one line. *)
Definition json_dumps (os : list (json_object float)) : string :=
  "[" +:+ render_objects os +:+ "]".

(** A decoder that knows the documents of a table: it gives back the
    document whose serialisation is the text. *)
Definition json_load (known : list (list (json_object float))) (text : string)
  : result (list (json_object float)) :=
  match List.find (λ doc, String.eqb (json_dumps doc) text) known with
  | Some doc => Ok doc
  | None => Raise DecodeError
  end.

(** The validation of an item that has the nine fields in the order of
    [Node.to_json]. *)
Definition Node_init (item : json_object float) : result (Node float) :=
  match item with
  | [ (_, JStr pk); (_, JStr nm); (_, la); (_, lo); (_, JInt ty);
      (_, JBool obs); (_, ct); (_, JInt ca); (_, JInt lh) ] =>
      if negb (bool_decide (fst <$> item =
           ["public_key"; "name"; "latitude"; "longitude"; "node_type";
            "is_observer"; "contact"; "created_at"; "last_heard"]))
      then Raise DecodeError else
      ty' ← NodeType.from_int ty;
      la' ← match la with JNull => Ok None | JFloat x => Ok (Some x) | _ => Raise DecodeError end;
      lo' ← match lo with JNull => Ok None | JFloat x => Ok (Some x) | _ => Raise DecodeError end;
      ct' ← match ct with JNull => Ok None | JStr s => Ok (Some s) | _ => Raise DecodeError end;
      Ok {| public_key := pk; name := nm; latitude := la'; longitude := lo';
            node_type := ty'; is_observer := obs; contact := ct';
            created_at := ca; last_heard := lh |}
  | _ => Raise DecodeError
  end.

(** Nodes of a snapshot and of an observation.  [renamed_node] is
    [old_node] under another name and a key in lower case;
    [renamed_node_before] is an earlier sighting of [renamed_node]. *)
Definition old_node : Node float :=
  {| public_key := "AB12"; name := "Old Name";
     latitude := Some lat_denver; longitude := Some lon_denver;
     node_type := NodeType.REPEATER; is_observer := false;
     contact := None; created_at := 1700000000; last_heard := 1771370000 |}.

Definition renamed_node : Node float :=
  {| public_key := "ab12"; name := "New Name";
     latitude := Some lat_denver; longitude := Some lon_denver;
     node_type := NodeType.REPEATER; is_observer := false;
     contact := Some "meshcore://contact/add?name=New&public_key=AB12&type=2";
     created_at := 1700000000; last_heard := 1771377540 |}.

Definition renamed_node_before : Node float :=
  {| public_key := "ab12"; name := "New Name";
     latitude := Some lat_denver; longitude := Some lon_denver;
     node_type := NodeType.REPEATER; is_observer := false;
     contact := None; created_at := 0; last_heard := 1771370000 |}.

(** Provider records: a repeater of MeshMapper, heard at two times, and a
    room of LetsMesh whose key only begins with the identifier of the
    repeater. *)
Definition repeater_AB12 (heard : Z) : MeshMapperRepeater float :=
  {| mm_id := "17"; mm_hex_id := "AB12"; mm_name := "Lookout";
     mm_lat := lat_boulder; mm_lon := lon_boulder;
     mm_last_heard := heard; mm_created_at := "1700000000";
     mm_enabled := 1; mm_power := "high"; mm_iata := "DEN" |}.

Definition room_AB12CDEF : LetsMeshNode float :=
  {| lm_public_key := "AB12CDEF"; lm_name := "Lookout Room";
     lm_device_role := LetsMeshNodeRole.ROOM; lm_regions := ["DEN"];
     lm_first_seen := "2026-02-18T01:19:00.379Z";
     lm_last_seen := "2026-02-18T01:19:00.379Z";
     lm_is_mqtt_connected := true; lm_location := None |}.

(** The snapshot file of the repeaters after a run that heard the repeater
    at [heard]. *)
Definition snapshot_text (heard : Z) : string :=
  json_dumps (Node_to_json <$> get_den_repeaters quote [repeater_AB12 heard] []).

Definition snapshot_documents : list (list (json_object float)) :=
  [ Node_to_json <$> get_den_repeaters quote [repeater_AB12 1771370000] [];
    Node_to_json <$> [old_node] ].

End Sample.

(** ** More sample data *)

Module Fixtures.

(** One device seen twice: the keys agree on the first four characters
    up to letter case, and the contact and the timestamps moved. *)
Definition long_key_node : Node Sample.float :=
  {| public_key := "AB12CDEF0011"; name := "Summit";
     latitude := Some Sample.lat_boulder; longitude := Some Sample.lon_boulder;
     node_type := NodeType.ROOM_SERVER; is_observer := true;
     contact := None; created_at := 1700000000; last_heard := 1771370000 |}.

Definition other_key_node : Node Sample.float :=
  {| public_key := "ab12ffff9922"; name := "Summit";
     latitude := Some Sample.lat_boulder; longitude := Some Sample.lon_boulder;
     node_type := NodeType.ROOM_SERVER; is_observer := true;
     contact := Some "meshcore://contact/add?name=Summit&public_key=AB12FFFF9922&type=2";
     created_at := 0; last_heard := 1771377540 |}.

(** A companion of LetsMesh. *)
Definition companion_C0FFEE : LetsMeshNode Sample.float :=
  {| lm_public_key := "c0ffee42"; lm_name := "Pocket";
     lm_device_role := LetsMeshNodeRole.COMPANION; lm_regions := ["DEN"];
     lm_first_seen := "2026-02-18T01:19:00.379Z";
     lm_last_seen := "2026-02-19T08:00:30.5Z";
     lm_is_mqtt_connected := false; lm_location := None |}.

(** The nodes that normalising the companion in UTC gives. *)
Definition companion_nodes : list (Node Sample.float) :=
  match get_den_companions Sample.quote Sample.utc [companion_C0FFEE] with
  | Ok ns => ns
  | Raise _ => []
  end.

(** The two data files after a first run of [main]. *)
Definition after_first_run : gmap string string :=
  <[ "companions.json" := Sample.json_dumps (Node_to_json <$> companion_nodes) ]>
    (<[ "repeaters.json" := Sample.snapshot_text 1771370000 ]> ∅).

(** The companion as LetsMesh sends it, and an item with a role that no
    member of [LetsMeshNodeRole] has. *)
Definition item_C0FFEE : LetsMeshItem Sample.float :=
  {| item_public_key := "c0ffee42"; item_name := "Pocket";
     item_device_role := 1; item_regions := ["DEN"];
     item_first_seen := "2026-02-18T01:19:00.379Z";
     item_last_seen := "2026-02-19T08:00:30.5Z";
     item_is_mqtt_connected := false; item_location := None |}.

Definition item_role_7 : LetsMeshItem Sample.float :=
  {| item_public_key := "d00d0007"; item_name := "Sensor";
     item_device_role := 7; item_regions := ["DEN"];
     item_first_seen := "2026-02-18T01:19:00.379Z";
     item_last_seen := "2026-02-19T08:00:30.5Z";
     item_is_mqtt_connected := true; item_location := None |}.

(** A text of [n] zeros, and a repeater whose creation time is 4301 of
    them. *)
Fixpoint zeros (n : nat) : string :=
  match n with
  | O => EmptyString
  | S n' => String "0" (zeros n')
  end.

Definition repeater_long_created_at : MeshMapperRepeater Sample.float :=
  {| mm_id := "18"; mm_hex_id := "CD34"; mm_name := "Ridge";
     mm_lat := Sample.lat_boulder; mm_lon := Sample.lon_boulder;
     mm_last_heard := 1771370000; mm_created_at := zeros 4301;
     mm_enabled := 1; mm_power := "high"; mm_iata := "DEN" |}.

End Fixtures.

(** ** Properties *)

(** *** Strings as lists of characters *)

(** A character that differs from every one of a given text. *)
Ltac absent_char :=
  let Hin := fresh "Hin" in
  intros Hin;
  repeat (apply elem_of_cons in Hin as [Hin|Hin]; [discriminate Hin |]);
  by apply not_elem_of_nil in Hin.

Lemma chars_app (a b : string) :
  list_ascii_of_string (a +:+ b) = list_ascii_of_string a ++ list_ascii_of_string b.
Proof. induction a as [|c a IH]; simpl; [done | by rewrite IH]. Qed.

Lemma chars_inj (a b : string) :
  list_ascii_of_string a = list_ascii_of_string b → a = b.
Proof.
  intros Heq. rewrite <- (string_of_list_ascii_of_string a),
    <- (string_of_list_ascii_of_string b). by rewrite Heq.
Qed.

(** A text is cut at its last colon in one way only. *)
Lemma split_last_colon (a a' b b' : list ascii) :
  ":"%char ∉ b → ":"%char ∉ b' →
  a ++ ":"%char :: b = a' ++ ":"%char :: b' → a = a' ∧ b = b'.
Proof.
  intros Hb Hb'. revert a'. induction a as [|c a IH]; intros [|c' a'] Heq; cbn in Heq.
  - by injection Heq as ->.
  - injection Heq as <- ->. exfalso. apply Hb.
    apply elem_of_app. right. left.
  - injection Heq as -> <-. exfalso. apply Hb'.
    apply elem_of_app. right. left.
  - injection Heq as -> Heq. destruct (IH a' Heq) as [-> ->]. done.
Qed.

Lemma fields_inj (n1 n2 k t1 t2 la1 la2 lo1 lo2 ob1 ob2 : list ascii) :
  ":"%char ∉ t1 → ":"%char ∉ t2 → ":"%char ∉ la1 → ":"%char ∉ la2 →
  ":"%char ∉ lo1 → ":"%char ∉ lo2 → ":"%char ∉ ob1 → ":"%char ∉ ob2 →
  n1 ++ [":"%char] ++ k ++ [":"%char] ++ t1 ++ [":"%char] ++ la1
     ++ [":"%char] ++ lo1 ++ [":"%char] ++ ob1
  = n2 ++ [":"%char] ++ k ++ [":"%char] ++ t2 ++ [":"%char] ++ la2
     ++ [":"%char] ++ lo2 ++ [":"%char] ++ ob2 →
  n1 = n2 ∧ t1 = t2 ∧ la1 = la2 ∧ lo1 = lo2 ∧ ob1 = ob2.
Proof.
  intros Ht1 Ht2 Hla1 Hla2 Hlo1 Hlo2 Hob1 Hob2 Heq.
  assert ((n1 ++ ":"%char :: k ++ ":"%char :: t1 ++ ":"%char :: la1 ++ ":"%char :: lo1)
            ++ ":"%char :: ob1
          = (n2 ++ ":"%char :: k ++ ":"%char :: t2 ++ ":"%char :: la2 ++ ":"%char :: lo2)
            ++ ":"%char :: ob2) as H5.
  { repeat (rewrite <- app_assoc || rewrite <- app_comm_cons). exact Heq. }
  apply split_last_colon in H5 as [H4 ->]; [| done | done].
  assert ((n1 ++ ":"%char :: k ++ ":"%char :: t1 ++ ":"%char :: la1) ++ ":"%char :: lo1
          = (n2 ++ ":"%char :: k ++ ":"%char :: t2 ++ ":"%char :: la2) ++ ":"%char :: lo2)
    as H4'.
  { repeat (rewrite <- app_assoc || rewrite <- app_comm_cons). exact H4. }
  apply split_last_colon in H4' as [H3 ->]; [| done | done].
  assert ((n1 ++ ":"%char :: k ++ ":"%char :: t1) ++ ":"%char :: la1
          = (n2 ++ ":"%char :: k ++ ":"%char :: t2) ++ ":"%char :: la2) as H3'.
  { repeat (rewrite <- app_assoc || rewrite <- app_comm_cons). exact H3. }
  apply split_last_colon in H3' as [H2 ->]; [| done | done].
  assert ((n1 ++ ":"%char :: k) ++ ":"%char :: t1
          = (n2 ++ ":"%char :: k) ++ ":"%char :: t2) as H2'.
  { repeat (rewrite <- app_assoc || rewrite <- app_comm_cons). exact H2. }
  apply split_last_colon in H2' as [H1 ->]; [| done | done].
  assert (n1 ++ (":"%char :: k) = n2 ++ (":"%char :: k)) as H1' by exact H1.
  apply app_inv_tail in H1'. by subst.
Qed.

Lemma upper_take n s : Str.upper (Str.take n s) = Str.take n (Str.upper s).
Proof.
  revert s. induction n as [|n IH]; intros [|c s]; cbn; try done. by rewrite IH.
Qed.

(** *** The result monad *)

Lemma mapM_result_Forall2 {A B} (f : A → result B) (P : A → B → Prop) (l : list A) :
  (∀ x, x ∈ l → ∃ y, f x = Ok y ∧ P x y) →
  ∃ ys, mapM f l = Ok ys ∧ Forall2 P l ys.
Proof.
  induction l as [|x l IH]; intros Hf.
  - exists []. split; [reflexivity | constructor].
  - destruct (Hf x) as (y & Hy & HP); [left |].
    destruct IH as (ys & Hys & HF).
    { intros z Hz. apply Hf. by right. }
    exists (y :: ys). split; [| by constructor].
    cbn. rewrite Hy. cbn. rewrite Hys. reflexivity.
Qed.

(** Mapping raises the exception of the first element that is refused. *)
Lemma mapM_result_first_Raise {A B} (f : A → result B) (pre : list A) x rest e :
  (∀ y, y ∈ pre → ∃ b, f y = Ok b) →
  f x = Raise e →
  mapM f (pre ++ x :: rest) = Raise e.
Proof.
  induction pre as [|y pre IH]; intros Hpre Hx; cbn.
  - by rewrite Hx.
  - destruct (Hpre y) as [b Hb]; [left |]. rewrite Hb. cbn.
    rewrite IH; [done | | done]. intros z Hz. apply Hpre. by right.
Qed.

(** An element that is refused makes the mapping raise. *)
Lemma mapM_result_some_Raise {A B} (f : A → result B) (l : list A) x :
  x ∈ l → (∃ e, f x = Raise e) →
  ∃ y e, y ∈ l ∧ f y = Raise e ∧ mapM f l = Raise e.
Proof.
  induction l as [|z l IH]; intros Hx Hbad.
  - by apply not_elem_of_nil in Hx.
  - destruct (f z) as [b|e] eqn:Hz.
    + apply elem_of_cons in Hx as [->|Hx].
      { destruct Hbad as [e He]. congruence. }
      destruct (IH Hx Hbad) as (y & e & Hy & Hfy & Hrun).
      exists y, e. split; [by right |]. split; [done |].
      cbn. rewrite Hz. cbn. by rewrite Hrun.
    + exists z, e. split; [left |]. split; [done |]. cbn. by rewrite Hz.
Qed.

(** A function that never raises maps the whole list. *)
Lemma mapM_result_Ok_fmap {A B} (f : A → result B) (g : A → B) (l : list A) :
  (∀ x, x ∈ l → f x = Ok (g x)) → mapM f l = Ok (g <$> l).
Proof.
  induction l as [|x l IH]; intros Hf; [done |].
  cbn. rewrite Hf by left. cbn. rewrite IH; [done |].
  intros y Hy. apply Hf. by right.
Qed.

Section Reconciliation.

Context {float : Type} (float_repr : float → string) (str_hash : string → Z).

Local Abbreviation fp := (Node_hash float_repr str_hash).
Local Abbreviation fps := (fingerprints float_repr str_hash).
Local Abbreviation lwh := (last_with_hash float_repr str_hash).
Local Abbreviation reconcile := (_filter_diff_nodes float_repr str_hash).

Implicit Types (n : Node float) (l : list (Node float)) (h : Z).

Lemma last_with_hash_cons h n l :
  lwh h (n :: l) =
    match lwh h l with
    | Some m => Some m
    | None => if decide (fp n = h) then Some n else None
    end.
Proof.
  unfold last_with_hash. rewrite filter_cons.
  destruct (decide (fp n = h)); [| by destruct (last _)].
  by rewrite last_cons.
Qed.

Lemma last_with_hash_Some h n l :
  lwh h l = Some n → fp n = h ∧ n ∈ l.
Proof.
  unfold last_with_hash. intros Hl.
  apply last_Some_elem_of in Hl.
  apply list_elem_of_filter in Hl. tauto.
Qed.

Lemma last_with_hash_None h l :
  lwh h l = None ↔ h ∉ fps l.
Proof.
  unfold last_with_hash, fingerprints. rewrite last_None. split.
  - intros Hnil Hin. apply list_elem_of_fmap in Hin as (n & -> & Hn).
    assert (n ∈ filter (λ m, fp m = fp n) l) as Hf by (by apply list_elem_of_filter).
    rewrite Hnil in Hf. by apply not_elem_of_nil in Hf.
  - intros Hnot. destruct (filter _ l) as [|m k] eqn:E; [done |].
    assert (m ∈ filter (λ n, fp n = h) l) as Hm by (rewrite E; left).
    apply list_elem_of_filter in Hm as [<- Hm]. exfalso. apply Hnot.
    apply list_elem_of_fmap. eauto.
Qed.

Lemma last_with_hash_is_Some h l :
  h ∈ fps l ↔ ∃ n, lwh h l = Some n.
Proof.
  destruct (lwh h l) as [n|] eqn:E.
  - split; [eauto |]. intros _.
    apply last_with_hash_Some in E as [<- Hn].
    apply list_elem_of_fmap. eauto.
  - apply last_with_hash_None in E. split; [done |]. by intros [? ?].
Qed.

(** What the two loops leave in the maps. *)
Lemma index_nodes_spec l (hm : gmap Z Z) (an : gmap Z (Node float)) :
  ∀ hm' an', index_nodes float_repr str_hash (hm, an) l = (hm', an') →
  (∀ h, hm' !! h = if decide (h ∈ fps l) then Some h else hm !! h)
  ∧ (∀ h, an' !! h = match lwh h l with Some n => Some n | None => an !! h end).
Proof.
  revert hm an. induction l as [|n l IH]; intros hm an hm' an' Hrun.
  - cbn in Hrun. injection Hrun as <- <-. split; intros h.
    + destruct (decide _) as [Hin|]; [| done]. by apply not_elem_of_nil in Hin.
    + reflexivity.
  - cbn in Hrun. apply IH in Hrun as [Hhm Han]. split; intros h.
    + rewrite Hhm. change (fps (n :: l)) with (fp n :: fps l).
      destruct (decide (h ∈ fps l)) as [Hin|Hnin].
      * rewrite decide_True; [done | by right].
      * destruct (decide (fp n = h)) as [<-|Hne].
        -- rewrite lookup_insert_eq. rewrite decide_True; [done | by left].
        -- rewrite lookup_insert_ne by done.
           rewrite decide_False; [done |].
           intros Hin. apply elem_of_cons in Hin as [->|Hin]; [by apply Hne | by apply Hnin].
    + rewrite Han, last_with_hash_cons.
      destruct (lwh h l); [done |].
      destruct (decide (fp n = h)) as [<-|Hne].
      * by rewrite lookup_insert_eq.
      * by rewrite lookup_insert_ne.
Qed.

Lemma elem_of_hash_set l (hm' : gmap Z Z) (an an' : gmap Z (Node float)) a b :
  index_nodes float_repr str_hash (∅, an) l = (hm', an') →
  (a, b) ∈ (list_to_set (map_to_list hm') : gset (Z * Z)) ↔ a ∈ fps l ∧ b = a.
Proof.
  intros Hrun. apply index_nodes_spec in Hrun as [Hhm _].
  rewrite elem_of_list_to_set, elem_of_map_to_list, Hhm.
  destruct (decide (a ∈ fps l)) as [Hin|Hnin].
  - split; [intros [= ->]; done | intros [_ ->]; done].
  - rewrite lookup_empty. split; [done | tauto].
Qed.

Lemma Forall2_resolved (an : gmap Z (Node float)) (els : list (Z * Z)) ns :
  Forall2 (λ p n, an !! p.1 = Some n ∧ fp n = p.1) els ns →
  fps ns = fst <$> els ∧ ∀ n, n ∈ ns → an !! fp n = Some n.
Proof.
  induction 1 as [|p n els ns [Hp Hh] _ [IH1 IH2]].
  - split; [done |]. intros n Hn. by apply not_elem_of_nil in Hn.
  - split.
    + unfold fingerprints in *. cbn. by rewrite Hh, IH1.
    + intros m Hm. apply elem_of_cons in Hm as [->|Hm]; [| by apply IH2].
      by rewrite Hh.
Qed.

Lemma lookup_all_spec (an : gmap Z (Node float)) (s : gset (Z * Z)) :
  (∀ a b, (a, b) ∈ s → b = a ∧ ∃ n, an !! a = Some n ∧ fp n = a) →
  ∃ ns, lookup_all an s = Ok ns
    ∧ NoDup (fps ns)
    ∧ (∀ h, h ∈ fps ns ↔ (h, h) ∈ s)
    ∧ (∀ n, n ∈ ns → an !! fp n = Some n).
Proof.
  intros Hs.
  destruct (mapM_result_Forall2
              (λ '(_hash, _), getitem an _hash)
              (λ p n, an !! p.1 = Some n ∧ fp n = p.1) (elements s))
    as (ns & Hrun & HF).
  { intros [a b] Hab. apply elem_of_elements in Hab.
    destruct (Hs a b Hab) as (_ & n & Hn & Hh).
    exists n. unfold getitem. rewrite Hn. done. }
  apply Forall2_resolved in HF as [Hfps Hres].
  exists ns. split; [exact Hrun |]. rewrite Hfps. repeat split.
  - apply NoDup_fmap_2_strong; [| apply NoDup_elements].
    intros [a b] [a' b'] Hp Hp' Heq. cbn in Heq. subst a'.
    apply elem_of_elements in Hp, Hp'.
    destruct (Hs _ _ Hp) as [-> _]. destruct (Hs _ _ Hp') as [-> _]. done.
  - intros Hin. apply list_elem_of_fmap in Hin as ([a b] & -> & Hab).
    apply elem_of_elements in Hab. cbn. destruct (Hs _ _ Hab) as [-> _]. done.
  - intros Hin. apply list_elem_of_fmap. exists (h, h). split; [done |].
    by apply elem_of_elements.
  - exact Hres.
Qed.

(** The complete description of what [_filter_diff_nodes] returns. *)
Theorem filter_diff_nodes_spec existing observed :
  ∃ new duplicate missing,
    reconcile existing observed = Ok (new, duplicate, missing)
    ∧ reconciled float_repr str_hash existing observed new duplicate missing.
Proof.
  unfold _filter_diff_nodes.
  destruct (index_nodes _ _ (∅, ∅) existing) as [hm1 an1] eqn:E1.
  destruct (index_nodes _ _ (∅, an1) observed) as [hm2 an2] eqn:E2.
  pose proof (λ a b, elem_of_hash_set _ _ _ _ a b E1) as Hs1.
  pose proof (λ a b, elem_of_hash_set _ _ _ _ a b E2) as Hs2.
  apply index_nodes_spec in E1 as [_ Han1].
  apply index_nodes_spec in E2 as [_ Han2].
  assert (∀ h, h ∈ fps observed → ∃ n, an2 !! h = Some n ∧ fp n = h
                                         ∧ lwh h observed = Some n) as Hobs.
  { intros h Hh. apply last_with_hash_is_Some in Hh as [n Hn].
    exists n. rewrite Han2, Hn. split; [done |].
    split; [| done]. by apply last_with_hash_Some in Hn as [? _]. }
  assert (∀ h, h ∉ fps observed → h ∈ fps existing →
               ∃ n, an2 !! h = Some n ∧ fp n = h ∧ lwh h existing = Some n) as Hex.
  { intros h Hno Hh. apply last_with_hash_is_Some in Hh as [n Hn].
    apply last_with_hash_None in Hno.
    exists n. rewrite Han2, Hno, Han1, Hn. split; [done |].
    split; [| done]. by apply last_with_hash_Some in Hn as [? _]. }
  set (S1 := list_to_set (map_to_list hm1) : gset (Z * Z)) in *.
  set (S2 := list_to_set (map_to_list hm2) : gset (Z * Z)) in *.
  destruct (lookup_all_spec an2 (S2 ∖ S1)) as (new & -> & Hnd1 & Hin1 & Hres1).
  { intros a b Hab. apply elem_of_difference in Hab as [Hab _].
    apply Hs2 in Hab as [Ha ->]. split; [done |].
    destruct (Hobs a Ha) as (n & ? & ? & _). eauto. }
  destruct (lookup_all_spec an2 (S2 ∩ S1)) as (dup & -> & Hnd2 & Hin2 & Hres2).
  { intros a b Hab. apply elem_of_intersection in Hab as [Hab _].
    apply Hs2 in Hab as [Ha ->]. split; [done |].
    destruct (Hobs a Ha) as (n & ? & ? & _). eauto. }
  destruct (lookup_all_spec an2 (S1 ∖ S2)) as (missing & -> & Hnd3 & Hin3 & Hres3).
  { intros a b Hab. apply elem_of_difference in Hab as [Hab Hnot].
    apply Hs1 in Hab as [Ha ->]. split; [done |].
    assert (a ∉ fps observed) as Hno.
    { intros Hin. apply Hnot. apply Hs2. done. }
    destruct (Hex a Hno Ha) as (n & ? & ? & _). eauto. }
  exists new, dup, missing. split; [reflexivity |].
  assert (∀ h, (h, h) ∈ S2 ↔ h ∈ fps observed) as HS2 by (intros h; rewrite Hs2; tauto).
  assert (∀ h, (h, h) ∈ S1 ↔ h ∈ fps existing) as HS1 by (intros h; rewrite Hs1; tauto).
  split.
  - exact Hnd1.
  - exact Hnd2.
  - exact Hnd3.
  - intros h. rewrite Hin1, elem_of_difference, HS1, HS2. tauto.
  - intros h. rewrite Hin2, elem_of_intersection, HS1, HS2. tauto.
  - intros h. rewrite Hin3, elem_of_difference, HS1, HS2. tauto.
  - intros n Hn. pose proof (Hres1 n Hn) as Hl.
    assert (fp n ∈ fps new) as Hh by (apply list_elem_of_fmap; eauto).
    apply Hin1, elem_of_difference in Hh as [Hh _]. apply HS2 in Hh.
    destruct (Hobs _ Hh) as (m & Hm & _ & Hlast). congruence.
  - intros n Hn. pose proof (Hres2 n Hn) as Hl.
    assert (fp n ∈ fps dup) as Hh by (apply list_elem_of_fmap; eauto).
    apply Hin2, elem_of_intersection in Hh as [Hh _]. apply HS2 in Hh.
    destruct (Hobs _ Hh) as (m & Hm & _ & Hlast). congruence.
  - intros n Hn. pose proof (Hres3 n Hn) as Hl.
    assert (fp n ∈ fps missing) as Hh by (apply list_elem_of_fmap; eauto).
    apply Hin3, elem_of_difference in Hh as [Hh Hno].
    apply HS1 in Hh. rewrite HS2 in Hno.
    destruct (Hex _ Hno Hh) as (m & Hm & _ & Hlast). congruence.
Qed.

Lemma fingerprints_nil_inv l : fps l = [] → l = [].
Proof. by destruct l. Qed.

Lemma fingerprint_inj_on l n m :
  NoDup (fps l) → n ∈ l → m ∈ l → fp n = fp m → n = m.
Proof.
  induction l as [|x l IH]; intros Hnd Hn Hm Heq.
  - by apply not_elem_of_nil in Hn.
  - change (fps (x :: l)) with (fp x :: fps l) in Hnd.
    apply NoDup_cons in Hnd as [Hx Hnd].
    assert (∀ y, y ∈ l → fp y ≠ fp x) as Hfresh.
    { intros y Hy Hyx. apply Hx. rewrite <- Hyx. apply list_elem_of_fmap. eauto. }
    apply elem_of_cons in Hn as [->|Hn]; apply elem_of_cons in Hm as [->|Hm].
    + done.
    + exfalso. by apply (Hfresh m Hm).
    + exfalso. by apply (Hfresh n Hn).
    + by apply IH.
Qed.

(** The fingerprint text determines the fingerprinted attributes of two
    nodes with the same short identifier. *)
Lemma Node_hash_input_inj (Hrepr : repr_well_behaved float_repr) a b :
  Node_public_key_id a = Node_public_key_id b →
  Node_hash_input float_repr a = Node_hash_input float_repr b →
  same_content a b ∧ is_observer a = is_observer b.
Proof.
  destruct Hrepr as [Hinj Hcolon Hnone].
  assert (∀ x : option float,
            ":"%char ∉ list_ascii_of_string (format_optional_float float_repr x)) as Hopt.
  { intros [x|]; [apply Hcolon |]. cbn. absent_char. }
  assert (∀ x y : option float,
            format_optional_float float_repr x = format_optional_float float_repr y →
            x = y) as Hoptinj.
  { intros [x|] [y|] Heq; cbn in Heq.
    - by rewrite (Hinj x y Heq).
    - by apply Hnone in Heq.
    - symmetry in Heq. by apply Hnone in Heq.
    - done. }
  assert (∀ t : NodeType.t,
            ":"%char ∉ list_ascii_of_string (Str.of_int (NodeType.value t))) as Hty.
  { intros []; vm_compute; absent_char. }
  assert (∀ o : bool, ":"%char ∉ list_ascii_of_string (Str.of_bool o)) as Hob.
  { intros []; cbn; absent_char. }
  unfold Node_hash_input. intros Hk Heq.
  apply (f_equal list_ascii_of_string) in Heq.
  rewrite !chars_app, Hk in Heq.
  apply fields_inj in Heq as (Hn & Ht & Hla & Hlo & Ho); try done.
  apply chars_inj in Hn, Ht, Hla, Hlo, Ho.
  repeat split.
  - done.
  - by apply Hoptinj.
  - by apply Hoptinj.
  - destruct (node_type a), (node_type b); done.
  - destruct (is_observer a), (is_observer b); done.
Qed.

(** The fingerprint does not read [contact], [created_at] or [last_heard]. *)
Lemma fingerprint_stability n (contact' : option string) (created_at' last_heard' : Z) :
  fp {| public_key := public_key n; name := name n;
        latitude := latitude n; longitude := longitude n;
        node_type := node_type n; is_observer := is_observer n;
        contact := contact'; created_at := created_at'; last_heard := last_heard' |}
  = fp n.
Proof. reflexivity. Qed.

(** C1: the fingerprints of the three lists that reconciliation returns
    partition the fingerprints of the two inputs.  The call returns, the
    fingerprints of [new ++ duplicate ++ missing] hold no value twice (so no
    fingerprint is in two lists, or twice in one), and a fingerprint is among
    them exactly when it occurs in [existing] or in [observed]. *)
Theorem partition_completeness existing observed :
  ∃ new duplicate missing,
    _filter_diff_nodes float_repr str_hash existing observed
    = Ok (new, duplicate, missing)
    ∧ NoDup (fingerprints float_repr str_hash new
             ++ fingerprints float_repr str_hash duplicate
             ++ fingerprints float_repr str_hash missing)
    ∧ ∀ h, h ∈ fingerprints float_repr str_hash new
               ++ fingerprints float_repr str_hash duplicate
               ++ fingerprints float_repr str_hash missing
           ↔ h ∈ fingerprints float_repr str_hash existing
             ∨ h ∈ fingerprints float_repr str_hash observed.
Proof.
  destruct (filter_diff_nodes_spec existing observed)
    as (new & dup & missing & Hrun & Hspec).
  exists new, dup, missing. split; [exact Hrun |].
  destruct Hspec as [N1 N2 N3 F1 F2 F3 _ _ _]. split.
  - apply NoDup_app. split; [exact N1 |]. split.
    + intros h Hh Hin. apply F1 in Hh as [_ Hno].
      apply elem_of_app in Hin as [Hin|Hin].
      * apply F2 in Hin. tauto.
      * apply F3 in Hin. tauto.
    + apply NoDup_app. split; [exact N2 |]. split; [| exact N3].
      intros h Hh Hin. apply F2 in Hh. apply F3 in Hin. tauto.
  - intros h. rewrite !elem_of_app, F1, F2, F3.
    destruct (decide (h ∈ fps existing)), (decide (h ∈ fps observed)); tauto.
Qed.

(** C6: reconciling a snapshot without fingerprint collisions against
    itself gives no new node, no missing node, and the snapshot itself, up to
    order, as the unchanged nodes. *)
Theorem noop_idempotence S :
  NoDup (fingerprints float_repr str_hash S) →
  ∃ unchanged,
    _filter_diff_nodes float_repr str_hash S S = Ok ([], unchanged, [])
    ∧ unchanged ≡ₚ S.
Proof.
  intros Hnd.
  destruct (filter_diff_nodes_spec S S) as (new & dup & missing & Hrun & Hspec).
  destruct Hspec as [_ N2 _ F1 F2 F3 _ R2 _].
  assert (new = []) as ->.
  { apply fingerprints_nil_inv. destruct (fps new) as [|h k] eqn:E; [done |].
    assert (h ∈ h :: k) as Hh by left. apply F1 in Hh. tauto. }
  assert (missing = []) as ->.
  { apply fingerprints_nil_inv. destruct (fps missing) as [|h k] eqn:E; [done |].
    assert (h ∈ h :: k) as Hh by left. apply F3 in Hh. tauto. }
  exists dup. split; [exact Hrun |].
  apply NoDup_Permutation.
  - by eapply NoDup_fmap_1.
  - by eapply NoDup_fmap_1.
  - intros n. split.
    + intros Hn. apply R2 in Hn. by apply last_with_hash_Some in Hn as [_ ?].
    + intros Hn.
      assert (fp n ∈ fps dup) as Hh.
      { apply F2. split; apply list_elem_of_fmap; eauto. }
      apply list_elem_of_fmap in Hh as (m & Heq & Hm).
      pose proof (R2 m Hm) as Hl. apply last_with_hash_Some in Hl as [_ HmS].
      by rewrite (fingerprint_inj_on S n m Hnd Hn HmS Heq).
Qed.

(** C10: every node of the unchanged list is the instance stored last
    for its fingerprint among the observed nodes, never the one of the old
    snapshot; a fingerprint that occurs in both inputs is reported in the
    unchanged list only, by such a node. *)
Theorem unchanged_nodes_are_observed existing observed new duplicate missing :
  _filter_diff_nodes float_repr str_hash existing observed = Ok (new, duplicate, missing) →
  (∀ n, n ∈ duplicate →
        last_with_hash float_repr str_hash (Node_hash float_repr str_hash n) observed
        = Some n
        ∧ n ∈ observed)
  ∧ (∀ h, h ∈ fingerprints float_repr str_hash existing →
          h ∈ fingerprints float_repr str_hash observed →
          (h ∉ fingerprints float_repr str_hash new)
          ∧ (h ∉ fingerprints float_repr str_hash missing)
          ∧ ∃ n, n ∈ duplicate
                 ∧ Node_hash float_repr str_hash n = h
                 ∧ last_with_hash float_repr str_hash h observed = Some n).
Proof.
  intros Hrun.
  destruct (filter_diff_nodes_spec existing observed)
    as (new' & dup' & missing' & Hrun' & Hspec).
  rewrite Hrun in Hrun'. injection Hrun' as <- <- <-.
  destruct Hspec as [_ _ _ F1 F2 F3 _ R2 _]. split.
  - intros n Hn. pose proof (R2 n Hn) as Hl. split; [exact Hl |].
    by apply last_with_hash_Some in Hl as [_ ?].
  - intros h He Ho. split; [rewrite F1; tauto |]. split; [rewrite F3; tauto |].
    assert (h ∈ fps duplicate) as Hh by (apply F2; tauto).
    apply list_elem_of_fmap in Hh as (n & -> & Hn).
    exists n. split; [done |]. split; [done |]. by apply R2.
Qed.

(** Two nodes with the same public key that differ in a fingerprinted
    attribute have different fingerprints, unless the string hash collides. *)
Lemma changed_attributes_change_fingerprint e o :
  repr_well_behaved float_repr →
  same_public_key (public_key e) (public_key o) →
  ¬ same_content e o →
  (str_hash (Node_hash_input float_repr e) = str_hash (Node_hash_input float_repr o) →
   Node_hash_input float_repr e = Node_hash_input float_repr o) →
  fp e ≠ fp o.
Proof.
  intros Hrepr Hkey Hdiff Hcoll Heq. apply Hdiff.
  apply (Node_hash_input_inj Hrepr).
  - unfold Node_public_key_id, Node_public_key_id_4_char.
    rewrite !upper_take. by rewrite Hkey.
  - by apply Hcoll.
Qed.

(** C7, amended: when the snapshot holds [e] and the observed list holds
    [o] with the same public key but another name, location or node type, the
    string hash does not collide on the two, and no other node of either list
    has the fingerprint of [e] or of [o], then [o] is reported new and [e] is
    reported missing, and neither is reported unchanged. *)
Theorem changed_node_is_new_and_missing existing observed new duplicate missing e o :
  _filter_diff_nodes float_repr str_hash existing observed = Ok (new, duplicate, missing) →
  e ∈ existing → o ∈ observed →
  same_public_key (public_key e) (public_key o) →
  ¬ same_content e o →
  repr_well_behaved float_repr →
  (str_hash (Node_hash_input float_repr e) = str_hash (Node_hash_input float_repr o) →
   Node_hash_input float_repr e = Node_hash_input float_repr o) →
  only_among float_repr str_hash e (Node_hash float_repr str_hash o) existing →
  only_among float_repr str_hash e (Node_hash float_repr str_hash e) existing →
  only_among float_repr str_hash o (Node_hash float_repr str_hash o) observed →
  only_among float_repr str_hash o (Node_hash float_repr str_hash e) observed →
  Node_hash float_repr str_hash e ≠ Node_hash float_repr str_hash o
  ∧ o ∈ new ∧ e ∈ missing ∧ (o ∉ duplicate) ∧ (e ∉ duplicate).
Proof.
  intros Hrun He Ho Hkey Hdiff Hrepr Hcoll Heo Hee Hoo Hoe.
  pose proof (changed_attributes_change_fingerprint e o Hrepr Hkey Hdiff Hcoll) as Hne.
  destruct (filter_diff_nodes_spec existing observed)
    as (new' & dup' & missing' & Hrun' & Hspec).
  rewrite Hrun in Hrun'. injection Hrun' as <- <- <-.
  destruct Hspec as [_ _ _ F1 F2 F3 R1 _ R3].
  assert (fp o ∉ fps existing) as Hno_o.
  { intros Hin. apply list_elem_of_fmap in Hin as (x & Hx & Hin).
    apply Hne. rewrite Hx. f_equal. symmetry. apply (Heo x Hin). done. }
  assert (fp e ∉ fps observed) as Hno_e.
  { intros Hin. apply list_elem_of_fmap in Hin as (y & Hy & Hin).
    apply Hne. rewrite Hy. f_equal. apply (Hoe y Hin). done. }
  assert (fp o ∈ fps observed) as Hin_o by (apply list_elem_of_fmap; eauto).
  assert (fp e ∈ fps existing) as Hin_e by (apply list_elem_of_fmap; eauto).
  split; [exact Hne |]. split; [| split; [| split]].
  - assert (fp o ∈ fps new) as Hh by (apply F1; tauto).
    apply list_elem_of_fmap in Hh as (n & Hn & Hin).
    pose proof (R1 n Hin) as Hl. apply last_with_hash_Some in Hl as [_ Hobs].
    symmetry in Hn. by rewrite <- (Hoo n Hobs Hn).
  - assert (fp e ∈ fps missing) as Hh by (apply F3; tauto).
    apply list_elem_of_fmap in Hh as (n & Hn & Hin).
    pose proof (R3 n Hin) as Hl. apply last_with_hash_Some in Hl as [_ Hex].
    symmetry in Hn. by rewrite <- (Hee n Hex Hn).
  - intros Hin. assert (fp o ∈ fps duplicate) as Hh by (apply list_elem_of_fmap; eauto).
    apply F2 in Hh. tauto.
  - intros Hin. assert (fp e ∈ fps duplicate) as Hh by (apply list_elem_of_fmap; eauto).
    apply F2 in Hh. tauto.
Qed.

End Reconciliation.

(** *** What the serialisation of a node holds *)

Lemma Node_to_json_eq_inv {float : Type} (n m : Node float) :
  Node_to_json n = Node_to_json m → n = m.
Proof.
  destruct n as [pk nm la lo ty ob ct ca lh], m as [pk' nm' la' lo' ty' ob' ct' ca' lh'].
  unfold Node_to_json. cbn. intros Heq.
  injection Heq as -> -> Hla Hlo Hty -> Hct -> ->.
  f_equal.
  - destruct la, la'; cbn in Hla; congruence.
  - destruct lo, lo'; cbn in Hlo; congruence.
  - destruct ty, ty'; cbn in Hty; congruence.
  - destruct ct, ct'; cbn in Hct; congruence.
Qed.

Lemma Node_to_json_list_eq_inv {float : Type} (nodes observed : list (Node float)) :
  Node_to_json <$> nodes = Node_to_json <$> observed → nodes = observed.
Proof.
  revert observed. induction nodes as [|n nodes IH]; intros [|o observed] Heq;
    try done.
  rewrite !fmap_cons in Heq.
  assert (Node_to_json n = Node_to_json o) as Hn by congruence.
  assert (Node_to_json <$> nodes = Node_to_json <$> observed) as Hrest by congruence.
  apply Node_to_json_eq_inv in Hn as ->. by rewrite (IH _ Hrest).
Qed.

(** Decoding the serialised objects one by one gives the nodes back, when
    the constructor accepts what [to_json] wrote for each of them. *)
Lemma mapM_Node_init_observed {float : Type}
    (Node_init : json_object float → result (Node float)) (observed : list (Node float)) :
  (∀ n, n ∈ observed → Node_init (Node_to_json n) = Ok n) →
  mapM Node_init (Node_to_json <$> observed) = Ok observed.
Proof.
  induction observed as [|n l IH]; intros Hinit; [done |].
  cbn. rewrite Hinit by left. cbn. rewrite IH; [done |].
  intros m Hm. apply Hinit. by right.
Qed.

(** *** The snapshot store policy *)

Section Store.

Context {float : Type} (float_repr : float → string) (str_hash : string → Z)
  (quote : string → string) (local_utcoffset : Z → Z)
  (json_dumps : list (json_object float) → string)
  (json_load : string → result (list (json_object float)))
  (Node_init : json_object float → result (Node float)).

Local Abbreviation reconcile := (_filter_diff_nodes float_repr str_hash).
Local Abbreviation read := (_read_nodes_from_file json_load Node_init).
Local Abbreviation sync := (sync_nodes float_repr str_hash json_dumps json_load Node_init).
Local Abbreviation repeaters_sync :=
  (sync_repeaters float_repr str_hash quote json_dumps json_load Node_init).
Local Abbreviation companions_sync :=
  (sync_companions float_repr str_hash quote local_utcoffset json_dumps json_load Node_init).

(** Both entry points run the same policy on the nodes they observed. *)
Lemma sync_repeaters_unfold path mm lm fs :
  repeaters_sync path mm lm fs = sync path (get_den_repeaters quote mm lm) fs.
Proof. reflexivity. Qed.

Lemma sync_companions_unfold path lm fs companions :
  get_den_companions quote local_utcoffset lm = Ok companions →
  companions_sync path lm fs = sync path companions fs.
Proof. intros Hc. unfold sync_companions. rewrite Hc. reflexivity. Qed.

Lemma sync_nodes_unchanged path observed fs existing duplicate :
  read fs path = Ok existing →
  reconcile existing observed = Ok ([], duplicate, []) →
  sync path observed fs = Ok fs.
Proof.
  intros Hread Hrec. unfold sync_nodes. rewrite Hread. cbn. rewrite Hrec. reflexivity.
Qed.

Lemma sync_nodes_changed path observed fs existing new duplicate missing :
  read fs path = Ok existing →
  reconcile existing observed = Ok (new, duplicate, missing) →
  new ≠ [] ∨ missing ≠ [] →
  sync path observed fs = Ok (<[path := json_dumps (Node_to_json <$> observed)]> fs).
Proof.
  intros Hread Hrec Hch. unfold sync_nodes. rewrite Hread. cbn. rewrite Hrec. cbn.
  destruct new, missing; cbn; try reflexivity. destruct Hch; done.
Qed.

(** Reconciliation reports no new and no missing node exactly when the
    observed list has the fingerprints of the snapshot, in any order and with
    any other field values. *)
Lemma no_change_iff_fingerprint_identical existing observed :
  (∃ duplicate, reconcile existing observed = Ok ([], duplicate, []))
  ↔ (∀ h, h ∈ fingerprints float_repr str_hash existing
          ↔ h ∈ fingerprints float_repr str_hash observed).
Proof.
  clear quote local_utcoffset json_dumps json_load Node_init.
  destruct (filter_diff_nodes_spec float_repr str_hash existing observed)
    as (new & dup & missing & Hrun & Hspec).
  destruct Hspec as [_ _ _ F1 _ F3 _ _ _]. split.
  - intros [dup' Hrun']. rewrite Hrun in Hrun'. injection Hrun' as -> _ ->.
    intros h. split; intros Hh.
    + destruct (decide (h ∈ fingerprints float_repr str_hash observed)) as [|Hno];
        [done |].
      assert (h ∈ fingerprints float_repr str_hash []) as Hin by (apply F3; tauto).
      by apply not_elem_of_nil in Hin.
    + destruct (decide (h ∈ fingerprints float_repr str_hash existing)) as [|Hno];
        [done |].
      assert (h ∈ fingerprints float_repr str_hash []) as Hin by (apply F1; tauto).
      by apply not_elem_of_nil in Hin.
  - intros Hsame.
    assert (new = []) as ->.
    { apply fingerprints_nil_inv with float_repr str_hash.
      destruct (fingerprints _ _ new) as [|h k] eqn:E; [done |].
      assert (h ∈ h :: k) as Hh by left. apply F1 in Hh. rewrite Hsame in Hh. tauto. }
    assert (missing = []) as ->.
    { apply fingerprints_nil_inv with float_repr str_hash.
      destruct (fingerprints _ _ missing) as [|h k] eqn:E; [done |].
      assert (h ∈ h :: k) as Hh by left. apply F3 in Hh. rewrite Hsame in Hh. tauto. }
    by exists dup.
Qed.

(** C4: when reconciling the loaded snapshot with the observed nodes
    gives no new and no missing node, [sync_repeaters] and [sync_companions]
    return the file system they were given: nothing is written. *)
Theorem write_suppression path observed fs existing duplicate :
  _read_nodes_from_file json_load Node_init fs path = Ok existing →
  _filter_diff_nodes float_repr str_hash existing observed = Ok ([], duplicate, []) →
  (∀ mm lm,
     get_den_repeaters quote mm lm = observed →
     sync_repeaters float_repr str_hash quote json_dumps json_load Node_init
       path mm lm fs
     = Ok fs)
  ∧ (∀ lm,
       get_den_companions quote local_utcoffset lm = Ok observed →
       sync_companions float_repr str_hash quote local_utcoffset
         json_dumps json_load Node_init path lm fs
       = Ok fs).
Proof.
  intros Hread Hrec. split.
  - intros mm lm <-. rewrite sync_repeaters_unfold.
    by eapply sync_nodes_unchanged.
  - intros lm Hc. rewrite (sync_companions_unfold _ _ _ _ Hc).
    by eapply sync_nodes_unchanged.
Qed.

(** C5: when reconciliation reports a new or a missing node,
    [sync_repeaters] and [sync_companions] replace the text of the file by
    the serialisation of the observed nodes, all of them and nothing of the
    old snapshot, and leave every other file alone.  What is serialised is
    one object for each observed node, in their order; every object has the
    nine keys of [to_json], and the objects determine the observed list: no
    other list of nodes is written as the same objects.  A later read of the
    file decodes exactly that serialisation, and where the decoder gives the
    written objects back and the constructor accepts them, the snapshot read
    is the observed list. *)
Theorem full_overwrite path observed fs existing new duplicate missing :
  _read_nodes_from_file json_load Node_init fs path = Ok existing →
  _filter_diff_nodes float_repr str_hash existing observed = Ok (new, duplicate, missing) →
  new ≠ [] ∨ missing ≠ [] →
  let fs' := <[path := json_dumps (Node_to_json <$> observed)]> fs in
  (∀ mm lm,
     get_den_repeaters quote mm lm = observed →
     sync_repeaters float_repr str_hash quote json_dumps json_load Node_init
       path mm lm fs
     = Ok fs')
  ∧ (∀ lm,
       get_den_companions quote local_utcoffset lm = Ok observed →
       sync_companions float_repr str_hash quote local_utcoffset
         json_dumps json_load Node_init path lm fs
       = Ok fs')
  ∧ fs' !! path = Some (json_dumps (Node_to_json <$> observed))
  ∧ (∀ p, p ≠ path → fs' !! p = fs !! p)
  ∧ length (Node_to_json <$> observed) = length observed
  ∧ Forall (λ object, fst <$> object = node_json_keys) (Node_to_json <$> observed)
  ∧ (∀ nodes, Node_to_json <$> nodes = Node_to_json <$> observed → nodes = observed)
  ∧ _read_nodes_from_file json_load Node_init fs' path
    = (json_load (json_dumps (Node_to_json <$> observed)) ≫= mapM Node_init)
  ∧ (json_load (json_dumps (Node_to_json <$> observed)) = Ok (Node_to_json <$> observed) →
     (∀ n, n ∈ observed → Node_init (Node_to_json n) = Ok n) →
     _read_nodes_from_file json_load Node_init fs' path = Ok observed).
Proof.
  intros Hread Hrec Hch fs'. subst fs'.
  split; [| split; [| split; [| split; [| split; [| split; [| split; [| split]]]]]]].
  - intros mm lm <-. rewrite sync_repeaters_unfold.
    by eapply sync_nodes_changed.
  - intros lm Hc. rewrite (sync_companions_unfold _ _ _ _ Hc).
    by eapply sync_nodes_changed.
  - apply lookup_insert_eq.
  - intros p Hp. by apply lookup_insert_ne.
  - apply length_fmap.
  - apply Forall_fmap, Forall_forall. intros n _. reflexivity.
  - intros nodes. apply Node_to_json_list_eq_inv.
  - unfold _read_nodes_from_file. by rewrite lookup_insert_eq.
  - intros Hload Hinit. unfold _read_nodes_from_file.
    rewrite lookup_insert_eq, Hload. cbn. by apply mapM_Node_init_observed.
Qed.

(** With a decoder that inverts the serialiser, the snapshot read back after
    a rewrite is the observed list. *)
Lemma read_back_observed path observed (fs : gmap string string) :
  (∀ docs, json_load (json_dumps docs) = Ok docs) →
  (∀ n, Node_init (Node_to_json n) = Ok n) →
  read (<[path := json_dumps (Node_to_json <$> observed)]> fs) path = Ok observed.
Proof.
  intros Hload Hinit. unfold _read_nodes_from_file.
  rewrite lookup_insert_eq, Hload. cbn.
  induction observed as [|n l IH]; [done |].
  cbn. rewrite Hinit. cbn. by rewrite IH.
Qed.

End Store.

(** *** Normalisation *)

Section Normalisers.

Context {float : Type} (quote : string → string).

Implicit Types (r : MeshMapperRepeater float) (lm : list (LetsMeshNode float)).

Lemma String_eqb_decide (a b : string) : String.eqb a b = bool_decide (a = b).
Proof.
  destruct (String.eqb_spec a b) as [->|Hne].
  - by rewrite bool_decide_eq_true_2.
  - by rewrite bool_decide_eq_false_2.
Qed.

(** The loop answers for the first node with the key, and [False] when
    there is none. *)
Lemma meshmapper_node_is_room_spec r lm :
  _meshmapper_node_is_room r lm =
    match first_same_key (mm_hex_id r) lm with
    | Some x => bool_decide (lm_device_role x = LetsMeshNodeRole.ROOM)
    | None => false
    end.
Proof.
  unfold first_same_key. induction lm as [|x lm IH]; [done |].
  cbn [_meshmapper_node_is_room]. rewrite filter_cons, String_eqb_decide.
  unfold same_public_key at 1.
  destruct (decide (Str.upper (lm_public_key x) = Str.upper (mm_hex_id r))) as [Heq|Hne].
  - by rewrite bool_decide_eq_true_2.
  - by rewrite bool_decide_eq_false_2.
Qed.

Lemma room_implies_nodes r lm :
  _meshmapper_node_is_room r lm = true → list_truthy lm = true.
Proof. by destruct lm. Qed.

Lemma first_same_key_Some r lm x :
  first_same_key (mm_hex_id r) lm = Some x →
  x ∈ lm ∧ same_public_key (lm_public_key x) (mm_hex_id r).
Proof.
  unfold first_same_key. intros Hx. apply head_Some_elem_of in Hx.
  apply list_elem_of_filter in Hx. tauto.
Qed.

Lemma first_same_key_None r lm :
  first_same_key (mm_hex_id r) lm = None →
  ∀ x, x ∈ lm → ¬ same_public_key (lm_public_key x) (mm_hex_id r).
Proof.
  unfold first_same_key. intros Hnone x Hx Hkey. apply head_None in Hnone.
  assert (x ∈ filter (λ y, same_public_key (lm_public_key y) (mm_hex_id r)) lm) as Hin
    by (by apply list_elem_of_filter).
  rewrite Hnone in Hin. by apply not_elem_of_nil in Hin.
Qed.

(** Records with pairwise distinct keys: one key, one record. *)
Lemma distinct_keys_same_record lm (x y : LetsMeshNode float) :
  NoDup (Str.upper ∘ lm_public_key <$> lm) →
  x ∈ lm → y ∈ lm →
  Str.upper (lm_public_key x) = Str.upper (lm_public_key y) → x = y.
Proof.
  induction lm as [|z lm IH]; intros Hnd Hx Hy Heq.
  - by apply not_elem_of_nil in Hx.
  - rewrite fmap_cons in Hnd. apply NoDup_cons in Hnd as [Hz Hnd].
    assert (∀ w, w ∈ lm → Str.upper (lm_public_key w) ≠ Str.upper (lm_public_key z))
      as Hfresh.
    { intros w Hw Hwz. apply Hz. apply list_elem_of_fmap. exists w. by split. }
    apply elem_of_cons in Hx as [->|Hx]; apply elem_of_cons in Hy as [->|Hy].
    + done.
    + exfalso. by apply (Hfresh y Hy).
    + exfalso. by apply (Hfresh x Hx).
    + by apply IH.
Qed.

(** The type a repeater gets is decided by the first LetsMesh node with its
    key, where there are several. *)
Lemma repeater_type_by_first_match r lm :
  (if _meshmapper_node_is_room r lm && list_truthy lm
   then NodeType.ROOM_SERVER else NodeType.REPEATER)
  = match first_same_key (mm_hex_id r) lm with
    | Some x => if decide (lm_device_role x = LetsMeshNodeRole.ROOM)
                then NodeType.ROOM_SERVER else NodeType.REPEATER
    | None => NodeType.REPEATER
    end.
Proof.
  pose proof (room_implies_nodes r lm) as Htruthy.
  rewrite meshmapper_node_is_room_spec in *.
  destruct (first_same_key (mm_hex_id r) lm) as [x|]; [| done].
  destruct (decide (lm_device_role x = LetsMeshNodeRole.ROOM)) as [Hroom|Hroom].
  - rewrite bool_decide_eq_true_2 in * by done. by rewrite Htruthy.
  - by rewrite bool_decide_eq_false_2 by done.
Qed.

(** C2, amended: a MeshMapper repeater is normalised to a room server or
    to a repeater.  It is a room server only if some LetsMesh node whose
    public key equals its [hex_id], as whole strings compared in upper case,
    has the role [ROOM]; it is a room server whenever there is a LetsMesh
    node with that key and every such node has the role [ROOM].  Where the
    LetsMesh keys are pairwise distinct in upper case, it is a room server
    exactly when a node with its key has the role [ROOM].  So one repeater
    and one room node with equal keys give a room server. *)
Theorem device_type_inference :
  (∀ mm lm,
     Forall2 (λ r n,
                (node_type n = NodeType.ROOM_SERVER ∨ node_type n = NodeType.REPEATER)
                ∧ (node_type n = NodeType.ROOM_SERVER →
                   ∃ x, x ∈ lm
                        ∧ same_public_key (lm_public_key x) (mm_hex_id r)
                        ∧ lm_device_role x = LetsMeshNodeRole.ROOM)
                ∧ ((∃ x, x ∈ lm ∧ same_public_key (lm_public_key x) (mm_hex_id r)) →
                   (∀ x, x ∈ lm → same_public_key (lm_public_key x) (mm_hex_id r) →
                         lm_device_role x = LetsMeshNodeRole.ROOM) →
                   node_type n = NodeType.ROOM_SERVER)
                ∧ (NoDup (Str.upper ∘ lm_public_key <$> lm) →
                   (node_type n = NodeType.ROOM_SERVER
                    ↔ ∃ x, x ∈ lm
                           ∧ same_public_key (lm_public_key x) (mm_hex_id r)
                           ∧ lm_device_role x = LetsMeshNodeRole.ROOM)))
             mm (get_den_repeaters quote mm lm))
  ∧ (∀ r (x : LetsMeshNode float),
       same_public_key (lm_public_key x) (mm_hex_id r) →
       lm_device_role x = LetsMeshNodeRole.ROOM →
       node_type <$> get_den_repeaters quote [r] [x] = [NodeType.ROOM_SERVER]).
Proof.
  pose proof repeater_type_by_first_match as Hty.
  assert (∀ r lm,
            (if _meshmapper_node_is_room r lm && list_truthy lm
             then NodeType.ROOM_SERVER else NodeType.REPEATER) = NodeType.ROOM_SERVER →
            ∃ x, x ∈ lm ∧ same_public_key (lm_public_key x) (mm_hex_id r)
                 ∧ lm_device_role x = LetsMeshNodeRole.ROOM) as Honly.
  { intros r lm. rewrite Hty.
    destruct (first_same_key (mm_hex_id r) lm) as [x|] eqn:Hfirst; [| done].
    destruct (decide (lm_device_role x = LetsMeshNodeRole.ROOM)) as [Hroom|]; [| done].
    intros _. apply first_same_key_Some in Hfirst as [Hin Hkey]. eauto. }
  assert (∀ r lm,
            (∃ x, x ∈ lm ∧ same_public_key (lm_public_key x) (mm_hex_id r)) →
            (∀ x, x ∈ lm → same_public_key (lm_public_key x) (mm_hex_id r) →
                  lm_device_role x = LetsMeshNodeRole.ROOM) →
            (if _meshmapper_node_is_room r lm && list_truthy lm
             then NodeType.ROOM_SERVER else NodeType.REPEATER) = NodeType.ROOM_SERVER)
    as Hall.
  { intros r lm (x & Hx & Hkey) Hrooms. rewrite Hty.
    destruct (first_same_key (mm_hex_id r) lm) as [y|] eqn:Hfirst.
    - apply first_same_key_Some in Hfirst as [Hin Hy].
      by rewrite decide_True by (by apply Hrooms).
    - exfalso. by apply (first_same_key_None r lm Hfirst x Hx). }
  split.
  - intros mm lm. unfold get_den_repeaters.
    apply Forall2_fmap_r, Forall_Forall2_diag, Forall_forall. intros r _. cbn.
    split; [destruct (_ && _); auto |].
    split; [apply Honly |]. split; [apply Hall |].
    intros Hnd. split; [apply Honly |].
    intros (x & Hx & Hkey & Hroom). apply Hall; [eauto |].
    intros y Hy Hykey.
    assert (y = x) as ->; [| done].
    apply (distinct_keys_same_record lm); try done.
    unfold same_public_key in *. congruence.
  - intros r x Hkey Hroom. unfold get_den_repeaters. cbn. f_equal.
    rewrite andb_true_r.
    change (_meshmapper_node_is_room r [x]) with
      (if String.eqb (Str.upper (lm_public_key x)) (Str.upper (mm_hex_id r))
       then bool_decide (lm_device_role x = LetsMeshNodeRole.ROOM) else false).
    unfold same_public_key in Hkey. rewrite Hkey, String.eqb_refl.
    by rewrite bool_decide_eq_true_2.
Qed.

End Normalisers.

(** C3, at the failing input: the timestamp of the example is the UTC
    instant 1771377540 minus the offset of the local zone, so a process seven
    hours west of UTC gets 1771402740; text that is not a timestamp, and the
    empty string, give 0 in every zone. *)
Theorem iso8601_read_as_local_time :
  (∀ off, _iso8601_to_unix_timestamp off "2026-02-18T01:19:00.379Z"
          = 1771377540 - off 1771377540)
  ∧ _iso8601_to_unix_timestamp Sample.mst "2026-02-18T01:19:00.379Z" = 1771402740
  ∧ _iso8601_to_unix_timestamp Sample.utc "2026-02-18T01:19:00.379Z" = 1771377540
  ∧ (∀ off, _iso8601_to_unix_timestamp off "not-a-date" = 0)
  ∧ (∀ off, _iso8601_to_unix_timestamp off "" = 0)
  ∧ (∀ off s, Time.strptime s "%Y-%m-%dT%H:%M:%S.%fZ" = None →
              _iso8601_to_unix_timestamp off s = 0).
Proof.
  repeat split; try reflexivity.
  intros off s Hs. unfold _iso8601_to_unix_timestamp. rewrite Hs. by destruct s.
Qed.

(** The characters that read as a given capital letter or digit in upper
    case. *)
Lemma upper_char_cases c :
  (Str.upper_char c = "0"%char ↔ c = "0"%char)
  ∧ (Str.upper_char c = "F"%char ↔ c = "F"%char ∨ c = "f"%char)
  ∧ (Str.upper_char c = "A"%char ↔ c = "A"%char ∨ c = "a"%char).
Proof.
  destruct c as [[] [] [] [] [] [] [] []]; vm_compute;
    (split; [| split]); split; intros Hc;
    solve [ reflexivity | discriminate Hc | by left | by right
          | destruct Hc as [Hc|Hc]; discriminate Hc ].
Qed.

Lemma reserved_by_characters s :
  (Str.upper (Str.take 2 s) = "00" ∨ Str.upper (Str.take 2 s) = "FF"
   ∨ Str.upper (Str.take 1 s) = "A")
  ↔ (∃ rest, s = String "0" (String "0" rest))
    ∨ (∃ c1 c2 rest, s = String c1 (String c2 rest)
                     ∧ (c1 = "F"%char ∨ c1 = "f"%char) ∧ (c2 = "F"%char ∨ c2 = "f"%char))
    ∨ (∃ c rest, s = String c rest ∧ (c = "A"%char ∨ c = "a"%char)).
Proof.
  destruct s as [|c1 [|c2 rest]]; cbn.
  - split.
    + intros [H|[H|H]]; discriminate H.
    + intros [(? & H)|[(? & ? & ? & H & _)|(? & ? & H & _)]]; discriminate H.
  - destruct (upper_char_cases c1) as (_ & _ & HA). split.
    + intros [H|[H|H]]; try discriminate H.
      injection H as H. apply HA in H. right. right. eauto.
    + intros [(? & H)|[(? & ? & ? & H & _)|(? & ? & H & Hc)]]; try discriminate H.
      injection H as <- _. apply HA in Hc. right. right. by rewrite Hc.
  - destruct (upper_char_cases c1) as (H10 & H1F & H1A).
    destruct (upper_char_cases c2) as (H20 & H2F & _). split.
    + intros [H|[H|H]].
      * injection H as Ha Hb. apply H10 in Ha. apply H20 in Hb. subst. left. eauto.
      * injection H as Ha Hb. apply H1F in Ha. apply H2F in Hb. right. left. eauto 10.
      * injection H as Ha. apply H1A in Ha. right. right. eauto.
    + intros [(? & H)|[(? & ? & ? & H & Ha & Hb)|(? & ? & H & Ha)]].
      * injection H as -> ->. left. done.
      * injection H as <- <- _. apply H1F in Ha. apply H2F in Hb.
        right. left. by rewrite Ha, Hb.
      * injection H as <- _. apply H1A in Ha. right. right. by rewrite Ha.
Qed.

(** C8: an identifier is reserved exactly when its first two characters
    read [00] or [FF] in upper case or its first character reads [A] in upper
    case, that is when it begins with [00], with two letters [f] in either
    case, or with a letter [a] in either case, and it is not reserved
    otherwise; [00AB] and [A1] are reserved and [BCDE] is not. *)
Theorem reserved_public_key_id_spec :
  (∀ s, is_reserved_public_key_id s = true
        ↔ Str.upper (Str.take 2 s) = "00" ∨ Str.upper (Str.take 2 s) = "FF"
          ∨ Str.upper (Str.take 1 s) = "A")
  ∧ (∀ s, is_reserved_public_key_id s = true
          ↔ (∃ rest, s = String "0" (String "0" rest))
            ∨ (∃ c1 c2 rest, s = String c1 (String c2 rest)
                             ∧ (c1 = "F"%char ∨ c1 = "f"%char)
                             ∧ (c2 = "F"%char ∨ c2 = "f"%char))
            ∨ (∃ c rest, s = String c rest ∧ (c = "A"%char ∨ c = "a"%char)))
  ∧ is_reserved_public_key_id "00AB" = true
  ∧ is_reserved_public_key_id "A1" = true
  ∧ is_reserved_public_key_id "BCDE" = false.
Proof.
  assert (∀ s, is_reserved_public_key_id s = true
        ↔ Str.upper (Str.take 2 s) = "00" ∨ Str.upper (Str.take 2 s) = "FF"
          ∨ Str.upper (Str.take 1 s) = "A") as Hspec.
  { intros s. unfold is_reserved_public_key_id, Str.mem. cbn [existsb].
    rewrite !String_eqb_decide, !orb_false_r.
    destruct (decide (Str.upper (Str.take 2 s) = "00")) as [H0|H0].
    { rewrite (bool_decide_eq_true_2 _ H0). cbn. tauto. }
    destruct (decide (Str.upper (Str.take 2 s) = "FF")) as [H1|H1].
    { rewrite (bool_decide_eq_true_2 _ H1), orb_true_r. tauto. }
    rewrite (bool_decide_eq_false_2 _ H0), (bool_decide_eq_false_2 _ H1). cbn.
    destruct (decide (Str.upper (Str.take 1 s) = "A")) as [H2|H2].
    - rewrite (bool_decide_eq_true_2 _ H2). tauto.
    - rewrite (bool_decide_eq_false_2 _ H2). split; [done | tauto]. }
  split; [exact Hspec |]. split; [| by vm_compute].
  intros s. rewrite Hspec. apply reserved_by_characters.
Qed.

Section UnknownRoles.

Context {float : Type} (float_repr : float → string) (str_hash : string → Z)
  (quote : string → string) (local_utcoffset : Z → Z)
  (json_dumps : list (json_object float) → string)
  (json_load : string → result (list (json_object float)))
  (Node_init : json_object float → result (Node float))
  (int_max_str_digits : nat).

Lemma by_value_from_int v :
  LetsMeshNodeRole.by_value v
  = match LetsMeshNodeRole.from_int v with Ok role => Some role | Raise _ => None end.
Proof.
  change (LetsMeshNodeRole.by_value v)
    with (if 1 =? v then Some LetsMeshNodeRole.COMPANION
          else if 2 =? v then Some LetsMeshNodeRole.REPEATER
          else if 3 =? v then Some LetsMeshNodeRole.ROOM else None).
  unfold LetsMeshNodeRole.from_int.
  rewrite (Z.eqb_sym 1 v), (Z.eqb_sym 2 v), (Z.eqb_sym 3 v).
  by destruct (v =? 1), (v =? 2), (v =? 3).
Qed.

Lemma by_value_None v :
  LetsMeshNodeRole.by_value v = None ↔ v ≠ 1 ∧ v ≠ 2 ∧ v ≠ 3.
Proof.
  rewrite by_value_from_int. unfold LetsMeshNodeRole.from_int.
  destruct (Z.eqb_spec v 1); [split; [done | lia] |].
  destruct (Z.eqb_spec v 2); [split; [done | lia] |].
  destruct (Z.eqb_spec v 3); [split; [done | lia] |]. done.
Qed.

Lemma by_value_Some v role :
  LetsMeshNodeRole.by_value v = Some role ↔ LetsMeshNodeRole.value role = v.
Proof.
  rewrite by_value_from_int. unfold LetsMeshNodeRole.from_int.
  destruct (Z.eqb_spec v 1) as [->|]; [by destruct role |].
  destruct (Z.eqb_spec v 2) as [->|]; [by destruct role |].
  destruct (Z.eqb_spec v 3) as [->|]; [by destruct role |].
  split; [done |]. destruct role; cbn; lia.
Qed.

Lemma validate_Raise (item : LetsMeshItem float) e :
  LetsMeshNode_validate item = Raise e
  ↔ (item_device_role item ≠ 1 ∧ item_device_role item ≠ 2 ∧ item_device_role item ≠ 3)
    ∧ e = ValidationError_device_role (item_device_role item).
Proof.
  unfold LetsMeshNode_validate.
  destruct (LetsMeshNodeRole.by_value (item_device_role item)) as [role|] eqn:Hv.
  - split; [done |]. intros [Hno _]. apply by_value_None in Hno. congruence.
  - apply by_value_None in Hv. split.
    + intros [= <-]. done.
    + intros [_ ->]. done.
Qed.

Lemma validate_Ok (item : LetsMeshItem float) n :
  LetsMeshNode_validate item = Ok n
  ↔ LetsMeshNodeRole.value (lm_device_role n) = item_device_role item
    ∧ lm_public_key n = item_public_key item
    ∧ lm_name n = item_name item
    ∧ lm_regions n = item_regions item
    ∧ lm_first_seen n = item_first_seen item
    ∧ lm_last_seen n = item_last_seen item
    ∧ lm_is_mqtt_connected n = item_is_mqtt_connected item
    ∧ lm_location n = item_location item.
Proof.
  unfold LetsMeshNode_validate.
  destruct (LetsMeshNodeRole.by_value (item_device_role item)) as [role|] eqn:Hv.
  - apply by_value_Some in Hv. split.
    + intros [= <-]. cbn. done.
    + intros (Hrole & Hrest). destruct n as [pk nm rl rg fs ls mq lo]. cbn in *.
      destruct Hrest as (-> & -> & -> & -> & -> & -> & ->).
      assert (rl = role) as ->; [| done].
      destruct rl, role; cbn in *; congruence.
  - apply by_value_None in Hv. split; [done |].
    intros [Hrole _]. destruct (lm_device_role n); cbn in Hrole; lia.
Qed.

(** C9: an integer that is not 1, 2 or 3 is never turned into a role or
    a node type.  Both [from_int] raise [ValueError] exactly on such a value
    and give, on 1, 2 and 3, the variant with that value; the map from roles
    to node types never raises.  The lookup by value that validates the
    [device_role] of a LetsMesh item agrees with [from_int]: an item is
    refused exactly when its role is not 1, 2 or 3, and an accepted item
    keeps the role it came with.  One such item anywhere in the answer of
    LetsMesh makes [_get_letsmesh_nodes] raise, and with it the listing of
    the repeaters and of the companions, both synchronisations and [main],
    whichever of its two requests got the answer; an answer whose roles are
    all 1, 2 or 3 is accepted as a whole. *)
Theorem unknown_device_role_is_rejected :
  (∀ role, LetsMeshNodeRole.from_int role = Raise (ValueError_unknown_device_role role)
           ↔ role ≠ 1 ∧ role ≠ 2 ∧ role ≠ 3)
  ∧ (∀ role, NodeType.from_int role = Raise (ValueError_unknown_device_role role)
             ↔ role ≠ 1 ∧ role ≠ 2 ∧ role ≠ 3)
  ∧ (∀ role v, LetsMeshNodeRole.from_int role = Ok v ↔ LetsMeshNodeRole.value v = role)
  ∧ (∀ role v, NodeType.from_int role = Ok v ↔ NodeType.value v = role)
  ∧ LetsMeshNodeRole.to_node_type LetsMeshNodeRole.COMPANION = Ok NodeType.COMPANION
  ∧ LetsMeshNodeRole.to_node_type LetsMeshNodeRole.REPEATER = Ok NodeType.REPEATER
  ∧ LetsMeshNodeRole.to_node_type LetsMeshNodeRole.ROOM = Ok NodeType.ROOM_SERVER
  ∧ (∀ v, LetsMeshNodeRole.by_value v
          = match LetsMeshNodeRole.from_int v with
            | Ok role => Some role
            | Raise _ => None
            end)
  ∧ (∀ item : LetsMeshItem float,
       LetsMeshNode_validate item
       = Raise (ValidationError_device_role (item_device_role item))
       ↔ item_device_role item ≠ 1 ∧ item_device_role item ≠ 2
         ∧ item_device_role item ≠ 3)
  ∧ (∀ (item : LetsMeshItem float) n,
       LetsMeshNode_validate item = Ok n →
       LetsMeshNodeRole.value (lm_device_role n) = item_device_role item)
  ∧ (∀ (answer : list (LetsMeshItem float)) item,
       item ∈ answer →
       item_device_role item ≠ 1 ∧ item_device_role item ≠ 2
       ∧ item_device_role item ≠ 3 →
       ∃ role,
         (role ≠ 1 ∧ role ≠ 2 ∧ role ≠ 3)
         ∧ _get_letsmesh_nodes answer = Raise (ValidationError_device_role role)
         ∧ (∀ mm,
              get_den_repeaters_of_answers quote int_max_str_digits mm answer
              = Raise (ValidationError_device_role role))
         ∧ get_den_companions_of_answer quote local_utcoffset answer
           = Raise (ValidationError_device_role role)
         ∧ (∀ path mm fs,
              sync_repeaters_of_answers float_repr str_hash quote json_dumps json_load
                Node_init int_max_str_digits path mm answer fs
              = Raise (ValidationError_device_role role))
         ∧ (∀ path fs,
              sync_companions_of_answer float_repr str_hash quote local_utcoffset
                json_dumps json_load Node_init path answer fs
              = Raise (ValidationError_device_role role))
         ∧ (∀ repeaters_path companions_path mm answer_2 fs,
              main_of_answers float_repr str_hash quote local_utcoffset json_dumps
                json_load Node_init int_max_str_digits repeaters_path companions_path
                mm answer answer_2 fs
              = Raise (ValidationError_device_role role))
         ∧ (∀ repeaters_path companions_path mm answer_1 fs,
              ∃ e,
                main_of_answers float_repr str_hash quote local_utcoffset json_dumps
                  json_load Node_init int_max_str_digits repeaters_path companions_path
                  mm answer_1 answer fs
                = Raise e))
  ∧ (∀ answer : list (LetsMeshItem float),
       Forall (λ item, item_device_role item = 1 ∨ item_device_role item = 2
                       ∨ item_device_role item = 3) answer →
       ∃ letsmesh_nodes,
         _get_letsmesh_nodes answer = Ok letsmesh_nodes
         ∧ Forall2 (λ item n,
                      LetsMeshNodeRole.value (lm_device_role n) = item_device_role item)
             answer letsmesh_nodes
         ∧ get_den_companions_of_answer quote local_utcoffset answer
           = get_den_companions quote local_utcoffset letsmesh_nodes).
Proof.
  split; [| split; [| split; [| split; [| split; [reflexivity |]; split; [reflexivity |];
    split; [reflexivity |]; split; [| split; [| split; [| split]]]]]]].
  - intros role. unfold LetsMeshNodeRole.from_int.
    destruct (Z.eqb_spec role 1); [split; [done | lia] |].
    destruct (Z.eqb_spec role 2); [split; [done | lia] |].
    destruct (Z.eqb_spec role 3); [split; [done | lia] |]. done.
  - intros role. unfold NodeType.from_int.
    destruct (Z.eqb_spec role 1); [split; [done | lia] |].
    destruct (Z.eqb_spec role 2); [split; [done | lia] |].
    destruct (Z.eqb_spec role 3); [split; [done | lia] |]. done.
  - intros role v. unfold LetsMeshNodeRole.from_int.
    destruct (Z.eqb_spec role 1) as [->|]; [by destruct v |].
    destruct (Z.eqb_spec role 2) as [->|]; [by destruct v |].
    destruct (Z.eqb_spec role 3) as [->|]; [by destruct v |].
    split; [done |]. destruct v; cbn; lia.
  - intros role v. unfold NodeType.from_int.
    destruct (Z.eqb_spec role 1) as [->|]; [by destruct v |].
    destruct (Z.eqb_spec role 2) as [->|]; [by destruct v |].
    destruct (Z.eqb_spec role 3) as [->|]; [by destruct v |].
    split; [done |]. destruct v; cbn; lia.
  - exact by_value_from_int.
  - intros item. rewrite validate_Raise. tauto.
  - intros item n Hn. by apply validate_Ok in Hn as [Hrole _].
  - intros answer item Hin Hbad.
    destruct (mapM_result_some_Raise LetsMeshNode_validate answer item Hin)
      as (bad & e & Hbadin & Hbadrun & Hrun).
    { eexists. apply validate_Raise. split; [exact Hbad | reflexivity]. }
    apply validate_Raise in Hbadrun as [Hrole ->].
    exists (item_device_role bad). split; [exact Hrole |].
    assert (∀ mm,
              get_den_repeaters_of_answers quote int_max_str_digits mm answer
              = Raise (ValidationError_device_role (item_device_role bad))) as Hrep.
    { intros mm. unfold get_den_repeaters_of_answers, _get_letsmesh_nodes.
      by rewrite Hrun. }
    assert (get_den_companions_of_answer quote local_utcoffset answer
            = Raise (ValidationError_device_role (item_device_role bad))) as Hcomp.
    { unfold get_den_companions_of_answer, _get_letsmesh_nodes. by rewrite Hrun. }
    assert (∀ path mm fs,
              sync_repeaters_of_answers float_repr str_hash quote json_dumps json_load
                Node_init int_max_str_digits path mm answer fs
              = Raise (ValidationError_device_role (item_device_role bad))) as Hsr.
    { intros path mm fs. unfold sync_repeaters_of_answers. by rewrite Hrep. }
    assert (∀ path fs,
              sync_companions_of_answer float_repr str_hash quote local_utcoffset
                json_dumps json_load Node_init path answer fs
              = Raise (ValidationError_device_role (item_device_role bad))) as Hsc.
    { intros path fs. unfold sync_companions_of_answer. by rewrite Hcomp. }
    split; [exact Hrun |]. split; [exact Hrep |]. split; [exact Hcomp |].
    split; [exact Hsr |]. split; [exact Hsc |]. split.
    + intros rp cp mm answer_2 fs. unfold main_of_answers. by rewrite Hsr.
    + intros rp cp mm answer_1 fs. unfold main_of_answers.
      destruct (sync_repeaters_of_answers _ _ _ _ _ _ _ _ _ _ _) as [fs'|e'];
        cbn; [| by eexists].
      rewrite Hsc. by eexists.
  - intros answer Hknown.
    destruct (mapM_result_Forall2 LetsMeshNode_validate
                (λ item n,
                   LetsMeshNodeRole.value (lm_device_role n) = item_device_role item)
                answer) as (lm & Hrun & HF).
    { intros item Hin. rewrite Forall_forall in Hknown. specialize (Hknown item Hin).
      destruct (LetsMeshNode_validate item) as [n|e] eqn:Hv.
      - exists n. split; [done |]. by apply validate_Ok in Hv as [Hrole _].
      - apply validate_Raise in Hv as [Hno _]. lia. }
    exists lm. split; [exact Hrun |]. split; [exact HF |].
    unfold get_den_companions_of_answer, _get_letsmesh_nodes. by rewrite Hrun.
Qed.

End UnknownRoles.

(** ** The properties on the concrete environment *)

Lemma Sample_repr_well_behaved : repr_well_behaved Sample.float_repr.
Proof.
  split.
  - intros [] [] Heq; try reflexivity; discriminate Heq.
  - intros []; cbn; absent_char.
  - intros []; discriminate.
Qed.

(** A snapshot that already holds a node with the fingerprint of the
    observed node [o]: [o] is reported unchanged, not new, although the
    snapshot also holds [e] with the same key and another name. *)
Lemma changed_node_not_new_counterexample :
  Sample.old_node ∈ [Sample.old_node; Sample.renamed_node_before]
  ∧ Sample.renamed_node ∈ [Sample.renamed_node]
  ∧ same_public_key (public_key Sample.old_node) (public_key Sample.renamed_node)
  ∧ name Sample.old_node ≠ name Sample.renamed_node
  ∧ Node_hash Sample.float_repr Sample.str_hash Sample.old_node
    ≠ Node_hash Sample.float_repr Sample.str_hash Sample.renamed_node
  ∧ ∃ new duplicate missing,
      _filter_diff_nodes Sample.float_repr Sample.str_hash
        [Sample.old_node; Sample.renamed_node_before] [Sample.renamed_node]
      = Ok (new, duplicate, missing)
      ∧ duplicate = [Sample.renamed_node] ∧ missing = [Sample.old_node]
      ∧ Sample.renamed_node ∉ new.
Proof.
  split; [left |]. split; [left |]. split; [reflexivity |].
  split; [discriminate |]. split; [by vm_compute |].
  exists [], [Sample.renamed_node], [Sample.old_node].
  split; [by vm_compute |]. split; [done |]. split; [done |]. apply not_elem_of_nil.
Qed.

Lemma changed_node_is_new_and_missing_witness :
  Node_hash Sample.float_repr Sample.str_hash Sample.old_node
  ≠ Node_hash Sample.float_repr Sample.str_hash Sample.renamed_node
  ∧ Sample.renamed_node ∈ [Sample.renamed_node]
  ∧ Sample.old_node ∈ [Sample.old_node]
  ∧ (Sample.renamed_node ∉ ([] : list (Node Sample.float)))
  ∧ (Sample.old_node ∉ ([] : list (Node Sample.float))).
Proof.
  apply (changed_node_is_new_and_missing Sample.float_repr Sample.str_hash
           [Sample.old_node] [Sample.renamed_node]
           [Sample.renamed_node] [] [Sample.old_node]).
  - vm_compute. reflexivity.
  - left.
  - left.
  - reflexivity.
  - intros (Hname & _). discriminate Hname.
  - exact Sample_repr_well_behaved.
  - intros Heq. vm_compute in Heq. discriminate Heq.
  - intros x Hx _. by apply list_elem_of_singleton in Hx.
  - intros x Hx _. by apply list_elem_of_singleton in Hx.
  - intros x Hx _. by apply list_elem_of_singleton in Hx.
  - intros x Hx Hfp. apply list_elem_of_singleton in Hx. subst x.
    vm_compute in Hfp. discriminate Hfp.
Defined.

Lemma noop_idempotence_witness :
  ∃ unchanged,
    _filter_diff_nodes Sample.float_repr Sample.str_hash
      [Sample.old_node; Sample.renamed_node] [Sample.old_node; Sample.renamed_node]
    = Ok ([], unchanged, [])
    ∧ unchanged ≡ₚ [Sample.old_node; Sample.renamed_node].
Proof.
  apply (noop_idempotence Sample.float_repr Sample.str_hash
           [Sample.old_node; Sample.renamed_node]).
  vm_compute. apply NoDup_cons. split.
  - intros Hin. apply list_elem_of_singleton in Hin. discriminate Hin.
  - apply NoDup_singleton.
Defined.

Lemma unchanged_nodes_are_observed_witness :
  (∀ n, n ∈ [Sample.renamed_node] →
        last_with_hash Sample.float_repr Sample.str_hash
          (Node_hash Sample.float_repr Sample.str_hash n) [Sample.renamed_node] = Some n
        ∧ n ∈ [Sample.renamed_node])
  ∧ (∀ h, h ∈ fingerprints Sample.float_repr Sample.str_hash [Sample.renamed_node_before] →
          h ∈ fingerprints Sample.float_repr Sample.str_hash [Sample.renamed_node] →
          (h ∉ fingerprints Sample.float_repr Sample.str_hash [])
          ∧ (h ∉ fingerprints Sample.float_repr Sample.str_hash [])
          ∧ ∃ n, n ∈ [Sample.renamed_node]
                 ∧ Node_hash Sample.float_repr Sample.str_hash n = h
                 ∧ last_with_hash Sample.float_repr Sample.str_hash h [Sample.renamed_node]
                   = Some n).
Proof.
  apply (unchanged_nodes_are_observed Sample.float_repr Sample.str_hash
           [Sample.renamed_node_before] [Sample.renamed_node]
           [] [Sample.renamed_node] []).
  vm_compute. reflexivity.
Defined.

Lemma write_suppression_witness :
  last_heard <$> get_den_repeaters Sample.quote [Sample.repeater_AB12 1771377540] []
  ≠ last_heard <$> get_den_repeaters Sample.quote [Sample.repeater_AB12 1771370000] []
  ∧ sync_repeaters Sample.float_repr Sample.str_hash Sample.quote Sample.json_dumps
      (Sample.json_load Sample.snapshot_documents) Sample.Node_init
      "repeaters.json" [Sample.repeater_AB12 1771377540] []
      {[ "repeaters.json" := Sample.snapshot_text 1771370000 ]}
    = Ok {[ "repeaters.json" := Sample.snapshot_text 1771370000 ]}.
Proof.
  split; [discriminate |].
  assert (_read_nodes_from_file (Sample.json_load Sample.snapshot_documents)
            Sample.Node_init {[ "repeaters.json" := Sample.snapshot_text 1771370000 ]}
            "repeaters.json"
          = Ok (get_den_repeaters Sample.quote [Sample.repeater_AB12 1771370000] []))
    as Hread by (vm_compute; reflexivity).
  assert (_filter_diff_nodes Sample.float_repr Sample.str_hash
            (get_den_repeaters Sample.quote [Sample.repeater_AB12 1771370000] [])
            (get_den_repeaters Sample.quote [Sample.repeater_AB12 1771377540] [])
          = Ok ([], get_den_repeaters Sample.quote [Sample.repeater_AB12 1771377540] [], []))
    as Hrec by (vm_compute; reflexivity).
  pose proof (write_suppression Sample.float_repr Sample.str_hash Sample.quote Sample.utc
                Sample.json_dumps (Sample.json_load Sample.snapshot_documents)
                Sample.Node_init _ _ _ _ _ Hread Hrec) as [Hrep _].
  exact (Hrep _ _ eq_refl).
Defined.

Lemma full_overwrite_witness :
  sync_repeaters Sample.float_repr Sample.str_hash Sample.quote Sample.json_dumps
    (Sample.json_load Sample.snapshot_documents) Sample.Node_init
    "repeaters.json" [Sample.repeater_AB12 1771370000] []
    {[ "repeaters.json" := Sample.json_dumps (Node_to_json <$> [Sample.old_node]) ]}
  = Ok (<[ "repeaters.json" := Sample.snapshot_text 1771370000 ]>
          {[ "repeaters.json" := Sample.json_dumps (Node_to_json <$> [Sample.old_node]) ]})
  ∧ _read_nodes_from_file (Sample.json_load Sample.snapshot_documents) Sample.Node_init
      (<[ "repeaters.json" := Sample.snapshot_text 1771370000 ]>
         {[ "repeaters.json" := Sample.json_dumps (Node_to_json <$> [Sample.old_node]) ]})
      "repeaters.json"
    = Ok (get_den_repeaters Sample.quote [Sample.repeater_AB12 1771370000] []).
Proof.
  assert (_read_nodes_from_file (Sample.json_load Sample.snapshot_documents)
            Sample.Node_init
            {[ "repeaters.json" := Sample.json_dumps (Node_to_json <$> [Sample.old_node]) ]}
            "repeaters.json"
          = Ok [Sample.old_node])
    as Hread by (vm_compute; reflexivity).
  assert (_filter_diff_nodes Sample.float_repr Sample.str_hash [Sample.old_node]
            (get_den_repeaters Sample.quote [Sample.repeater_AB12 1771370000] [])
          = Ok (get_den_repeaters Sample.quote [Sample.repeater_AB12 1771370000] [],
                [], [Sample.old_node]))
    as Hrec by (vm_compute; reflexivity).
  assert (get_den_repeaters Sample.quote [Sample.repeater_AB12 1771370000] [] ≠ []
          ∨ [Sample.old_node] ≠ []) as Hch by (right; discriminate).
  pose proof (full_overwrite Sample.float_repr Sample.str_hash Sample.quote Sample.utc
                Sample.json_dumps (Sample.json_load Sample.snapshot_documents)
                Sample.Node_init _ _ _ _ _ _ _ Hread Hrec Hch) as Hthm.
  cbv zeta in Hthm. destruct Hthm as (Hrep & _ & _ & _ & _ & _ & _ & _ & Hback).
  split; [exact (Hrep _ _ eq_refl) |].
  apply Hback.
  - vm_compute. reflexivity.
  - intros n Hn. apply list_elem_of_singleton in Hn. subst n. reflexivity.
Defined.

(** A LetsMesh room whose public key begins with the identifier of the
    repeater, without being equal to it, does not make the repeater a room
    server. *)
Lemma prefix_key_is_not_room_counterexample :
  mm_hex_id (Sample.repeater_AB12 1771377540) = "AB12"
  ∧ Str.take 4 (lm_public_key Sample.room_AB12CDEF) = "AB12"
  ∧ lm_device_role Sample.room_AB12CDEF = LetsMeshNodeRole.ROOM
  ∧ node_type <$> get_den_repeaters Sample.quote
                    [Sample.repeater_AB12 1771377540] [Sample.room_AB12CDEF]
    = [NodeType.REPEATER].
Proof. repeat split. Qed.

(** ** Further properties *)

(** *** Reconciliation *)

Lemma remove_dups_length_le `{EqDecision A} (l : list A) :
  (length (remove_dups l) ≤ length l)%nat.
Proof.
  induction l as [|x l IH]; cbn; [done |]. destruct (decide_rel _ _ _); cbn; lia.
Qed.

Section ReconciliationMore.

Context {float : Type} (float_repr : float → string) (str_hash : string → Z).

Local Abbreviation fp := (Node_hash float_repr str_hash).
Local Abbreviation fps := (fingerprints float_repr str_hash).
Local Abbreviation lwh := (last_with_hash float_repr str_hash).
Local Abbreviation reconcile := (_filter_diff_nodes float_repr str_hash).

Implicit Types (n : Node float) (l : list (Node float)) (h : Z).

(** A list of nodes with pairwise distinct fingerprints is known by its
    members. *)
Lemma resolved_list_unique l k :
  NoDup (fps l) → NoDup (fps k) → (∀ n, n ∈ l ↔ n ∈ k) → l ≡ₚ k.
Proof.
  intros Hl Hk Hiff. apply NoDup_Permutation; [| | done].
  - by eapply NoDup_fmap_1.
  - by eapply NoDup_fmap_1.
Qed.

Lemma reconciled_new_iff existing observed new duplicate missing n :
  reconciled float_repr str_hash existing observed new duplicate missing →
  n ∈ new ↔ lwh (fp n) observed = Some n ∧ fp n ∉ fps existing.
Proof.
  intros [_ _ _ F1 _ _ R1 _ _]. split.
  - intros Hn. split; [by apply R1 |].
    assert (fp n ∈ fps new) as Hh by (apply list_elem_of_fmap; eauto).
    apply F1 in Hh. tauto.
  - intros [Hl Hno].
    assert (fp n ∈ fps new) as Hh.
    { apply F1. split; [| done]. apply last_with_hash_is_Some. eauto. }
    apply list_elem_of_fmap in Hh as (m & Hm & Hin).
    pose proof (R1 m Hin) as Hlm. rewrite <- Hm, Hl in Hlm. by injection Hlm as <-.
Qed.

Lemma reconciled_missing_iff existing observed new duplicate missing n :
  reconciled float_repr str_hash existing observed new duplicate missing →
  n ∈ missing ↔ lwh (fp n) existing = Some n ∧ fp n ∉ fps observed.
Proof.
  intros [_ _ _ _ _ F3 _ _ R3]. split.
  - intros Hn. split; [by apply R3 |].
    assert (fp n ∈ fps missing) as Hh by (apply list_elem_of_fmap; eauto).
    apply F3 in Hh. tauto.
  - intros [Hl Hno].
    assert (fp n ∈ fps missing) as Hh.
    { apply F3. split; [| done]. apply last_with_hash_is_Some. eauto. }
    apply list_elem_of_fmap in Hh as (m & Hm & Hin).
    pose proof (R3 m Hin) as Hlm. rewrite <- Hm, Hl in Hlm. by injection Hlm as <-.
Qed.

(** X1: reconciliation never invents or repeats a node: the new and the
    unchanged nodes are observed nodes, the missing nodes are nodes of the
    snapshot, and no list holds a node twice. *)
Theorem reconciliation_returns_input_nodes existing observed :
  ∃ new duplicate missing,
    _filter_diff_nodes float_repr str_hash existing observed
    = Ok (new, duplicate, missing)
    ∧ new ⊆ observed ∧ duplicate ⊆ observed ∧ missing ⊆ existing
    ∧ NoDup new ∧ NoDup duplicate ∧ NoDup missing.
Proof.
  destruct (filter_diff_nodes_spec float_repr str_hash existing observed)
    as (new & dup & missing & Hrun & Hspec).
  exists new, dup, missing. split; [exact Hrun |].
  destruct Hspec as [N1 N2 N3 _ _ _ R1 R2 R3].
  repeat split.
  - intros n Hn. apply R1 in Hn. by apply last_with_hash_Some in Hn as [_ ?].
  - intros n Hn. apply R2 in Hn. by apply last_with_hash_Some in Hn as [_ ?].
  - intros n Hn. apply R3 in Hn. by apply last_with_hash_Some in Hn as [_ ?].
  - by eapply NoDup_fmap_1.
  - by eapply NoDup_fmap_1.
  - by eapply NoDup_fmap_1.
Qed.

(** X2: exchanging the snapshot and the observation exchanges the new
    and the missing nodes, and keeps the fingerprints of the unchanged ones. *)
Theorem reconciliation_swap existing observed :
  ∃ new duplicate missing new' duplicate' missing',
    _filter_diff_nodes float_repr str_hash existing observed
    = Ok (new, duplicate, missing)
    ∧ _filter_diff_nodes float_repr str_hash observed existing
      = Ok (new', duplicate', missing')
    ∧ new ≡ₚ missing' ∧ missing ≡ₚ new'
    ∧ fingerprints float_repr str_hash duplicate
      ≡ₚ fingerprints float_repr str_hash duplicate'.
Proof.
  destruct (filter_diff_nodes_spec float_repr str_hash existing observed)
    as (new & dup & missing & Hrun & Hspec).
  destruct (filter_diff_nodes_spec float_repr str_hash observed existing)
    as (new' & dup' & missing' & Hrun' & Hspec').
  exists new, dup, missing, new', dup', missing'.
  split; [exact Hrun |]. split; [exact Hrun' |].
  pose proof (λ n, reconciled_new_iff _ _ _ _ _ n Hspec) as Hn.
  pose proof (λ n, reconciled_missing_iff _ _ _ _ _ n Hspec) as Hm.
  pose proof (λ n, reconciled_new_iff _ _ _ _ _ n Hspec') as Hn'.
  pose proof (λ n, reconciled_missing_iff _ _ _ _ _ n Hspec') as Hm'.
  destruct Hspec as [N1 N2 N3 _ F2 _ _ _ _].
  destruct Hspec' as [N1' N2' N3' _ F2' _ _ _ _].
  split; [| split].
  - apply resolved_list_unique; [done | done |]. intros n. by rewrite Hn, Hm'.
  - apply resolved_list_unique; [done | done |]. intros n. by rewrite Hm, Hn'.
  - apply NoDup_Permutation; [done | done |]. intros h. rewrite F2, F2'. tauto.
Qed.

(** X3: the lists count fingerprints, not nodes: the new and the
    unchanged nodes together are as many as the distinct fingerprints of the
    observation, the unchanged and the missing ones as many as those of the
    snapshot; nodes of one source that share a fingerprint are counted once. *)
Theorem reconciliation_counts existing observed :
  ∃ new duplicate missing,
    _filter_diff_nodes float_repr str_hash existing observed
    = Ok (new, duplicate, missing)
    ∧ (length new + length duplicate
       = length (remove_dups (fingerprints float_repr str_hash observed)))%nat
    ∧ (length duplicate + length missing
       = length (remove_dups (fingerprints float_repr str_hash existing)))%nat
    ∧ (length new + length duplicate ≤ length observed)%nat
    ∧ (length duplicate + length missing ≤ length existing)%nat.
Proof.
  destruct (filter_diff_nodes_spec float_repr str_hash existing observed)
    as (new & dup & missing & Hrun & Hspec).
  exists new, dup, missing. split; [exact Hrun |].
  destruct Hspec as [N1 N2 N3 F1 F2 F3 _ _ _].
  assert (fps new ++ fps dup ≡ₚ remove_dups (fps observed)) as Hobs.
  { apply NoDup_Permutation.
    - apply NoDup_app. split; [done |]. split; [| done].
      intros h Hh Hin. apply F1 in Hh. apply F2 in Hin. tauto.
    - apply NoDup_remove_dups.
    - intros h. rewrite elem_of_app, elem_of_remove_dups, F1, F2.
      destruct (decide (h ∈ fps existing)); tauto. }
  assert (fps dup ++ fps missing ≡ₚ remove_dups (fps existing)) as Hex.
  { apply NoDup_Permutation.
    - apply NoDup_app. split; [done |]. split; [| done].
      intros h Hh Hin. apply F2 in Hh. apply F3 in Hin. tauto.
    - apply NoDup_remove_dups.
    - intros h. rewrite elem_of_app, elem_of_remove_dups, F2, F3.
      destruct (decide (h ∈ fps observed)); tauto. }
  apply Permutation_length in Hobs, Hex.
  unfold fingerprints in Hobs, Hex.
  rewrite length_app, !length_fmap in Hobs, Hex.
  pose proof (remove_dups_length_le (Node_hash float_repr str_hash <$> observed)) as Lo.
  pose proof (remove_dups_length_le (Node_hash float_repr str_hash <$> existing)) as Le.
  rewrite length_fmap in Lo, Le.
  unfold fingerprints. lia.
Qed.

Lemma fingerprints_none l : (∀ h, h ∉ fps l) → l = [].
Proof.
  destruct l as [|n l]; [done |]. intros Hno. exfalso.
  apply (Hno (fp n)). apply list_elem_of_fmap. exists n. split; [done | left].
Qed.

Lemma reconcile_empty_snapshot l :
  ∃ new,
    reconcile [] l = Ok (new, [], [])
    ∧ fps new ≡ₚ remove_dups (fps l) ∧ new ⊆ l.
Proof.
  destruct (filter_diff_nodes_spec float_repr str_hash [] l)
    as (new & dup & missing & Hrun & Hspec).
  destruct Hspec as [N1 _ _ F1 F2 F3 R1 _ _].
  assert (dup = []) as ->.
  { apply fingerprints_none. intros h Hh. apply F2 in Hh as [_ Hh].
    by apply not_elem_of_nil in Hh. }
  assert (missing = []) as ->.
  { apply fingerprints_none. intros h Hh. apply F3 in Hh as [Hh _].
    by apply not_elem_of_nil in Hh. }
  exists new. split; [exact Hrun |]. split.
  - apply NoDup_Permutation; [done | apply NoDup_remove_dups |].
    intros h. rewrite elem_of_remove_dups, F1. split; [tauto |].
    intros Hh. split; [done | apply not_elem_of_nil].
  - intros n Hn. apply R1 in Hn. by apply last_with_hash_Some in Hn as [_ ?].
Qed.

Lemma reconcile_empty_observation l :
  ∃ missing,
    reconcile l [] = Ok ([], [], missing)
    ∧ fps missing ≡ₚ remove_dups (fps l) ∧ missing ⊆ l.
Proof.
  destruct (filter_diff_nodes_spec float_repr str_hash l [])
    as (new & dup & missing & Hrun & Hspec).
  destruct Hspec as [_ _ N3 F1 F2 F3 _ _ R3].
  assert (new = []) as ->.
  { apply fingerprints_none. intros h Hh. apply F1 in Hh as [Hh _].
    by apply not_elem_of_nil in Hh. }
  assert (dup = []) as ->.
  { apply fingerprints_none. intros h Hh. apply F2 in Hh as [Hh _].
    by apply not_elem_of_nil in Hh. }
  exists missing. split; [exact Hrun |]. split.
  - apply NoDup_Permutation; [done | apply NoDup_remove_dups |].
    intros h. rewrite elem_of_remove_dups, F3. split; [tauto |].
    intros Hh. split; [done | apply not_elem_of_nil].
  - intros n Hn. apply R3 in Hn. by apply last_with_hash_Some in Hn as [_ ?].
Qed.

(** X4: against an empty snapshot every observed fingerprint is new, and
    against an empty observation every fingerprint of the snapshot is
    missing; the other two lists are empty. *)
Theorem reconciliation_with_empty_side l :
  (∃ new,
     _filter_diff_nodes float_repr str_hash [] l = Ok (new, [], [])
     ∧ fingerprints float_repr str_hash new
       ≡ₚ remove_dups (fingerprints float_repr str_hash l)
     ∧ new ⊆ l)
  ∧ (∃ missing,
       _filter_diff_nodes float_repr str_hash l [] = Ok ([], [], missing)
       ∧ fingerprints float_repr str_hash missing
         ≡ₚ remove_dups (fingerprints float_repr str_hash l)
       ∧ missing ⊆ l).
Proof.
  split; [apply reconcile_empty_snapshot | apply reconcile_empty_observation].
Qed.

Lemma same_short_id_same_fingerprint a b :
  Node_public_key_id a = Node_public_key_id b →
  same_content a b →
  is_observer a = is_observer b →
  fp a = fp b.
Proof.
  intros Hid (Hn & Hla & Hlo & Hty) Hob.
  unfold Node_hash, Node_hash_input. by rewrite Hid, Hn, Hla, Hlo, Hty, Hob.
Qed.

(** X5: the fingerprint reads the public key through its first four
    characters in upper case only.  A snapshot node [a] and an observed node
    [b] that agree on those, on name, location, node type and observer flag
    have the same fingerprint, whatever the rest of their keys, their contact
    and their timestamps are, and [b] is reported unchanged. *)
Theorem key_beyond_prefix_is_ignored (a b : Node float) :
  Str.upper (Str.take 4 (public_key a)) = Str.upper (Str.take 4 (public_key b)) →
  same_content a b →
  is_observer a = is_observer b →
  Node_hash float_repr str_hash a = Node_hash float_repr str_hash b
  ∧ _filter_diff_nodes float_repr str_hash [a] [b] = Ok ([], [b], []).
Proof.
  intros Hid Hc Hob.
  pose proof (same_short_id_same_fingerprint a b Hid Hc Hob) as Hfp.
  split; [exact Hfp |].
  destruct (filter_diff_nodes_spec float_repr str_hash [a] [b])
    as (new & dup & missing & Hrun & Hspec).
  destruct Hspec as [_ N2 _ F1 F2 F3 _ R2 _].
  assert (∀ h, h ∈ fps [a] ↔ h = fp a) as Ha.
  { intros h. unfold fingerprints. cbn. apply list_elem_of_singleton. }
  assert (∀ h, h ∈ fps [b] ↔ h = fp a) as Hb.
  { intros h. unfold fingerprints. cbn. rewrite <- Hfp. apply list_elem_of_singleton. }
  assert (new = []) as ->.
  { apply fingerprints_none. intros h Hh. apply F1 in Hh as [H1 H2].
    apply H2, Ha. by apply Hb. }
  assert (missing = []) as ->.
  { apply fingerprints_none. intros h Hh. apply F3 in Hh as [H1 H2].
    apply H2, Hb. by apply Ha. }
  assert (∀ n, n ∈ dup → n = b) as Hall.
  { intros n Hn. apply R2 in Hn. apply last_with_hash_Some in Hn as [_ Hn].
    by apply list_elem_of_singleton in Hn. }
  assert (fp b ∈ fps dup) as Hin by (apply F2; rewrite Ha, Hb; done).
  apply NoDup_fmap_1 in N2.
  destruct dup as [|n [|m dup]].
  - by apply not_elem_of_nil in Hin.
  - rewrite Hrun. by rewrite (Hall n) by left.
  - exfalso. apply NoDup_cons in N2 as [Hnm _]. apply Hnm.
    rewrite (Hall n) by left. rewrite (Hall m) by (right; left). left.
Qed.

End ReconciliationMore.

(** *** The snapshot store *)

Section StoreMore.

Context {float : Type} (float_repr : float → string) (str_hash : string → Z)
  (quote : string → string) (local_utcoffset : Z → Z)
  (json_dumps : list (json_object float) → string)
  (json_load : string → result (list (json_object float)))
  (Node_init : json_object float → result (Node float)).

Local Abbreviation reconcile := (_filter_diff_nodes float_repr str_hash).
Local Abbreviation fps := (fingerprints float_repr str_hash).
Local Abbreviation read := (_read_nodes_from_file json_load Node_init).
Local Abbreviation sync := (sync_nodes float_repr str_hash json_dumps json_load Node_init).
Local Abbreviation repeaters_sync :=
  (sync_repeaters float_repr str_hash quote json_dumps json_load Node_init).
Local Abbreviation companions_sync :=
  (sync_companions float_repr str_hash quote local_utcoffset json_dumps json_load Node_init).
Local Abbreviation dump := (λ observed : list (Node float), json_dumps (Node_to_json <$> observed)).

Implicit Types (fs : gmap string string) (path : string).

(** A run that returns has either left the file system alone or bound the
    path to the serialisation of the observation, and it does the same on
    every file system with the same file at the path. *)
Lemma sync_nodes_local path observed fs fs' fs2 :
  fs2 !! path = fs !! path →
  sync path observed fs = Ok fs' →
  (fs' = fs ∧ sync path observed fs2 = Ok fs2)
  ∨ (fs' = <[path := dump observed]> fs
     ∧ sync path observed fs2 = Ok (<[path := dump observed]> fs2)).
Proof.
  intros Hsame. unfold sync_nodes.
  assert (read fs2 path = read fs path) as ->
    by (unfold _read_nodes_from_file; by rewrite Hsame).
  destruct (read fs path) as [existing|e]; [| done].
  change (Ok existing ≫= ?k) with (k existing). cbv beta.
  destruct (reconcile existing observed) as [[[new dup] missing]|e]; [| done].
  cbn. destruct (list_truthy new || list_truthy missing); intros [= <-];
    [right | left]; done.
Qed.

Lemma sync_nodes_result path observed fs fs' :
  sync path observed fs = Ok fs' →
  fs' = fs ∨ fs' = <[path := dump observed]> fs.
Proof.
  intros Hrun.
  destruct (sync_nodes_local path observed fs fs' fs eq_refl Hrun) as [[-> _]|[-> _]];
    auto.
Qed.

Lemma sync_nodes_by_fingerprints path observed fs existing :
  read fs path = Ok existing →
  ((∀ h, h ∈ fps existing ↔ h ∈ fps observed) → sync path observed fs = Ok fs)
  ∧ (¬ (∀ h, h ∈ fps existing ↔ h ∈ fps observed) →
     sync path observed fs = Ok (<[path := dump observed]> fs)).
Proof.
  intros Hread. split.
  - intros Hsame.
    apply (no_change_iff_fingerprint_identical float_repr str_hash) in Hsame
      as [dup Hrec].
    eapply sync_nodes_unchanged; [exact Hread | exact Hrec].
  - intros Hdiff.
    destruct (filter_diff_nodes_spec float_repr str_hash existing observed)
      as (new & dup & missing & Hrun & _).
    eapply sync_nodes_changed; [exact Hread | exact Hrun |].
    destruct new as [|n new]; [| by left].
    destruct missing as [|m missing]; [| by right].
    exfalso. apply Hdiff.
    apply (no_change_iff_fingerprint_identical float_repr str_hash). eauto.
Qed.

(** X6: the file is rewritten exactly when the set of fingerprints
    changed.  With the snapshot read, [sync_repeaters] and [sync_companions]
    return the file system untouched when snapshot and observation have the
    same fingerprints, and with the file replaced by the serialised
    observation when they do not. *)
Theorem rewrite_iff_fingerprints_changed path observed fs existing :
  _read_nodes_from_file json_load Node_init fs path = Ok existing →
  let same :=
    ∀ h, h ∈ fingerprints float_repr str_hash existing
         ↔ h ∈ fingerprints float_repr str_hash observed in
  let fs' := <[path := json_dumps (Node_to_json <$> observed)]> fs in
  (∀ mm lm,
     get_den_repeaters quote mm lm = observed →
     (same →
      sync_repeaters float_repr str_hash quote json_dumps json_load Node_init
        path mm lm fs = Ok fs)
     ∧ (¬ same →
        sync_repeaters float_repr str_hash quote json_dumps json_load Node_init
          path mm lm fs = Ok fs'))
  ∧ (∀ lm,
       get_den_companions quote local_utcoffset lm = Ok observed →
       (same →
        sync_companions float_repr str_hash quote local_utcoffset
          json_dumps json_load Node_init path lm fs = Ok fs)
       ∧ (¬ same →
          sync_companions float_repr str_hash quote local_utcoffset
            json_dumps json_load Node_init path lm fs = Ok fs')).
Proof.
  intros Hread same fs'. subst same fs'.
  destruct (sync_nodes_by_fingerprints path observed fs existing Hread) as [Hs Hd].
  split.
  - intros mm lm <-. rewrite sync_repeaters_unfold. by split.
  - intros lm Hc. rewrite (sync_companions_unfold _ _ _ _ _ _ _ _ _ _ _ Hc). by split.
Qed.

(** X7: a run touches one file only and deletes none.  After
    [sync_repeaters] or [sync_companions] every other path holds what it
    held, a file that existed at the path still exists, and after [main]
    every path other than the two data files holds what it held. *)
Theorem sync_touches_only_its_file :
  (∀ path mm lm fs fs',
     sync_repeaters float_repr str_hash quote json_dumps json_load Node_init
       path mm lm fs = Ok fs' →
     (∀ p, p ≠ path → fs' !! p = fs !! p)
     ∧ (is_Some (fs !! path) → is_Some (fs' !! path)))
  ∧ (∀ path lm fs fs',
       sync_companions float_repr str_hash quote local_utcoffset
         json_dumps json_load Node_init path lm fs = Ok fs' →
       (∀ p, p ≠ path → fs' !! p = fs !! p)
       ∧ (is_Some (fs !! path) → is_Some (fs' !! path)))
  ∧ (∀ repeater_data_file companion_data_file mm lm1 lm2 fs fs',
       main float_repr str_hash quote local_utcoffset json_dumps json_load Node_init
         repeater_data_file companion_data_file mm lm1 lm2 fs = Ok fs' →
       ∀ p, p ≠ repeater_data_file → p ≠ companion_data_file →
            fs' !! p = fs !! p).
Proof.
  assert (∀ path observed fs fs',
            sync path observed fs = Ok fs' →
            (∀ p, p ≠ path → fs' !! p = fs !! p)
            ∧ (is_Some (fs !! path) → is_Some (fs' !! path))) as Hsync.
  { intros path observed fs fs' Hrun.
    destruct (sync_nodes_result path observed fs fs' Hrun) as [->| ->].
    - by split.
    - split.
      + intros p Hp. by rewrite lookup_insert_ne.
      + intros _. rewrite lookup_insert_eq. eauto. }
  split; [| split].
  - intros path mm lm fs fs'. rewrite sync_repeaters_unfold. apply Hsync.
  - intros path lm fs fs' Hrun. unfold sync_companions in Hrun.
    destruct (get_den_companions quote local_utcoffset lm) as [companions|e] eqn:Hc;
      [| done].
    apply (Hsync path companions). exact Hrun.
  - intros rp cp mm lm1 lm2 fs fs' Hrun p Hrp Hcp. unfold main in Hrun.
    destruct (sync_repeaters _ _ _ _ _ _ rp mm lm1 fs) as [fs1|e] eqn:Hr; [| done].
    cbn in Hrun. rewrite sync_repeaters_unfold in Hr.
    unfold sync_companions in Hrun.
    destruct (get_den_companions quote local_utcoffset lm2) as [companions|e] eqn:Hc;
      [| done].
    destruct (Hsync _ _ _ _ Hr) as [Hf1 _].
    destruct (Hsync cp companions fs1 fs' Hrun) as [Hf2 _].
    by rewrite Hf2, Hf1.
Qed.

Lemma mapM_Node_init_to_json (observed : list (Node float)) :
  (∀ n, n ∈ observed → Node_init (Node_to_json n) = Ok n) →
  mapM Node_init (Node_to_json <$> observed) = Ok observed.
Proof.
  induction observed as [|n l IH]; intros Hinit; [done |].
  cbn. rewrite Hinit by left. cbn. rewrite IH; [done |].
  intros m Hm. apply Hinit. by right.
Qed.

Lemma sync_nodes_idempotent path observed fs fs' :
  json_load (dump observed) = Ok (Node_to_json <$> observed) →
  (∀ n, n ∈ observed → Node_init (Node_to_json n) = Ok n) →
  sync path observed fs = Ok fs' →
  sync path observed fs' = Ok fs'.
Proof.
  intros Hload Hinit Hrun.
  destruct (sync_nodes_local path observed fs fs' fs eq_refl Hrun)
    as [[-> Hsame]|[-> _]]; [exact Hsame |].
  assert (read (<[path := dump observed]> fs) path = Ok observed) as Hread.
  { unfold _read_nodes_from_file. rewrite lookup_insert_eq, Hload. cbn.
    by apply mapM_Node_init_to_json. }
  destruct (sync_nodes_by_fingerprints path observed _ observed Hread) as [Hs _].
  by apply Hs.
Qed.

(** X8: a second run on the same observation writes nothing.  When the
    decoder gives back what the serialiser was given for the observed nodes,
    the file system a run of [sync_repeaters] or [sync_companions] returned
    is returned unchanged by a run on the same provider data. *)
Theorem sync_twice_is_sync_once path observed :
  json_load (json_dumps (Node_to_json <$> observed)) = Ok (Node_to_json <$> observed) →
  (∀ n, n ∈ observed → Node_init (Node_to_json n) = Ok n) →
  (∀ mm lm fs fs',
     get_den_repeaters quote mm lm = observed →
     sync_repeaters float_repr str_hash quote json_dumps json_load Node_init
       path mm lm fs = Ok fs' →
     sync_repeaters float_repr str_hash quote json_dumps json_load Node_init
       path mm lm fs' = Ok fs')
  ∧ (∀ lm fs fs',
       get_den_companions quote local_utcoffset lm = Ok observed →
       sync_companions float_repr str_hash quote local_utcoffset
         json_dumps json_load Node_init path lm fs = Ok fs' →
       sync_companions float_repr str_hash quote local_utcoffset
         json_dumps json_load Node_init path lm fs' = Ok fs').
Proof.
  intros Hload Hinit. split.
  - intros mm lm fs fs' <-. rewrite !sync_repeaters_unfold.
    by apply sync_nodes_idempotent.
  - intros lm fs fs' Hc.
    rewrite !(sync_companions_unfold _ _ _ _ _ _ _ _ _ _ _ Hc).
    by apply sync_nodes_idempotent.
Qed.

(** X9: the two runs of [main] do not depend on their order.  With two
    different data files, whenever [main] returns a file system, running the
    companions first and the repeaters second returns the same one. *)
Theorem main_order_independent repeater_data_file companion_data_file mm lm1 lm2 fs fs' :
  repeater_data_file ≠ companion_data_file →
  main float_repr str_hash quote local_utcoffset json_dumps json_load Node_init
    repeater_data_file companion_data_file mm lm1 lm2 fs = Ok fs' →
  (sync_companions float_repr str_hash quote local_utcoffset
     json_dumps json_load Node_init companion_data_file lm2 fs
   ≫= sync_repeaters float_repr str_hash quote json_dumps json_load Node_init
        repeater_data_file mm lm1)
  = Ok fs'.
Proof.
  intros Hne Hrun. unfold main in Hrun.
  destruct (sync_repeaters _ _ _ _ _ _ repeater_data_file mm lm1 fs)
    as [fs1|e] eqn:Hr; [| done].
  cbn in Hrun. rewrite sync_repeaters_unfold in Hr.
  destruct (get_den_companions quote local_utcoffset lm2) as [companions|e] eqn:Hcomp.
  2: { unfold sync_companions in Hrun. by rewrite Hcomp in Hrun. }
  rewrite (sync_companions_unfold _ _ _ _ _ _ _ _ _ _ _ Hcomp) in Hrun.
  rewrite (sync_companions_unfold _ _ _ _ _ _ _ _ _ _ _ Hcomp).
  set (obs := get_den_repeaters quote mm lm1) in *.
  assert (fs !! companion_data_file = fs1 !! companion_data_file) as Hc1.
  { destruct (sync_nodes_result _ _ _ _ Hr) as [->| ->]; [done |].
    by rewrite lookup_insert_ne. }
  destruct (sync_nodes_local _ _ _ _ fs Hc1 Hrun) as [[-> Hc]|[-> Hc]];
    rewrite Hc; cbn; rewrite sync_repeaters_unfold; fold obs.
  - exact Hr.
  - assert (<[companion_data_file := dump companions]> fs !! repeater_data_file
            = fs !! repeater_data_file) as Hr1
      by (by rewrite lookup_insert_ne).
    destruct (sync_nodes_local _ _ _ _ _ Hr1 Hr) as [[-> Hr2]|[-> Hr2]];
      rewrite Hr2; [done |].
    f_equal. by apply insert_insert_ne.
Qed.


End StoreMore.

(** *** Python strings *)

Lemma digit_value_bounds c : Str.is_digit c = true → 0 ≤ Str.digit_value c ≤ 9.
Proof.
  unfold Str.is_digit, Str.digit_value. intros Hd.
  apply andb_true_iff in Hd as [Hlo Hhi].
  apply Nat.leb_le in Hlo, Hhi. lia.
Qed.

Lemma int_acc_bounds s acc :
  Str.all_digits s = true → 0 ≤ acc →
  acc * 10 ^ Z.of_nat (String.length s) ≤ Str.int_acc acc s
  < (acc + 1) * 10 ^ Z.of_nat (String.length s).
Proof.
  revert acc. induction s as [|c s IH]; intros acc Hd Hacc.
  - cbn. lia.
  - cbn [Str.all_digits] in Hd. apply andb_true_iff in Hd as [Hc Hs].
    apply digit_value_bounds in Hc.
    cbn [Str.int_acc String.length].
    specialize (IH (10 * acc + Str.digit_value c) Hs ltac:(lia)).
    rewrite Nat2Z.inj_succ, Z.pow_succ_r by lia.
    assert (0 < 10 ^ Z.of_nat (String.length s)) by (apply Z.pow_pos_nonneg; lia).
    nia.
Qed.

Lemma int_bounds s :
  Str.all_digits s = true → 0 ≤ Str.int s < 10 ^ Z.of_nat (String.length s).
Proof.
  intros Hd. unfold Str.int. pose proof (int_acc_bounds s 0 Hd ltac:(lia)). lia.
Qed.

Lemma upper_char_idemp c : Str.upper_char (Str.upper_char c) = Str.upper_char c.
Proof. destruct c as [[] [] [] [] [] [] [] []]; reflexivity. Qed.

Lemma upper_idemp s : Str.upper (Str.upper s) = Str.upper s.
Proof. induction s as [|c s IH]; cbn; [done |]. by rewrite upper_char_idemp, IH. Qed.

Lemma take_take n m s : (n ≤ m)%nat → Str.take n (Str.take m s) = Str.take n s.
Proof.
  revert m s. induction n as [|n IH]; intros [|m] [|c s] Hle; cbn; try done; try lia.
  rewrite IH; [done | lia].
Qed.

Lemma chars_app_inv_tail (a b t : string) : a +:+ t = b +:+ t → a = b.
Proof.
  intros Heq. apply chars_inj. apply (f_equal list_ascii_of_string) in Heq.
  rewrite !chars_app in Heq. by apply app_inv_tail in Heq.
Qed.

(** *** Identity of nodes *)

Section IdentityMore.

Context {float : Type}.

Implicit Types (a b c : Node float).

Lemma are_same_node_iff a b :
  are_same_node a b = true ↔ same_public_key (public_key a) (public_key b).
Proof.
  unfold are_same_node, same_public_key.
  destruct (String.eqb_spec (Str.upper (public_key a)) (Str.upper (public_key b)));
    split; done.
Qed.

Lemma is_reserved_upper s :
  is_reserved_public_key_id (Str.upper s) = is_reserved_public_key_id s.
Proof.
  unfold is_reserved_public_key_id. by rewrite <- !upper_take, !upper_idemp.
Qed.

Lemma is_reserved_take n s :
  (2 ≤ n)%nat →
  is_reserved_public_key_id (Str.take n s) = is_reserved_public_key_id s.
Proof.
  intros Hn. unfold is_reserved_public_key_id.
  rewrite !take_take by lia. done.
Qed.

(** X11: [are_same_node] is an equivalence on nodes that reads nothing
    but the public key, in upper case; nodes it identifies have the same
    two-character and four-character identifiers. *)
Theorem are_same_node_equivalence :
  (∀ a, are_same_node a a = true)
  ∧ (∀ a b, are_same_node a b = are_same_node b a)
  ∧ (∀ a b c, are_same_node a b = true → are_same_node b c = true →
              are_same_node a c = true)
  ∧ (∀ a b, are_same_node a b = true ↔ Str.upper (public_key a) = Str.upper (public_key b))
  ∧ (∀ a b, are_same_node a b = true →
            Node_public_key_id a = Node_public_key_id b
            ∧ Node_public_key_id_2_char a = Node_public_key_id_2_char b).
Proof.
  split; [| split; [| split; [| split]]].
  - intros a. by apply are_same_node_iff.
  - intros a b. unfold are_same_node. rewrite String.eqb_sym. done.
  - intros a b c Hab Hbc. apply are_same_node_iff in Hab, Hbc.
    apply are_same_node_iff. unfold same_public_key in *. congruence.
  - intros a b. apply are_same_node_iff.
  - intros a b Hab. apply are_same_node_iff in Hab. unfold same_public_key in Hab.
    unfold Node_public_key_id, Node_public_key_id_4_char, Node_public_key_id_2_char.
    rewrite !upper_take, Hab. done.
Qed.

(** X12: the reserved-identifier predicate reads the first two
    characters only and ignores letter case, so it gives one verdict for the
    public key of a node, for its two-character and for its four-character
    identifier, and the same verdict for two nodes that are the same node. *)
Theorem reserved_verdict_by_prefix :
  (∀ s, is_reserved_public_key_id (Str.upper s) = is_reserved_public_key_id s)
  ∧ (∀ s n, (2 ≤ n)%nat →
            is_reserved_public_key_id (Str.take n s) = is_reserved_public_key_id s)
  ∧ (∀ a, is_reserved_public_key_id (Node_public_key_id_2_char a)
          = is_reserved_public_key_id (public_key a)
          ∧ is_reserved_public_key_id (Node_public_key_id a)
            = is_reserved_public_key_id (public_key a))
  ∧ (∀ a b, are_same_node a b = true →
            is_reserved_public_key_id (public_key a)
            = is_reserved_public_key_id (public_key b)).
Proof.
  split; [exact is_reserved_upper |].
  split; [intros s n Hn; by apply is_reserved_take |].
  split.
  - intros a.
    unfold Node_public_key_id, Node_public_key_id_4_char, Node_public_key_id_2_char.
    rewrite !is_reserved_upper, !is_reserved_take by lia. done.
  - intros a b Hab. apply are_same_node_iff in Hab. unfold same_public_key in Hab.
    rewrite <- (is_reserved_upper (public_key a)), Hab. apply is_reserved_upper.
Qed.

End IdentityMore.

(** *** Normalisation *)

Section NormalisersMore.

Context {float : Type} (quote : string → string) (local_utcoffset : Z → Z).

(** X13: the contact link of a name tells public keys apart exactly up
    to letter case. *)
Theorem contact_url_same_key name k1 k2 :
  _build_contact_url quote name k1 = _build_contact_url quote name k2
  ↔ same_public_key k1 k2.
Proof.
  unfold _build_contact_url, same_public_key. split.
  - intros Heq. do 3 apply (inj (String.app _)) in Heq.
    by apply chars_app_inv_tail in Heq.
  - by intros ->.
Qed.

(** X14: what MeshMapper lists comes out in the same order and number,
    with the identifier as public key; a node from MeshMapper is never a
    companion and never an observer, and always has a location and a contact
    link. *)
Theorem repeaters_shape (mm : list (MeshMapperRepeater float))
    (lm : list (LetsMeshNode float)) :
  length (get_den_repeaters quote mm lm) = length mm
  ∧ public_key <$> get_den_repeaters quote mm lm = mm_hex_id <$> mm
  ∧ last_heard <$> get_den_repeaters quote mm lm = mm_last_heard <$> mm
  ∧ Forall (λ n, node_type n ≠ NodeType.COMPANION
                 ∧ is_observer n = false
                 ∧ is_Some (latitude n) ∧ is_Some (longitude n)
                 ∧ is_Some (contact n))
           (get_den_repeaters quote mm lm).
Proof.
  unfold get_den_repeaters. split; [apply length_fmap |].
  split; [by rewrite <- list_fmap_compose |].
  split; [by rewrite <- list_fmap_compose |].
  apply Forall_fmap, Forall_forall. intros r _. cbn.
  split; [by destruct (_ && _) |]. eauto.
Qed.

(** X16: listing the companions never raises.  The result holds one
    node for each LetsMesh node with the role [COMPANION], in order, all of
    node type [COMPANION]; a node is an observer exactly when it is not
    connected, and has coordinates exactly when it has a location. *)
Theorem companions_only (lm : list (LetsMeshNode float)) :
  ∃ ns,
    get_den_companions quote local_utcoffset lm = Ok ns
    ∧ Forall2 (λ x n,
                 public_key n = lm_public_key x
                 ∧ node_type n = NodeType.COMPANION
                 ∧ is_observer n = negb (lm_is_mqtt_connected x)
                 ∧ (is_Some (latitude n) ↔ is_Some (lm_location x))
                 ∧ (is_Some (longitude n) ↔ is_Some (lm_location x)))
              (filter (λ x, lm_device_role x = LetsMeshNodeRole.COMPANION) lm) ns
    ∧ (length ns ≤ length lm)%nat.
Proof.
  unfold get_den_companions.
  set (keep := filter (λ x, lm_device_role x = LetsMeshNodeRole.COMPANION) lm).
  assert (Forall (λ x, lm_device_role x = LetsMeshNodeRole.COMPANION) keep) as Hkeep.
  { apply Forall_forall. intros x Hx. by apply list_elem_of_filter in Hx as [? _]. }
  assert (length keep ≤ length lm)%nat as Hlen by apply length_filter.
  clearbody keep.
  match goal with
  | |- ∃ ns, mapM ?f keep = Ok ns ∧ _ =>
      destruct (mapM_result_Forall2 f
               (λ x n,
                  public_key n = lm_public_key x
                  ∧ node_type n = NodeType.COMPANION
                  ∧ is_observer n = negb (lm_is_mqtt_connected x)
                  ∧ (is_Some (latitude n) ↔ is_Some (lm_location x))
                  ∧ (is_Some (longitude n) ↔ is_Some (lm_location x)))
               keep) as (ns & Hrun & HF)
  end.
  { intros x Hx. rewrite Forall_forall in Hkeep. rewrite (Hkeep x Hx). cbn.
    eexists. split; [reflexivity |]. cbn.
    repeat split; try done; rewrite fmap_is_Some; done. }
  exists ns. split; [exact Hrun |]. split; [exact HF |].
  apply Forall2_length in HF. lia.
Qed.

End NormalisersMore.

(** *** The creation time of a repeater *)

Section CreationTimes.

Context {float : Type} (quote : string → string) (int_max_str_digits : nat).

Local Abbreviation refused := (refused int_max_str_digits).

Lemma repeater_checked_step (lm : list (LetsMeshNode float)) (r : MeshMapperRepeater float) :
  get_den_repeaters_checked quote int_max_str_digits [r] lm
  = if refused r
    then Raise (ValueError_int_max_str_digits (String.length (mm_created_at r)))
    else Ok (get_den_repeaters quote [r] lm).
Proof.
  unfold get_den_repeaters_checked, get_den_repeaters, refused, Str.int_limited. cbn.
  destruct (Str.isdigit (mm_created_at r)); cbn; [| done].
  by destruct (Str.exceeds_limit _ _).
Qed.

Lemma repeaters_checked_Ok (mm : list (MeshMapperRepeater float)) lm :
  Forall (λ r, refused r = false) mm →
  get_den_repeaters_checked quote int_max_str_digits mm lm
  = Ok (get_den_repeaters quote mm lm).
Proof.
  intros Hfine. unfold get_den_repeaters_checked, get_den_repeaters.
  apply mapM_result_Ok_fmap. intros r Hr. rewrite Forall_forall in Hfine.
  specialize (Hfine r Hr). unfold refused, Str.int_limited in *.
  destruct (Str.isdigit (mm_created_at r)); cbn in *; [| done].
  by rewrite Hfine.
Qed.

Lemma repeaters_checked_Raise (pre : list (MeshMapperRepeater float)) r rest lm :
  Forall (λ r, refused r = false) pre →
  refused r = true →
  get_den_repeaters_checked quote int_max_str_digits (pre ++ r :: rest) lm
  = Raise (ValueError_int_max_str_digits (String.length (mm_created_at r))).
Proof.
  intros Hpre Hr. unfold get_den_repeaters_checked.
  apply mapM_result_first_Raise.
  - intros y Hy. rewrite Forall_forall in Hpre. specialize (Hpre y Hy).
    unfold refused, Str.int_limited in *.
    destruct (Str.isdigit (mm_created_at y)); cbn in *; [| by eexists].
    rewrite Hpre. by eexists.
  - unfold refused, Str.int_limited in *.
    apply andb_true_iff in Hr as [-> ->]. done.
Qed.

Lemma refused_split (mm : list (MeshMapperRepeater float)) :
  Forall (λ r, refused r = false) mm
  ∨ ∃ pre r rest, mm = pre ++ r :: rest
                  ∧ Forall (λ r, refused r = false) pre ∧ refused r = true.
Proof.
  induction mm as [|r mm IH]; [left; constructor |].
  destruct (refused r) eqn:Hr.
  - right. exists [], r, mm. by repeat split.
  - destruct IH as [Hall | (pre & x & rest & -> & Hpre & Hx)].
    + left. by constructor.
    + right. exists (r :: pre), x, rest. split; [done |]. split; [| done].
      by constructor.
Qed.

(** X15: the creation times of the nodes from MeshMapper, with [int]
    bounded as the interpreter bounds it.  The list is produced exactly when
    no creation time is a text of digits past the limit, and it is then the
    list of [get_den_repeaters]: a text of one or more digits gives the
    number it spells, from 0 below 10 to the length of the text, and every
    other ASCII text, the empty one and a signed number included, gives 0.
    Otherwise the [ValueError] of the first text of digits past the limit is
    raised: that text has more than 640 characters and more than the limit,
    which is not 0. *)
Theorem repeaters_created_at (mm : list (MeshMapperRepeater float))
    (lm : list (LetsMeshNode float)) :
  (Forall (λ r, Str.isdigit (mm_created_at r) = true →
                Str.exceeds_limit int_max_str_digits (mm_created_at r) = false) mm
   ↔ ∃ ns, get_den_repeaters_checked quote int_max_str_digits mm lm = Ok ns)
  ∧ (∀ ns,
       get_den_repeaters_checked quote int_max_str_digits mm lm = Ok ns →
       ns = get_den_repeaters quote mm lm
       ∧ Forall2 (λ r n,
                    (Str.isdigit (mm_created_at r) = true →
                     Str.exceeds_limit int_max_str_digits (mm_created_at r) = false
                     ∧ created_at n = Str.int (mm_created_at r)
                     ∧ created_at n < 10 ^ Z.of_nat (String.length (mm_created_at r)))
                    ∧ (Str.is_ascii (mm_created_at r) = true →
                       Str.isdigit (mm_created_at r) = false → created_at n = 0)
                    ∧ 0 ≤ created_at n)
           mm ns)
  ∧ (∀ e,
       get_den_repeaters_checked quote int_max_str_digits mm lm = Raise e →
       ∃ pre r rest,
         mm = pre ++ r :: rest
         ∧ Forall (λ r, Str.isdigit (mm_created_at r) = true →
                        Str.exceeds_limit int_max_str_digits (mm_created_at r) = false)
             pre
         ∧ Str.isdigit (mm_created_at r) = true
         ∧ (640 < String.length (mm_created_at r))%nat
         ∧ (0 < int_max_str_digits < String.length (mm_created_at r))%nat
         ∧ e = ValueError_int_max_str_digits (String.length (mm_created_at r)))
  ∧ (∀ text,
       Str.exceeds_limit int_max_str_digits text = false
       ↔ (String.length text ≤ 640)%nat
         ∨ int_max_str_digits = 0%nat
         ∨ (String.length text ≤ int_max_str_digits)%nat).
Proof.
  assert (∀ l : list (MeshMapperRepeater float),
            Forall (λ r, refused r = false) l
            ↔ Forall (λ r, Str.isdigit (mm_created_at r) = true →
                           Str.exceeds_limit int_max_str_digits (mm_created_at r) = false)
                l) as Hrefused.
  { intros l. apply Forall_iff. intros r. unfold refused.
    destruct (Str.isdigit (mm_created_at r)), (Str.exceeds_limit _ _); cbn;
      split; try done. intros H. by specialize (H eq_refl). }
  assert (∀ ns,
            get_den_repeaters_checked quote int_max_str_digits mm lm = Ok ns →
            Forall (λ r, refused r = false) mm) as Hok.
  { intros ns Hrun. destruct (refused_split mm) as [| (pre & r & rest & -> & Hpre & Hr)];
      [done |].
    rewrite (repeaters_checked_Raise _ _ _ _ Hpre Hr) in Hrun. done. }
  split; [| split; [| split]].
  - split.
    + intros Hfine. eexists. apply repeaters_checked_Ok. by apply Hrefused.
    + intros [ns Hrun]. apply Hrefused. by eapply Hok.
  - intros ns Hrun. pose proof (Hok ns Hrun) as Hfine.
    rewrite (repeaters_checked_Ok _ _ Hfine) in Hrun. injection Hrun as <-.
    split; [done |].
    unfold get_den_repeaters. apply Forall2_fmap_r, Forall_Forall2_diag, Forall_forall.
    intros r Hr. cbn. rewrite Forall_forall in Hfine. specialize (Hfine r Hr).
    unfold refused in Hfine.
    destruct (Str.isdigit (mm_created_at r)) eqn:Hd; cbn in Hfine.
    + unfold Str.isdigit in Hd. apply andb_true_iff in Hd as [_ Hd].
      pose proof (int_bounds _ Hd). repeat split; try done; lia.
    + repeat split; try done; lia.
  - intros e Hrun.
    destruct (refused_split mm) as [Hfine | (pre & r & rest & -> & Hpre & Hr)].
    { rewrite (repeaters_checked_Ok _ _ Hfine) in Hrun. done. }
    rewrite (repeaters_checked_Raise _ _ _ _ Hpre Hr) in Hrun. injection Hrun as <-.
    exists pre, r, rest. split; [done |]. split; [by apply Hrefused |].
    unfold refused, Str.exceeds_limit in Hr.
    apply andb_true_iff in Hr as [Hd Hr]. apply andb_true_iff in Hr as [Hr H3].
    apply andb_true_iff in Hr as [H1 H2].
    apply Nat.ltb_lt in H1, H2, H3. repeat split; try done; lia.
  - intros text. unfold Str.exceeds_limit.
    rewrite !andb_false_iff, !Nat.ltb_ge. lia.
Qed.

(** With every role known and every creation time within the limit, the
    program run from the answers is the program run on the validated
    nodes. *)
Lemma sync_repeaters_of_answers_validated
    (float_repr : float → string) (str_hash : string → Z)
    (json_dumps : list (json_object float) → string)
    (json_load : string → result (list (json_object float)))
    (Node_init : json_object float → result (Node float))
    path mm answer lm fs :
  _get_letsmesh_nodes answer = Ok lm →
  Forall (λ r, refused r = false) mm →
  sync_repeaters_of_answers float_repr str_hash quote json_dumps json_load Node_init
    int_max_str_digits path mm answer fs
  = sync_repeaters float_repr str_hash quote json_dumps json_load Node_init
      path mm lm fs.
Proof.
  intros Hlm Hfine. unfold sync_repeaters_of_answers, get_den_repeaters_of_answers.
  rewrite Hlm. cbn. by rewrite repeaters_checked_Ok.
Qed.

End CreationTimes.

(** X17: the map from LetsMesh roles to node types is one-to-one and
    onto, and it is not the map that keeps the integer: the value of a role
    never equals the value of its node type, so reading a role's integer with
    [NodeType.from_int] always gives another type. *)
Theorem role_to_node_type_bijection :
  (∀ r1 r2, LetsMeshNodeRole.to_node_type r1 = LetsMeshNodeRole.to_node_type r2 →
            r1 = r2)
  ∧ (∀ t, ∃ r, LetsMeshNodeRole.to_node_type r = Ok t)
  ∧ (∀ r t, LetsMeshNodeRole.to_node_type r = Ok t →
            NodeType.value t ≠ LetsMeshNodeRole.value r
            ∧ NodeType.from_int (LetsMeshNodeRole.value r) ≠ Ok t).
Proof.
  split; [| split].
  - intros [] [] Heq; try reflexivity; discriminate Heq.
  - intros []; [exists LetsMeshNodeRole.REPEATER | exists LetsMeshNodeRole.ROOM
                | exists LetsMeshNodeRole.COMPANION]; reflexivity.
  - intros [] t [= <-]; split; cbn; discriminate.
Qed.

(** X18: [to_json] loses nothing: the object has the nine fields of a
    node under nine different keys, and two nodes with the same object are
    the same node. *)
Theorem to_json_injective {float : Type} :
  (∀ n : Node float,
     length (Node_to_json n) = 9%nat ∧ NoDup (fst <$> Node_to_json n))
  ∧ (∀ n m : Node float, Node_to_json n = Node_to_json m → n = m).
Proof.
  split.
  - intros n. split; [reflexivity |]. cbn.
    apply (bool_decide_unpack _). by vm_compute.
  - intros [pk nm la lo ty ob ct ca lh] [pk' nm' la' lo' ty' ob' ct' ca' lh'].
    unfold Node_to_json. cbn. intros Heq.
    injection Heq as -> -> Hla Hlo Hty -> Hct -> ->.
    f_equal.
    + destruct la, la'; cbn in Hla; congruence.
    + destruct lo, lo'; cbn in Hlo; congruence.
    + destruct ty, ty'; cbn in Hty; congruence.
    + destruct ct, ct'; cbn in Hct; congruence.
Qed.

(** *** Timestamps *)

(** [span_digits] cuts the text in two, the first part being digits. *)
Lemma span_digits_spec s ds rest :
  Time.span_digits s = (ds, rest) →
  s = ds +:+ rest ∧ Str.all_digits ds = true.
Proof.
  revert ds rest. induction s as [|c s IH]; intros ds rest Hs; cbn in Hs.
  - by injection Hs as <- <-.
  - destruct (Str.is_digit c) eqn:Hc.
    + destruct (Time.span_digits s) as [ds' rest'].
      injection Hs as <- <-. destruct (IH _ _ eq_refl) as [-> Hd].
      split; [done |]. cbn. by rewrite Hc, Hd.
    + by injection Hs as <- <-.
Qed.

(** What a directive reads lies in the range of its group, and what it
    leaves is an end of the text. *)
Lemma in_group_range g ds :
  Time.in_group g ds = true → Time.min_val g ≤ Str.int ds ≤ Time.max_val g.
Proof.
  unfold Time.in_group. intros Hin.
  apply andb_true_iff in Hin as [_ Hin]. apply andb_true_iff in Hin as [Hlo Hhi].
  apply Z.leb_le in Hlo, Hhi. lia.
Qed.

(** The branch of [match_group] that reads a run of digits. *)
Ltac plain_group Hm :=
  let ds := fresh "ds" in
  let rest0 := fresh "rest" in
  let Hs := fresh "Hs" in
  let Hin := fresh "Hin" in
  match type of Hm with
  | context [Time.span_digits ?s0] =>
      destruct (Time.span_digits s0) as [ds rest0] eqn:Hs;
      destruct (Time.in_group _ ds) eqn:Hin; [| discriminate Hm];
      injection Hm as <- <-;
      apply span_digits_spec in Hs as [Hs _];
      apply in_group_range in Hin
  end.

Lemma match_group_spec d s v rest g :
  Time.group_of d = Some g →
  Time.match_group d s = Some (v, rest) →
  Time.min_val g ≤ v ≤ Time.max_val g ∧ ∃ pre, s = pre +:+ rest.
Proof.
  intros Hg. unfold Time.match_group. rewrite Hg. cbn.
  destruct s as [|c s'].
  - intros Hm. plain_group Hm. eauto.
  - destruct (Ascii.eqb_spec c " "%char) as [->|Hc].
    + destruct (Ascii.eqb_spec d "d"%char) as [->|Hnd].
      * destruct (Time.span_digits s') as [ds rest0] eqn:Hs.
        destruct (_ && _) eqn:Hin; [| done]. intros [= <- <-].
        apply span_digits_spec in Hs as [-> Hds].
        apply andb_true_iff in Hin as [Hlen Hlo].
        apply Nat.eqb_eq in Hlen. apply Z.leb_le in Hlo.
        pose proof (int_bounds ds Hds) as Hb. rewrite Hlen in Hb.
        injection Hg as <-. cbn.
        split; [lia |]. by exists (String " " ds).
      * intros Hm. plain_group Hm. eauto.
    + intros Hm.
      assert ((let '(ds, rest0) := Time.span_digits (String c s') in
               if Time.in_group g ds then Some (Str.int ds, rest0) else None)
              = Some (v, rest)) as Hm'.
      { destruct c as [[] [] [] [] [] [] [] []]; try exact Hm. by destruct Hc. }
      clear Hm. plain_group Hm'. eauto.
Qed.

Lemma set_field_range d g v t :
  Time.group_of d = Some g →
  Time.min_val g ≤ v ≤ Time.max_val g →
  fields_in_range t → fields_in_range (Time.set_field d v t).
Proof.
  unfold Time.group_of, Time.set_field, fields_in_range. intros Hg Hv Ht.
  repeat match type of Hg with
         | context [Ascii.eqb d ?c] =>
             destruct (Ascii.eqb_spec d c) as [->|?];
             [injection Hg as <-; cbn in *; lia |]
         end.
  discriminate Hg.
Qed.

Lemma match_group_known d s r :
  Time.match_group d s = Some r → ∃ g, Time.group_of d = Some g.
Proof.
  unfold Time.match_group. destruct (Time.group_of d) as [g|]; [eauto | done].
Qed.

Lemma match_items_range items s t t' :
  fields_in_range t →
  Time.match_items items s t = Some t' →
  fields_in_range t'.
Proof.
  revert s t. induction items as [|[c|d] items IH]; intros s t Ht Hm; cbn in Hm.
  - destruct s; [| done]. by injection Hm as <-.
  - destruct s as [|c' s']; [done |].
    destruct (Ascii.eqb _ _); [| done]. by eapply IH.
  - destruct (Time.match_group d s) as [[v rest]|] eqn:Hg; [| done]. cbn in Hm.
    destruct (match_group_known _ _ _ Hg) as [g Hgroup].
    destruct (match_group_spec _ _ _ _ _ Hgroup Hg) as [Hv _].
    eapply IH; [| exact Hm]. by eapply set_field_range.
Qed.

(** Whatever the text, the broken-down time that is converted lies in the
    ranges of the directives and names a day that its month has. *)
Lemma timestamp_zero_or_in_range off s :
  _iso8601_to_unix_timestamp off s = 0
  ∨ ∃ t,
      _iso8601_to_unix_timestamp off s = Time.mktime off t
      ∧ 1 ≤ Time.tm_year t ≤ 9999
      ∧ 1 ≤ Time.tm_mon t ≤ 12
      ∧ 1 ≤ Time.tm_mday t ≤ Time.days_in_month (Time.tm_year t) (Time.tm_mon t)
      ∧ 0 ≤ Time.tm_hour t ≤ 23
      ∧ 0 ≤ Time.tm_min t ≤ 59
      ∧ 0 ≤ Time.tm_sec t ≤ 61.
Proof.
  unfold _iso8601_to_unix_timestamp.
  destruct (negb (Str.truthy s)); [by left |].
  destruct (Time.strptime s _) as [t|] eqn:Hp; [| by left].
  right. exists t. split; [done |].
  unfold Time.strptime in Hp.
  destruct (Time.match_items _ s _) as [t1|] eqn:Hm; [| done]. cbn in Hp.
  destruct (_ && _) eqn:Hc; [| done]. injection Hp as ->.
  apply andb_true_iff in Hc as [Hy Hd]. apply Z.leb_le in Hy, Hd.
  apply match_items_range in Hm; [| unfold fields_in_range; cbn; lia].
  unfold fields_in_range in Hm. lia.
Qed.

(** *** Timestamps field by field *)

(** A run of digits in front of a character that is not a digit is what
    [span_digits] cuts off. *)
Lemma span_digits_run field c rest :
  Str.all_digits field = true → Str.is_digit c = false →
  Time.span_digits (field +:+ String c rest) = (field, String c rest).
Proof.
  intros Hd Hc. induction field as [|x field IH]; simpl.
  - by rewrite Hc.
  - simpl in Hd. apply andb_true_iff in Hd as [Hx Hd].
    by rewrite Hx, (IH Hd).
Qed.

Lemma match_group_not_space d c s :
  c ≠ " "%char →
  Time.match_group d (String c s)
  = (g ← Time.group_of d;
     let '(ds, rest) := Time.span_digits (String c s) in
     if Time.in_group g ds then Some (Str.int ds, rest) else None).
Proof.
  intros Hc. unfold Time.match_group. destruct (Time.group_of d) as [g|]; [| done].
  cbn [mbind option_bind].
  destruct c as [[] [] [] [] [] [] [] []]; try reflexivity. by destruct Hc.
Qed.

Lemma is_digit_not_space c : Str.is_digit c = true → c ≠ " "%char.
Proof. intros Hd ->. discriminate Hd. Qed.

Lemma separator_app c s : String c "" +:+ s = String c s.
Proof. reflexivity. Qed.

(** A directive in front of a field of digits that a separator ends. *)
Lemma match_group_field d field c rest :
  Str.all_digits field = true → Str.is_digit c = false → c ≠ " "%char →
  Time.match_group d (field +:+ String c rest)
  = (g ← Time.group_of d;
     if Time.in_group g field then Some (Str.int field, String c rest) else None).
Proof.
  intros Hd Hc Hsp.
  pose proof (span_digits_run field c rest Hd Hc) as Hspan.
  destruct field as [|x field].
  - change ("" +:+ String c rest) with (String c rest) in *.
    rewrite match_group_not_space by done. by rewrite Hspan.
  - change (String x field +:+ String c rest)
      with (String x (field +:+ String c rest)) in *.
    rewrite match_group_not_space.
    + by rewrite Hspan.
    + apply is_digit_not_space. simpl in Hd. by apply andb_true_iff in Hd as [Hx _].
Qed.

Lemma match_items_field d c items field rest t :
  Str.all_digits field = true → Str.is_digit c = false → c ≠ " "%char →
  Time.match_items (Time.Dir d :: Time.Lit c :: items) (field +:+ String c rest) t
  = (g ← Time.group_of d;
     if Time.in_group g field
     then Time.match_items items rest (Time.set_field d (Str.int field) t)
     else None).
Proof.
  intros Hd Hc Hsp. cbn [Time.match_items].
  rewrite match_group_field by done.
  destruct (Time.group_of d) as [g|]; [| done]. cbn [mbind option_bind].
  destruct (Time.in_group g field); [| done]. cbn [mbind option_bind].
  by rewrite Ascii.eqb_refl.
Qed.

Lemma in_group_spec lo hi least greatest ds :
  Time.in_group (Time.Group lo hi least greatest) ds = true
  ↔ (lo ≤ String.length ds ≤ hi)%nat ∧ least ≤ Str.int ds ≤ greatest.
Proof.
  unfold Time.in_group, Time.Group. cbn.
  rewrite !andb_true_iff, !Nat.leb_le, !Z.leb_le. tauto.
Qed.

Lemma days_in_month_le y m : Time.days_in_month y m ≤ 31.
Proof.
  unfold Time.days_in_month.
  destruct (m =? 2); [destruct (Time.is_leap y); lia |].
  destruct (_ || _); lia.
Qed.

Lemma int_below ds (n : nat) :
  Str.all_digits ds = true → (String.length ds ≤ n)%nat →
  0 ≤ Str.int ds < 10 ^ Z.of_nat n.
Proof.
  intros Hd Hlen. pose proof (int_bounds ds Hd) as Hb.
  assert (10 ^ Z.of_nat (String.length ds) ≤ 10 ^ Z.of_nat n)
    by (apply Z.pow_le_mono_r; lia).
  lia.
Qed.

Lemma one_or_two_spec field :
  one_or_two field = true ↔ (1 ≤ String.length field ≤ 2)%nat.
Proof. unfold one_or_two. rewrite andb_true_iff, !Nat.leb_le. tauto. Qed.

Lemma calendar_fields_groups Y m d H M S f :
  Str.all_digits Y = true → Str.all_digits m = true → Str.all_digits d = true →
  Str.all_digits H = true → Str.all_digits M = true → Str.all_digits S = true →
  Str.all_digits f = true →
  calendar_fields Y m d H M S f
  = (Time.in_group (Time.Group 4 4 0 9999) Y
     && (Time.in_group (Time.Group 1 2 1 12) m
     && (Time.in_group (Time.Group 1 2 1 31) d
     && (Time.in_group (Time.Group 1 2 0 23) H
     && (Time.in_group (Time.Group 1 2 0 59) M
     && (Time.in_group (Time.Group 1 2 0 61) S
     && (Time.in_group (Time.Group 1 6 0 999999) f
     && ((1 <=? Str.int Y)
         && (Str.int d <=? Time.days_in_month (Str.int Y) (Str.int m)))))))))).
Proof.
  intros HY Hm Hd HH HM HS Hf.
  pose proof (days_in_month_le (Str.int Y) (Str.int m)) as Hdim.
  pose proof (int_bounds _ HY) as BY. pose proof (int_bounds _ Hm) as Bm.
  pose proof (int_bounds _ Hd) as Bd. pose proof (int_bounds _ HH) as BH.
  pose proof (int_bounds _ HM) as BM. pose proof (int_bounds _ HS) as BS.
  apply eq_iff_eq_true. unfold calendar_fields.
  rewrite !andb_true_iff, !in_group_spec, !one_or_two_spec, !Nat.leb_le, !Z.leb_le,
    Nat.eqb_eq.
  split.
  - intros ((((((((((((((HlY & Y1) & Lm) & m1) & m12) & Ld) & d1) & dmax) & LH) & H23)
                & LM) & M59) & LS) & S61) & Lf).
    rewrite HlY in BY. change (10 ^ Z.of_nat 4) with 10000 in BY.
    pose proof (int_below f 6 Hf ltac:(lia)) as Bf.
    change (10 ^ Z.of_nat 6) with 1000000 in Bf.
    repeat split; lia.
  - intros ((LY & BY') & (Lm & Bm') & (Ld & Bd') & (LH & BH') & (LM & BM')
            & (LS & BS') & (Lf & Bf') & Y1 & dmax).
    repeat split; lia.
Qed.

Lemma iso_text_truthy Y m d H M S f : Str.truthy (iso_text Y m d H M S f) = true.
Proof. unfold iso_text. by destruct Y. Qed.

(** X19: the timestamp of a text laid out as year, month, day, hour,
    minute, second and fraction, each a run of digits, with the separators
    of the format between them.  When the fields name a time of the calendar
    (a year of four digits from 0001 on, a month from 1 to 12, a day that
    this month of this year has, an hour up to 23, a minute up to 59, a
    second up to 61, each of one or two digits, and a fraction of one to six
    digits) the result is the conversion of exactly these numbers, whatever
    the fraction; otherwise it is 0.  In particular a day past the end of
    its month gives 0 instead of a time rolled over into the next month. *)
Theorem timestamp_of_fields off year month day hour minute second fraction :
  Str.all_digits year = true → Str.all_digits month = true →
  Str.all_digits day = true → Str.all_digits hour = true →
  Str.all_digits minute = true → Str.all_digits second = true →
  Str.all_digits fraction = true →
  _iso8601_to_unix_timestamp off
    (iso_text year month day hour minute second fraction)
  = (if calendar_fields year month day hour minute second fraction
     then Time.mktime off
            {| Time.tm_year := Str.int year; Time.tm_mon := Str.int month;
               Time.tm_mday := Str.int day; Time.tm_hour := Str.int hour;
               Time.tm_min := Str.int minute; Time.tm_sec := Str.int second |}
     else 0)
  ∧ (Time.days_in_month (Str.int year) (Str.int month) < Str.int day →
     _iso8601_to_unix_timestamp off
       (iso_text year month day hour minute second fraction) = 0).
Proof.
  intros HY Hm Hd HH HM HS Hf.
  assert (_iso8601_to_unix_timestamp off
            (iso_text year month day hour minute second fraction)
          = (if calendar_fields year month day hour minute second fraction
             then Time.mktime off
                    {| Time.tm_year := Str.int year; Time.tm_mon := Str.int month;
                       Time.tm_mday := Str.int day; Time.tm_hour := Str.int hour;
                       Time.tm_min := Str.int minute; Time.tm_sec := Str.int second |}
             else 0)) as Hmain.
  { unfold _iso8601_to_unix_timestamp. rewrite iso_text_truthy. cbn [negb].
    rewrite calendar_fields_groups by done.
    unfold Time.strptime.
    change (Time.parse_format "%Y-%m-%dT%H:%M:%S.%fZ")
      with [Time.Dir "Y"; Time.Lit "-"; Time.Dir "m"; Time.Lit "-"; Time.Dir "d";
            Time.Lit "T"; Time.Dir "H"; Time.Lit ":"; Time.Dir "M"; Time.Lit ":";
            Time.Dir "S"; Time.Lit "."; Time.Dir "f"; Time.Lit "Z"]%char.
    unfold iso_text. rewrite !separator_app.
    rewrite !match_items_field by done.
    change (Time.group_of "Y") with (Some (Time.Group 4 4 0 9999)).
    change (Time.group_of "m") with (Some (Time.Group 1 2 1 12)).
    change (Time.group_of "d") with (Some (Time.Group 1 2 1 31)).
    change (Time.group_of "H") with (Some (Time.Group 1 2 0 23)).
    change (Time.group_of "M") with (Some (Time.Group 1 2 0 59)).
    change (Time.group_of "S") with (Some (Time.Group 1 2 0 61)).
    change (Time.group_of "f") with (Some (Time.Group 1 6 0 999999)).
    cbn [mbind option_bind].
    destruct (Time.in_group (Time.Group 4 4 0 9999) year); [| done].
    destruct (Time.in_group (Time.Group 1 2 1 12) month); [| done].
    destruct (Time.in_group (Time.Group 1 2 1 31) day); [| done].
    destruct (Time.in_group (Time.Group 1 2 0 23) hour); [| done].
    destruct (Time.in_group (Time.Group 1 2 0 59) minute); [| done].
    destruct (Time.in_group (Time.Group 1 2 0 61) second); [| done].
    destruct (Time.in_group (Time.Group 1 6 0 999999) fraction); [| done].
    cbn. by destruct (_ && _). }
  split; [exact Hmain |].
  intros Hday. rewrite Hmain.
  destruct (calendar_fields _ _ _ _ _ _ _) eqn:Hc; [| done].
  unfold calendar_fields in Hc. rewrite !andb_true_iff, !Z.leb_le in Hc. lia.
Qed.

(** *** The literals of the format *)

Lemma upper_char_separator c :
  (Str.upper_char c = "-"%char → c = "-"%char)
  ∧ (Str.upper_char c = ":"%char → c = ":"%char)
  ∧ (Str.upper_char c = "."%char → c = "."%char)
  ∧ (Str.upper_char c = "T"%char → c = "T"%char ∨ c = "t"%char)
  ∧ (Str.upper_char c = "Z"%char → c = "Z"%char ∨ c = "z"%char).
Proof.
  destruct c as [[] [] [] [] [] [] [] []]; vm_compute;
    repeat split; intros Hc;
    solve [ reflexivity | discriminate Hc | by left | by right ].
Qed.

(** A text that matches holds, for every literal of the format, a character
    that reads as that literal in upper case. *)
Lemma match_items_literals items s t t' c :
  Time.match_items items s t = Some t' →
  Time.Lit c ∈ items →
  ∃ c', c' ∈ list_ascii_of_string s ∧ Str.upper_char c' = Str.upper_char c.
Proof.
  revert s t. induction items as [|[c0|d] items IH]; intros s t Hm Hin; cbn in Hm.
  - by apply not_elem_of_nil in Hin.
  - destruct s as [|c' s']; [done |].
    destruct (Ascii.eqb_spec (Str.upper_char c0) (Str.upper_char c')) as [Heq|?];
      [| done].
    apply elem_of_cons in Hin as [[= ->]|Hin].
    + exists c'. split; [left | done].
    + destruct (IH _ _ Hm Hin) as (x & Hx & Hu). exists x. split; [by right | done].
  - destruct (Time.match_group d s) as [[v rest]|] eqn:Hg; [| done]. cbn in Hm.
    apply elem_of_cons in Hin as [[=]|Hin].
    destruct (IH _ _ Hm Hin) as (x & Hx & Hu).
    destruct (match_group_known _ _ _ Hg) as [g Hgroup].
    destruct (match_group_spec _ _ _ _ _ Hgroup Hg) as (_ & pre & ->).
    exists x. split; [| done]. rewrite chars_app. apply elem_of_app. by right.
Qed.

Ltac literal_of_format := repeat (first [by left | right]).

(** X20: a text without one of the separators of the format gives 0: a
    timestamp needs a hyphen, a colon, the point of the fractional seconds, a
    letter T and a letter Z, the letters in either case. *)
Theorem timestamp_needs_separators off s :
  ¬ ("-"%char ∈ list_ascii_of_string s
     ∧ ":"%char ∈ list_ascii_of_string s
     ∧ "."%char ∈ list_ascii_of_string s
     ∧ ("T"%char ∈ list_ascii_of_string s ∨ "t"%char ∈ list_ascii_of_string s)
     ∧ ("Z"%char ∈ list_ascii_of_string s ∨ "z"%char ∈ list_ascii_of_string s)) →
  _iso8601_to_unix_timestamp off s = 0.
Proof.
  intros Hno. unfold _iso8601_to_unix_timestamp.
  destruct (negb (Str.truthy s)); [done |].
  destruct (Time.strptime s _) as [t|] eqn:Hp; [| done].
  exfalso. apply Hno. unfold Time.strptime in Hp.
  destruct (Time.match_items _ s _) as [t1|] eqn:Hm; [| done].
  assert (∀ c, Time.Lit c ∈ Time.parse_format "%Y-%m-%dT%H:%M:%S.%fZ" →
               ∃ c', c' ∈ list_ascii_of_string s
                     ∧ Str.upper_char c' = Str.upper_char c) as Hlit.
  { intros c Hc. by eapply match_items_literals. }
  destruct (Hlit "-"%char) as (c1 & H1 & U1); [cbn; literal_of_format |].
  destruct (Hlit ":"%char) as (c2 & H2 & U2); [cbn; literal_of_format |].
  destruct (Hlit "."%char) as (c3 & H3 & U3); [cbn; literal_of_format |].
  destruct (Hlit "T"%char) as (c4 & H4 & U4); [cbn; literal_of_format |].
  destruct (Hlit "Z"%char) as (c5 & H5 & U5); [cbn; literal_of_format |].
  destruct (upper_char_separator c1) as (S1 & _).
  destruct (upper_char_separator c2) as (_ & S2 & _).
  destruct (upper_char_separator c3) as (_ & _ & S3 & _).
  destruct (upper_char_separator c4) as (_ & _ & _ & S4 & _).
  destruct (upper_char_separator c5) as (_ & _ & _ & _ & S5).
  rewrite (S1 U1) in H1. rewrite (S2 U2) in H2. rewrite (S3 U3) in H3.
  split; [done |]. split; [done |]. split; [done |]. split.
  - destruct (S4 U4) as [->| ->]; auto.
  - destruct (S5 U5) as [->| ->]; auto.
Qed.

(** *** Errors of the snapshot store *)

Section StoreErrors.

Context {float : Type} (float_repr : float → string) (str_hash : string → Z)
  (quote : string → string) (local_utcoffset : Z → Z)
  (json_dumps : list (json_object float) → string)
  (json_load : string → result (list (json_object float)))
  (Node_init : json_object float → result (Node float)).


End StoreErrors.

(** *** The GPX exporter *)

Lemma string_app_cons (x : ascii) (a b : string) :
  String x a +:+ b = String x (a +:+ b).
Proof. reflexivity. Qed.

Lemma string_app_assoc (a b c : string) : (a +:+ b) +:+ c = a +:+ (b +:+ c).
Proof. induction a as [|x a IH]; [done |]. by rewrite !string_app_cons, IH. Qed.

Lemma string_app_nil_r (a : string) : a +:+ "" = a.
Proof. induction a as [|x a IH]; [done |]. by rewrite string_app_cons, IH. Qed.

Section GpxExport.

Context {float : Type} (float_repr : float → string).

Lemma gpx_loop (acc : string) (repeaters : list (Gpx.Repeater float)) :
  foldl (λ gpx repeater, gpx +:+ Gpx._generate_gpx_entry float_repr repeater)
        acc repeaters
  = acc +:+ String.concat "" (Gpx._generate_gpx_entry float_repr <$> repeaters).
Proof.
  revert acc. induction repeaters as [|r rs IH]; intros acc.
  - cbn. by rewrite string_app_nil_r.
  - cbn [foldl fmap list_fmap]. rewrite IH, string_app_assoc. f_equal.
    destruct rs as [|r' rs]; cbn; [by rewrite string_app_nil_r | done].
Qed.

Lemma concat_entries_app (a b : list string) :
  String.concat "" (a ++ b) = String.concat "" a +:+ String.concat "" b.
Proof.
  induction a as [|x a IH]; [done |].
  assert (∀ l, String.concat "" (x :: l) = x +:+ String.concat "" l) as Hc.
  { intros [|y l]; cbn; [by rewrite string_app_nil_r | done]. }
  rewrite <- app_comm_cons, !Hc, IH. by rewrite string_app_assoc.
Qed.

(** X22: the document is the header, one waypoint for each repeater in
    the order of the list, and the closing tag; an empty list gives the
    header and the closing tag, and the document of two lists in a row holds
    the waypoints of the first followed by those of the second. *)
Theorem gpx_document_structure :
  (∀ repeaters : list (Gpx.Repeater float),
     Gpx._export_to_gpx float_repr repeaters
     = Gpx.gpx_header
       +:+ String.concat "" (Gpx._generate_gpx_entry float_repr <$> repeaters)
       +:+ "</gpx>")
  ∧ Gpx._export_to_gpx float_repr [] = Gpx.gpx_header +:+ "</gpx>"
  ∧ (∀ a b : list (Gpx.Repeater float),
       Gpx._export_to_gpx float_repr (a ++ b)
       = Gpx.gpx_header
         +:+ String.concat "" (Gpx._generate_gpx_entry float_repr <$> a)
         +:+ String.concat "" (Gpx._generate_gpx_entry float_repr <$> b)
         +:+ "</gpx>").
Proof.
  assert (∀ repeaters : list (Gpx.Repeater float),
     Gpx._export_to_gpx float_repr repeaters
     = Gpx.gpx_header
       +:+ String.concat "" (Gpx._generate_gpx_entry float_repr <$> repeaters)
       +:+ "</gpx>") as Hform.
  { intros rs. unfold Gpx._export_to_gpx. cbv zeta.
    by rewrite gpx_loop, string_app_assoc. }
  split; [exact Hform |]. split; [reflexivity |].
  intros a b. rewrite Hform, fmap_app, concat_entries_app.
  by rewrite string_app_assoc.
Qed.

End GpxExport.

(** ** The further properties on the concrete environment *)

Lemma key_beyond_prefix_is_ignored_witness :
  Node_hash Sample.float_repr Sample.str_hash Fixtures.long_key_node
  = Node_hash Sample.float_repr Sample.str_hash Fixtures.other_key_node
  ∧ _filter_diff_nodes Sample.float_repr Sample.str_hash
      [Fixtures.long_key_node] [Fixtures.other_key_node]
    = Ok ([], [Fixtures.other_key_node], []).
Proof.
  apply (key_beyond_prefix_is_ignored Sample.float_repr Sample.str_hash
           Fixtures.long_key_node Fixtures.other_key_node).
  - reflexivity.
  - repeat split.
  - reflexivity.
Defined.

Lemma rewrite_iff_fingerprints_changed_witness :
  sync_repeaters Sample.float_repr Sample.str_hash Sample.quote Sample.json_dumps
    (Sample.json_load Sample.snapshot_documents) Sample.Node_init
    "repeaters.json" [Sample.repeater_AB12 1771377540] []
    {[ "repeaters.json" := Sample.snapshot_text 1771370000 ]}
  = Ok {[ "repeaters.json" := Sample.snapshot_text 1771370000 ]}.
Proof.
  assert (_read_nodes_from_file (Sample.json_load Sample.snapshot_documents)
            Sample.Node_init {[ "repeaters.json" := Sample.snapshot_text 1771370000 ]}
            "repeaters.json"
          = Ok (get_den_repeaters Sample.quote [Sample.repeater_AB12 1771370000] []))
    as Hread by (vm_compute; reflexivity).
  pose proof (rewrite_iff_fingerprints_changed Sample.float_repr Sample.str_hash
                Sample.quote Sample.utc Sample.json_dumps
                (Sample.json_load Sample.snapshot_documents) Sample.Node_init
                "repeaters.json"
                (get_den_repeaters Sample.quote [Sample.repeater_AB12 1771377540] [])
                _ _ Hread) as Hthm.
  cbv zeta in Hthm. destruct Hthm as [Hrep _].
  destruct (Hrep _ _ eq_refl) as [Hsame _]. apply Hsame.
  intros h. vm_compute. tauto.
Defined.

Lemma sync_twice_is_sync_once_witness :
  sync_repeaters Sample.float_repr Sample.str_hash Sample.quote Sample.json_dumps
    (Sample.json_load Sample.snapshot_documents) Sample.Node_init
    "repeaters.json" [Sample.repeater_AB12 1771370000] []
    (<[ "repeaters.json" := Sample.snapshot_text 1771370000 ]> ∅)
  = Ok (<[ "repeaters.json" := Sample.snapshot_text 1771370000 ]> ∅).
Proof.
  pose proof (sync_twice_is_sync_once Sample.float_repr Sample.str_hash
                Sample.quote Sample.utc Sample.json_dumps
                (Sample.json_load Sample.snapshot_documents) Sample.Node_init
                "repeaters.json"
                (get_den_repeaters Sample.quote [Sample.repeater_AB12 1771370000] []))
    as Hthm.
  destruct Hthm as [Hrep _].
  - vm_compute. reflexivity.
  - intros n Hn. apply list_elem_of_singleton in Hn. subst n. reflexivity.
  - apply (Hrep [Sample.repeater_AB12 1771370000] [] ∅); [reflexivity |].
    vm_compute. reflexivity.
Defined.

Lemma main_order_independent_witness :
  (sync_companions Sample.float_repr Sample.str_hash Sample.quote Sample.utc
     Sample.json_dumps (Sample.json_load Sample.snapshot_documents)
     Sample.Node_init "companions.json" [Fixtures.companion_C0FFEE] ∅
   ≫= sync_repeaters Sample.float_repr Sample.str_hash Sample.quote
        Sample.json_dumps (Sample.json_load Sample.snapshot_documents)
        Sample.Node_init "repeaters.json" [Sample.repeater_AB12 1771370000] [])
  = Ok Fixtures.after_first_run.
Proof.
  apply (main_order_independent Sample.float_repr Sample.str_hash Sample.quote
           Sample.utc Sample.json_dumps (Sample.json_load Sample.snapshot_documents)
           Sample.Node_init "repeaters.json" "companions.json"
           [Sample.repeater_AB12 1771370000] [] [Fixtures.companion_C0FFEE] ∅
           Fixtures.after_first_run).
  - discriminate.
  - vm_compute. reflexivity.
Defined.


Lemma timestamp_needs_separators_witness :
  _iso8601_to_unix_timestamp Sample.utc "2026-02-18T01:19:00Z" = 0.
Proof.
  apply timestamp_needs_separators.
  intros (_ & _ & Hdot & _). revert Hdot. cbn. absent_char.
Defined.


Lemma timestamp_of_fields_witness :
  _iso8601_to_unix_timestamp Sample.mst "2026-02-30T01:19:00.379Z" = 0
  ∧ _iso8601_to_unix_timestamp Sample.mst "2026-02-18T01:19:00.379Z" = 1771402740.
Proof.
  split.
  - exact (proj2 (timestamp_of_fields Sample.mst "2026" "02" "30" "01" "19" "00" "379"
                    eq_refl eq_refl eq_refl eq_refl eq_refl eq_refl eq_refl)
             eq_refl).
  - exact (proj1 (timestamp_of_fields Sample.mst "2026" "02" "18" "01" "19" "00" "379"
                    eq_refl eq_refl eq_refl eq_refl eq_refl eq_refl eq_refl)).
Defined.

Lemma unknown_device_role_is_rejected_witness :
  main_of_answers Sample.float_repr Sample.str_hash Sample.quote Sample.utc
    Sample.json_dumps (Sample.json_load Sample.snapshot_documents) Sample.Node_init
    4300 "repeaters.json" "companions.json" [Sample.repeater_AB12 1771370000]
    [Fixtures.item_C0FFEE; Fixtures.item_role_7] [Fixtures.item_C0FFEE] ∅
  = Raise (ValidationError_device_role 7)
  ∧ ∃ role,
      (role ≠ 1 ∧ role ≠ 2 ∧ role ≠ 3)
      ∧ sync_companions_of_answer Sample.float_repr Sample.str_hash Sample.quote
          Sample.utc Sample.json_dumps (Sample.json_load Sample.snapshot_documents)
          Sample.Node_init "companions.json"
          [Fixtures.item_C0FFEE; Fixtures.item_role_7] ∅
        = Raise (ValidationError_device_role role).
Proof.
  split; [vm_compute; reflexivity |].
  destruct (unknown_device_role_is_rejected Sample.float_repr Sample.str_hash
              Sample.quote Sample.utc Sample.json_dumps
              (Sample.json_load Sample.snapshot_documents) Sample.Node_init 4300)
    as (_ & _ & _ & _ & _ & _ & _ & _ & _ & _ & Hrejected & _).
  destruct (Hrejected [Fixtures.item_C0FFEE; Fixtures.item_role_7] Fixtures.item_role_7)
    as (role & Hrole & _ & _ & _ & _ & Hsync & _).
  - right. left.
  - cbn. lia.
  - exists role. split; [exact Hrole | apply Hsync].
Defined.

Lemma repeaters_created_at_witness :
  get_den_repeaters_checked Sample.quote 4300 [Fixtures.repeater_long_created_at] []
  = Raise (ValueError_int_max_str_digits 4301)
  ∧ get_den_repeaters_checked Sample.quote 4300 [Sample.repeater_AB12 1771370000] []
    = Ok (get_den_repeaters Sample.quote [Sample.repeater_AB12 1771370000] []).
Proof.
  split; [vm_compute; reflexivity |].
  destruct (repeaters_created_at Sample.quote 4300 [Sample.repeater_AB12 1771370000] [])
    as (Hruns & Hlist & _).
  destruct (proj1 Hruns) as [ns Hns].
  - repeat constructor.
  - rewrite Hns. f_equal. by apply Hlist.
Defined.
